(** * veo3free: the dispatch and coordination layer

    A shallow embedding of the task queue ([TaskManager] in [main.py]), the
    front-end API that drives it ([Api] in [main.py]), the worker protocol
    handler ([server/ws_routes.py]) and the immediate dispatch of the HTTP
    path ([api_server_fastapi.py]), followed by the properties of the
    specification that concern them.

    Conventions of the embedding.
    - A Python [dict] used as a record (a task, a client entry) is a Rocq
      record; a key that the code adds later ([saved_path], [output_dir_path],
      [preview_base64]) is an [option] field, [None] standing for "absent or
      [None]".
    - [TaskManager.clients] is a Python dict whose iteration order is the
      insertion order: it is an association list ([odict]).  Its keys are
      distinct in every reachable state ([reachable_clients_keys]), so that
      the entries of the list are the entries of the dict.
    - [chunk_buffer] is only looked up, counted and deleted from: it is a
      [gmap].
    - [datetime.now()] is an input of every operation that reads the clock,
      as an integer number of microseconds of the naive local clock counted
      from a fixed midnight.  [isoformat]/[fromisoformat] round-trip a naive
      datetime exactly, so a stored time stamp is that integer.
      [(a - b).total_seconds()] is the correctly rounded quotient of the
      microsecond difference by 10^6; comparing it with the integer constants
      600 and 3 is comparing the microsecond difference with 600 * 10^6 and
      3 * 10^6.
    - The file system, the image library and the web socket are outside the
      program: what they answer during one operation is the [world] given to
      that operation, and what the program asks them to do (a task message
      sent, a file saved) is appended to a trace kept in the state.
    - A [str] on which the code performs no character-level operation is a
      Rocq [string]; the prompt, which is stripped, is a list of Unicode
      code points. *)

From Stdlib Require Import ZArith Lia Bool.
From stdpp Require Import base option list gmap strings pretty.

Local Open Scope string_scope.
Local Open Scope list_scope.
Local Open Scope Z_scope.

(** ** Ordered dictionaries *)

Module odict.
Section defs.
Context {V : Type}.
Implicit Types (k : string) (d : list (string * V)).

Fixpoint get k d : option V :=
  match d with
  | [] => None
  | (k', v) :: d' => if decide (k' = k) then Some v else get k d'
  end.

Definition mem k d : bool := bool_decide (is_Some (get k d)).

(** [del d[k]]. *)
Fixpoint del k d : list (string * V) :=
  match d with
  | [] => []
  | (k', v') :: d' =>
      if decide (k' = k) then del k d' else (k', v') :: del k d'
  end.

(** [d[k][field] = ...]: the entry of [k] is updated in place. *)
Fixpoint alter (f : V → V) k d : list (string * V) :=
  match d with
  | [] => []
  | (k', v') :: d' =>
      if decide (k' = k) then (k', f v') :: alter f k d'
      else (k', v') :: alter f k d'
  end.

(** [d[k] = v]: an existing key keeps its position, a new one goes last. *)
Definition set k (v : V) d : list (string * V) :=
  if mem k d then alter (λ _, v) k d else d ++ [(k, v)].
End defs.
End odict.

(** ** Data model *)

(** The six values of [task['status']]:
    '等待中' (queued), '处理中' (assigned), '已完成' (succeeded),
    '失败' (failed), '超时' (timed out), '下载失败' (save failed). *)
Inductive status :=
  | Queued | Assigned | Succeeded | Failed | TimedOut | SaveFailed.

Global Instance status_eq_dec : EqDecision status.
Proof. solve_decision. Defined.

(** The texts the program itself writes into [status_detail]. *)
Definition detail_timeout_of (seconds : Z) : string :=
  "任务超时（超过" +:+ pretty (seconds `div` 60) +:+ "分钟）".
Definition detail_skip : string := "文件已存在，跳过生成".

Record task := mkTask {
  id : string;
  prompt : list N;
  t_status : status;
  status_detail : string;
  file_ext : string;
  output_dir : option string;
  client_id : option string;
  task_type : string;
  aspect_ratio : string;
  resolution : string;
  reference_images : list string;
  start_time : option Z;
  end_time : option Z;
  import_row_number : option string;
  saved_path : option string;
  output_dir_path : option string;
  preview_base64 : option string
}.

Global Instance task_eq_dec : EqDecision task.
Proof. solve_decision. Defined.

Definition set_status (st : status) (t : task) : task :=
  mkTask (id t) (prompt t) st (status_detail t) (file_ext t) (output_dir t)
    (client_id t) (task_type t) (aspect_ratio t) (resolution t)
    (reference_images t) (start_time t) (end_time t) (import_row_number t)
    (saved_path t) (output_dir_path t) (preview_base64 t).

Definition set_status_detail (d : string) (t : task) : task :=
  mkTask (id t) (prompt t) (t_status t) d (file_ext t) (output_dir t)
    (client_id t) (task_type t) (aspect_ratio t) (resolution t)
    (reference_images t) (start_time t) (end_time t) (import_row_number t)
    (saved_path t) (output_dir_path t) (preview_base64 t).

Definition set_client_id (c : option string) (t : task) : task :=
  mkTask (id t) (prompt t) (t_status t) (status_detail t) (file_ext t)
    (output_dir t) c (task_type t) (aspect_ratio t) (resolution t)
    (reference_images t) (start_time t) (end_time t) (import_row_number t)
    (saved_path t) (output_dir_path t) (preview_base64 t).

Definition set_start_time (x : option Z) (t : task) : task :=
  mkTask (id t) (prompt t) (t_status t) (status_detail t) (file_ext t)
    (output_dir t) (client_id t) (task_type t) (aspect_ratio t) (resolution t)
    (reference_images t) x (end_time t) (import_row_number t)
    (saved_path t) (output_dir_path t) (preview_base64 t).

Definition set_end_time (x : option Z) (t : task) : task :=
  mkTask (id t) (prompt t) (t_status t) (status_detail t) (file_ext t)
    (output_dir t) (client_id t) (task_type t) (aspect_ratio t) (resolution t)
    (reference_images t) (start_time t) x (import_row_number t)
    (saved_path t) (output_dir_path t) (preview_base64 t).

Definition set_saved_path (x : option string) (t : task) : task :=
  mkTask (id t) (prompt t) (t_status t) (status_detail t) (file_ext t)
    (output_dir t) (client_id t) (task_type t) (aspect_ratio t) (resolution t)
    (reference_images t) (start_time t) (end_time t) (import_row_number t)
    x (output_dir_path t) (preview_base64 t).

Definition set_output_dir_path (x : option string) (t : task) : task :=
  mkTask (id t) (prompt t) (t_status t) (status_detail t) (file_ext t)
    (output_dir t) (client_id t) (task_type t) (aspect_ratio t) (resolution t)
    (reference_images t) (start_time t) (end_time t) (import_row_number t)
    (saved_path t) x (preview_base64 t).

Definition set_preview_base64 (x : option string) (t : task) : task :=
  mkTask (id t) (prompt t) (t_status t) (status_detail t) (file_ext t)
    (output_dir t) (client_id t) (task_type t) (aspect_ratio t) (resolution t)
    (reference_images t) (start_time t) (end_time t) (import_row_number t)
    (saved_path t) (output_dir_path t) x.

(** An entry of [TaskManager.clients].  The ['ws'] handle is the connection
    itself; what a [send] on it does is answered by the [world]. *)
Record client := mkClient {
  url : string;
  busy : bool;
  task_id : option string;
  page_number : Z;
  last_task_end : option Z
}.

Global Instance client_eq_dec : EqDecision client.
Proof. solve_decision. Defined.

(** The JSON object of a ['type': 'task'] message. *)
Record task_message := mkTaskMessage {
  m_task_id : string;
  m_prompt : list N;
  m_task_type : string;
  m_aspect_ratio : string;
  m_resolution : string;
  m_reference_images : list string
}.

(** What the program asks of the outside. *)
Inductive event :=
  | EvSend (cid : string) (m : task_message)
  | EvSave (dir filename data : string).

Record TaskManager := mkTM {
  tasks : list task;
  current_index : nat;
  is_running : bool;
  clients : list (string * client);
  next_page_number : Z
}.

Definition TaskManager_init : TaskManager := mkTM [] 0 false [] 1.

Definition TASK_TIMEOUT_SECONDS : Z := 600.
Definition CLIENT_COOLDOWN_SECONDS : Z := 3.
Definition MICRO : Z := 1000000.

Definition with_tasks (ts : list task) (tm : TaskManager) : TaskManager :=
  mkTM ts (current_index tm) (is_running tm) (clients tm) (next_page_number tm).
Definition with_index (i : nat) (tm : TaskManager) : TaskManager :=
  mkTM (tasks tm) i (is_running tm) (clients tm) (next_page_number tm).
Definition with_running (b : bool) (tm : TaskManager) : TaskManager :=
  mkTM (tasks tm) (current_index tm) b (clients tm) (next_page_number tm).
Definition with_clients (cs : list (string * client)) (tm : TaskManager)
  : TaskManager :=
  mkTM (tasks tm) (current_index tm) (is_running tm) cs (next_page_number tm).

(** ** The outside world during one operation *)

Record world := mkWorld {
  w_now : Z;                 (* datetime.now(), microseconds *)
  w_time : Z;                (* int(time.time()), seconds *)
  w_stamp : string;          (* datetime.now().strftime("%Y-%m-%d_%H-%M-%S") *)
  w_OUTPUT_DIR : string;     (* OUTPUT_DIR / output_dir_base *)
  w_cwd : string;            (* what Path.absolute() prepends *)
  w_files : list string;     (* the paths for which Path.exists() holds *)
  w_mkdir_ok : bool;         (* Path.mkdir does not raise *)
  w_save_ok : bool;          (* base64.b64decode and write_bytes do not raise *)
  w_send_ok : bool;          (* ws.send does not raise *)
  w_thumbnail : string → option string;  (* None: the image library raised *)
  w_compress : string → option string    (* compress_image_to_base64 *)
}.

(** POSIX paths, as [pathlib] computes them. *)
Definition is_absolute (p : string) : bool := String.prefix "/" p.
Definition path_join (d f : string) : string :=
  if is_absolute f then f else d +:+ "/" +:+ f.
Definition absolute (w : world) (p : string) : string :=
  if is_absolute p then p else w_cwd w +:+ "/" +:+ p.
Definition path_exists (w : world) (p : string) : bool :=
  bool_decide (p ∈ w_files w).

(** ** Python string helpers *)

(** [str.isspace] on one code point (CPython's [_PyUnicode_IsWhitespace]). *)
Definition py_isspace (c : N) : bool :=
  ((9 <=? c) && (c <=? 13) || (28 <=? c) && (c <=? 32)
   || (c =? 133) || (c =? 160) || (c =? 5760)
   || (8192 <=? c) && (c <=? 8202) || (c =? 8232) || (c =? 8233)
   || (c =? 8239) || (c =? 8287) || (c =? 12288))%N.

Fixpoint lstrip (s : list N) : list N :=
  match s with
  | c :: s' => if py_isspace c then lstrip s' else s
  | [] => []
  end.

Definition rstrip (s : list N) : list N := reverse (lstrip (reverse s)).

(** [str.strip()] *)
Definition strip (s : list N) : list N := rstrip (lstrip s).

(** [needle in s] *)
Fixpoint contains (needle s : string) : bool :=
  String.prefix needle s ||
  match s with
  | String _ s' => contains needle s'
  | EmptyString => false
  end.

Definition ascii_lower (a : Ascii.ascii) : Ascii.ascii :=
  let n := Ascii.N_of_ascii a in
  if ((65 <=? n) && (n <=? 90))%N then Ascii.ascii_of_N (n + 32) else a.

Fixpoint lower (s : string) : string :=
  match s with
  | String a s' => String (ascii_lower a) (lower s')
  | EmptyString => EmptyString
  end.

(** [f"{n:0w}"] for a non-negative [n]. *)
Definition zpad (width : nat) (n : Z) : string :=
  let s := pretty n in
  String.concat "" (replicate (width - String.length s) "0") +:+ s.

(** [datetime.strftime('%H%M%S%f')] *)
Definition strftime_HMSf (now : Z) : string :=
  let tod := now `mod` (86400 * MICRO) in
  zpad 2 (tod `div` (3600 * MICRO)) +:+
  zpad 2 ((tod `div` (60 * MICRO)) `mod` 60) +:+
  zpad 2 ((tod `div` MICRO) `mod` 60) +:+
  zpad 6 (tod `mod` MICRO).

(** Truth value of an optional [str]: [None] and [''] are false. *)
Definition truthy (o : option string) : bool :=
  match o with Some s => negb (String.eqb s "") | None => false end.

(** ** class TaskManager *)

Definition register_client (w : world) (page_url : string) (tm : TaskManager)
  : (string * Z) * TaskManager :=
  let cs := filter (λ e, url e.2 ≠ page_url) (clients tm) in
  let cid := "c" +:+ pretty (length cs) +:+ "_" +:+ pretty (w_time w `mod` 10000) in
  let pn := next_page_number tm in
  let info := mkClient page_url false None pn None in
  ((cid, pn),
   mkTM (tasks tm) (current_index tm) (is_running tm)
        (odict.set cid info cs) (pn + 1)).

(** The loop of [remove_client] over the tasks (no [break]). *)
Definition requeue_assigned (tid : string) (t : task) : task :=
  if decide (id t = tid ∧ t_status t = Assigned) then set_status Queued t else t.

Definition remove_client (cid : string) (tm : TaskManager) : TaskManager :=
  match odict.get cid (clients tm) with
  | Some info =>
      let ts :=
        if truthy (task_id info)
        then requeue_assigned (default "" (task_id info)) <$> tasks tm
        else tasks tm in
      with_clients (odict.del cid (clients tm)) (with_tasks ts tm)
  | None => tm
  end.

Definition in_cooldown (now : Z) (info : client) : bool :=
  match last_task_end info with
  | Some last_end => now - last_end <? CLIENT_COOLDOWN_SECONDS * MICRO
  | None => false
  end.

Fixpoint get_idle_client_in (now : Z) (cs : list (string * client))
  : option (string * client) :=
  match cs with
  | [] => None
  | (cid, info) :: cs' =>
      if negb (busy info) && negb (in_cooldown now info)
      then Some (cid, info)
      else get_idle_client_in now cs'
  end.

Definition get_idle_client (w : world) (tm : TaskManager)
  : option (string * client) :=
  get_idle_client_in (w_now w) (clients tm).

(** The loop of [mark_client_busy] over the tasks (with [break]). *)
Fixpoint bind_first (tid cid : string) (ts : list task) : list task :=
  match ts with
  | [] => []
  | t :: ts' =>
      if decide (id t = tid) then set_client_id (Some cid) t :: ts'
      else t :: bind_first tid cid ts'
  end.

Definition set_busy (tid : string) (c : client) : client :=
  mkClient (url c) true (Some tid) (page_number c) (last_task_end c).

Definition mark_client_busy (cid tid : string) (tm : TaskManager) : TaskManager :=
  if odict.mem cid (clients tm)
  then with_clients (odict.alter (set_busy tid) cid (clients tm))
         (with_tasks (bind_first tid cid (tasks tm)) tm)
  else tm.

Definition set_idle (now : Z) (c : client) : client :=
  mkClient (url c) false None (page_number c) (Some now).

Definition mark_client_idle (w : world) (cid : string) (tm : TaskManager)
  : TaskManager :=
  if odict.mem cid (clients tm)
  then with_clients (odict.alter (set_idle (w_now w)) cid (clients tm)) tm
  else tm.

Definition get_client_count (tm : TaskManager) : nat * nat :=
  (length (clients tm), length (filter (λ e, busy e.2 = true) (clients tm))).

Fixpoint set_detail_first (tid d : string) (ts : list task) : list task :=
  match ts with
  | [] => []
  | t :: ts' =>
      if decide (id t = tid) then set_status_detail d t :: ts'
      else t :: set_detail_first tid d ts'
  end.

Definition update_task_status_detail (tid d : string) (tm : TaskManager)
  : TaskManager :=
  with_tasks (set_detail_first tid d (tasks tm)) tm.

Definition add_task (w : world) (prompt0 : list N)
    (task_type0 aspect_ratio0 resolution0 : string)
    (reference_images0 : option (list string))
    (output_dir0 import_row_number0 : option string) (tm : TaskManager)
  : option task * TaskManager :=
  let p := strip prompt0 in
  if decide (p = []) then (None, tm) else
  let refs :=
    if String.eqb task_type0 "Text to Video" then Some [] else reference_images0 in
  let tid := "task_" +:+ pretty (length (tasks tm)) +:+ "_" +:+
             strftime_HMSf (w_now w) in
  let ext := if contains "Video" task_type0 then ".mp4" else ".png" in
  let t := mkTask tid p Queued "" ext output_dir0 None task_type0
             aspect_ratio0 resolution0 (default [] refs) None None
             import_row_number0 None None None in
  (Some t, with_tasks (tasks tm ++ [t]) tm).

(** The [while] of [get_next_task], started at position [i] on the tasks
    from there on: the position where it stops and the task found. *)
Fixpoint scan_queued (i : nat) (ts : list task) : nat * option task :=
  match ts with
  | [] => (i, None)
  | t :: ts' =>
      if decide (t_status t = Queued) then (i, Some t)
      else scan_queued (S i) ts'
  end.

Definition get_next_task (tm : TaskManager) : option task * TaskManager :=
  let r := scan_queued (current_index tm)
             (drop (current_index tm) (tasks tm)) in
  (r.2, with_index r.1 tm).

Definition release (c : client) : client :=
  mkClient (url c) false None (page_number c) (last_task_end c).

Definition timed_out (now : Z) (t : task) : bool :=
  match t_status t, start_time t with
  | Assigned, Some start => TASK_TIMEOUT_SECONDS * MICRO <? now - start
  | _, _ => false
  end.

Definition expire (now : Z) (t : task) : task :=
  set_status_detail (detail_timeout_of TASK_TIMEOUT_SECONDS)
    (set_end_time (Some now) (set_status TimedOut t)).

Definition release_of (t : task) (cs : list (string * client))
  : list (string * client) :=
  match client_id t with
  | Some cid =>
      if negb (String.eqb cid "") && odict.mem cid cs
      then odict.alter release cid cs else cs
  | None => cs
  end.

(** The loop of [check_timeout_tasks]: the tasks after it, the clients after
    it, and the list it returns. *)
Fixpoint sweep (now : Z) (ts : list task) (cs : list (string * client))
  : list task * list (string * client) * list task :=
  match ts with
  | [] => ([], cs, [])
  | t :: ts' =>
      if timed_out now t then
        let t' := expire now t in
        let '(ts'', cs'', out) := sweep now ts' (release_of t cs) in
        (t' :: ts'', cs'', t' :: out)
      else
        let '(ts'', cs'', out) := sweep now ts' cs in
        (t :: ts'', cs'', out)
  end.

Definition check_timeout_tasks (w : world) (tm : TaskManager)
  : list task * TaskManager :=
  let '(ts, cs, out) := sweep (w_now w) (tasks tm) (clients tm) in
  (out, with_clients cs (with_tasks ts tm)).

Definition clear_tasks (tm : TaskManager) : TaskManager :=
  mkTM [] 0 false (clients tm) (next_page_number tm).

(** ** The whole server state *)

Record server := mkServer {
  tm : TaskManager;
  chunk_buffer : gmap string (gmap Z string);
  loop_ready : bool;          (* Api.loop is not None *)
  trace : list event          (* most recent first *)
}.

Definition server_init : server := mkServer TaskManager_init ∅ false [].

Definition with_tm (x : TaskManager) (s : server) : server :=
  mkServer x (chunk_buffer s) (loop_ready s) (trace s).
Definition with_chunk_buffer (b : gmap string (gmap Z string)) (s : server)
  : server :=
  mkServer (tm s) b (loop_ready s) (trace s).
Definition emit (e : event) (s : server) : server :=
  mkServer (tm s) (chunk_buffer s) (loop_ready s) (e :: trace s).

(** ** class Api *)

(** [start_execution]: raises the running flag; the loop it schedules is
    the sequence of [execute_tasks_iter] steps taken afterwards. *)
Definition start_execution (s : server) : server :=
  if negb (loop_ready s) then s
  else if ((get_client_count (tm s)).1 =? 0)%nat then s
  else if bool_decide (tasks (tm s) = []) then s
  else with_tm (with_running true (tm s)) s.

Definition start_if_stopped (s : server) : server :=
  if is_running (tm s) then s else start_execution s.

Definition stop_execution (s : server) : server :=
  with_tm (with_running false (tm s)) s.

Definition retryable (st : status) : bool :=
  match st with Failed | TimedOut | SaveFailed => true | _ => false end.

Definition reset_task (t : task) : task :=
  set_client_id None
    (set_end_time None
       (set_start_time None
          (set_status_detail "" (set_status Queued t)))).

Inductive retry_error := BadIndex | NotFailed.

Definition retry_task (task_index : Z) (s : server)
  : (retry_error + unit) * server :=
  if (task_index <? 0) || (Z.of_nat (length (tasks (tm s))) <=? task_index)
  then (inl BadIndex, s) else
  let i := Z.to_nat task_index in
  match tasks (tm s) !! i with
  | None => (inl BadIndex, s)
  | Some t =>
      if negb (retryable (t_status t)) then (inl NotFailed, s) else
      let ts := <[i := reset_task t]> (tasks (tm s)) in
      let ci := if (i <? current_index (tm s))%nat then i
                else current_index (tm s) in
      (inr tt, start_if_stopped (with_tm (with_index ci (with_tasks ts (tm s))) s))
  end.

Definition reset_if_failed (t : task) : task :=
  if retryable (t_status t) then reset_task t else t.

(** The positions of the tasks [retry_all_failed] collects, from [i] on. *)
Fixpoint failed_indices (i : nat) (ts : list task) : list nat :=
  match ts with
  | [] => []
  | t :: ts' =>
      if retryable (t_status t) then i :: failed_indices (S i) ts'
      else failed_indices (S i) ts'
  end.

Definition retry_all_failed (s : server) : option nat * server :=
  let idx := failed_indices 0 (tasks (tm s)) in
  match idx with
  | [] => (None, s)
  | _ =>
      let ts := reset_if_failed <$> tasks (tm s) in
      let min_index := foldr Nat.min (length (tasks (tm s))) idx in
      let ci := if (min_index <? current_index (tm s))%nat then min_index
                else current_index (tm s) in
      (Some (length idx),
       start_if_stopped (with_tm (with_index ci (with_tasks ts (tm s))) s))
  end.

(** [list.pop(i)] followed by [list.insert(j, x)] ([insert] clips [j]). *)
Definition move_to (i j : nat) (t : task) (ts : list task) : list task :=
  let ts' := (take i ts ++ drop (S i) ts)%list in
  (take j ts' ++ t :: drop j ts')%list.

Definition run_single_task (task_index : Z) (s : server) : bool * server :=
  if (task_index <? 0) || (Z.of_nat (length (tasks (tm s))) <=? task_index)
  then (false, s) else
  let i := Z.to_nat task_index in
  match tasks (tm s) !! i with
  | None => (false, s)
  | Some t =>
      if negb (bool_decide (t_status t = Queued)) then (false, s)
      else if ((get_client_count (tm s)).1 =? 0)%nat then (false, s)
      else
        let ts := if decide (i = current_index (tm s)) then tasks (tm s)
                  else move_to i (current_index (tm s)) t (tasks (tm s)) in
        (true, start_if_stopped (with_tm (with_tasks ts (tm s)) s))
  end.

Definition Api_add_task (w : world) (prompt0 : list N)
    (task_type0 aspect_ratio0 resolution0 : string)
    (reference_images0 : list string) (output_dir0 : string) (s : server)
  : bool * server :=
  let r := add_task w prompt0 task_type0 aspect_ratio0 resolution0
             (Some reference_images0)
             (if String.eqb output_dir0 "" then None else Some output_dir0)
             None (tm s) in
  (bool_decide (is_Some r.1), with_tm r.2 s).

Definition Api_clear_tasks (s : server) : server :=
  with_tm (clear_tasks (tm s)) s.

(** The output directory a task resolves to. *)
Definition resolve_output_dir (w : world) (t : task) : string :=
  if truthy (output_dir t)
  then path_join (w_OUTPUT_DIR w) (default "" (output_dir t))
  else w_OUTPUT_DIR w.

Definition row_filename (t : task) : string :=
  default "" (import_row_number t) +:+ file_ext t.

Definition skip_path (w : world) (t : task) : string :=
  path_join (resolve_output_dir w t) (row_filename t).

Definition is_image_ext (e : string) : bool :=
  String.eqb e ".png" || String.eqb e ".jpg".

Definition skip_task (w : world) (t : task) : task :=
  let t1 :=
    set_status_detail detail_skip
      (set_output_dir_path (Some (resolve_output_dir w t))
         (set_saved_path (Some (absolute w (skip_path w t)))
            (set_end_time (Some (w_now w)) (set_status Succeeded t)))) in
  if is_image_ext (file_ext t)
  then set_preview_base64 (w_thumbnail w (skip_path w t)) t1
  else t1.

(** The reference images of the message: a path is compressed, anything
    else is passed on. *)
Fixpoint resolve_reference_images (w : world) (imgs : list string)
  : list string :=
  match imgs with
  | [] => []
  | img :: rest =>
      if negb (String.eqb img "") && negb (String.prefix "/9j/" img)
         && negb (String.prefix "iVBOR" img) && path_exists w img
      then match w_compress w img with
           | Some b => b :: resolve_reference_images w rest
           | None => resolve_reference_images w rest
           end
      else img :: resolve_reference_images w rest
  end.

Definition assign_task (w : world) (t : task) : task :=
  set_start_time (Some (w_now w)) (set_status Assigned t).

(** One turn of the [while] loop of [_execute_tasks].  A turn that leaves
    the loop ([break], or the flag found lowered) lowers [is_running]. *)
Definition execute_tasks_iter (w : world) (s : server) : server :=
  if negb (is_running (tm s)) then s else
  let tm1 := (check_timeout_tasks w (tm s)).2 in
  let '(nxt, tm2) := get_next_task tm1 in
  match nxt with
  | None =>
      if existsb (λ e, busy e.2) (clients tm2)
      then with_tm tm2 s
      else with_tm (with_running false tm2) s
  | Some t =>
      if ((get_client_count tm2).1 =? 0)%nat then with_tm tm2 s else
      match get_idle_client w tm2 with
      | None => with_tm tm2 s
      | Some (cid, _) =>
          let i := current_index tm2 in
          if truthy (import_row_number t) && path_exists w (skip_path w t)
          then
            with_tm (with_index (S i)
                       (with_tasks (<[i := skip_task w t]> (tasks tm2)) tm2)) s
          else
            let tm3 := with_tasks (<[i := assign_task w t]> (tasks tm2)) tm2 in
            let tm4 := mark_client_busy cid (id t) tm3 in
            let tm5 := with_index (S i) tm4 in
            let m := mkTaskMessage (id t) (prompt t) (task_type t)
                       (aspect_ratio t) (resolution t)
                       (resolve_reference_images w (reference_images t)) in
            let s1 := emit (EvSend cid m) (with_tm tm5 s) in
            if w_send_ok w then s1
            else
              with_tm (mark_client_idle w cid
                         (with_tasks (alter (set_status Queued) i (tasks tm5)) tm5))
                      s1
      end
  end.

(** ** server/ws_routes.py *)

(** A handler either returns or raises; in both cases the state it leaves
    behind is given. *)
Inductive outcome := Returned (s : server) | Raised (s : server).

(** The [while filepath.exists()] loop that appends a counter to the time
    stamp, with the number of turns it may still take.  The names it tries
    are pairwise distinct, so with one turn more than there are files it
    finds a free one ([free_name_total] below). *)
Fixpoint free_name (w : world) (fuel : nat) (dir ext : string)
    (counter : nat) : option string :=
  match fuel with
  | O => None
  | S fuel' =>
      let filename := w_stamp w +:+ "_" +:+ pretty counter +:+ ext in
      if path_exists w (path_join dir filename)
      then free_name w fuel' dir ext (S counter)
      else Some filename
  end.

(** The file name [_handle_image_result] chooses in directory [dir]. *)
Definition result_filename (w : world) (dir : string) (t : task)
  : option string :=
  if truthy (import_row_number t) then Some (row_filename t)
  else if path_exists w (path_join dir (w_stamp w +:+ file_ext t))
       then free_name w (S (length (w_files w))) dir (file_ext t) 1
       else Some (w_stamp w +:+ file_ext t).

(** [_save_base64_file]: the path it returns. *)
Definition save_base64_file (w : world) (filename dir : string)
  : option string :=
  if w_save_ok w then Some (absolute w (path_join dir filename)) else None.

Definition saved_task (w : world) (dir saved : string) (t : task) : task :=
  let t1 :=
    set_output_dir_path (Some dir)
      (set_saved_path (Some saved)
         (set_end_time (Some (w_now w)) (set_status Succeeded t))) in
  if is_image_ext (lower (file_ext t))
  then set_preview_base64 (Some (default "" (w_thumbnail w saved))) t1
  else t1.

Definition save_failed_task (w : world) (t : task) : task :=
  set_end_time (Some (w_now w)) (set_status SaveFailed t).

(** The position of the first task with the given id. *)
Fixpoint find_task (tid : string) (ts : list task) : option (nat * task) :=
  match ts with
  | [] => None
  | t :: ts' =>
      if decide (id t = tid) then Some (O, t)
      else prod_map S (λ x, x) <$> find_task tid ts'
  end.

Definition handle_image_result (w : world) (cid tid data : string)
    (s : server) : outcome :=
  match find_task tid (tasks (tm s)) with
  | Some (i, t) =>
      let p := resolve_output_dir w t in
      if negb (w_mkdir_ok w) then Raised s else
      match result_filename w p t with
      | None => Raised s
      | Some filename =>
          let s1 := emit (EvSave p filename data) s in
          let t' := match save_base64_file w filename p with
                    | Some saved => saved_task w p saved t
                    | None => save_failed_task w t
                    end in
          Returned
            (with_tm (mark_client_idle w cid
                        (with_tasks (<[i := t']> (tasks (tm s1))) (tm s1))) s1)
      end
  | None => Returned (with_tm (mark_client_idle w cid (tm s)) s)
  end.

Inductive ws_msg :=
  | MsgImageChunk (tid : option string) (chunk_index total_chunks : Z)
                  (data : string)
  | MsgImageData (tid : option string) (data : string)
  | MsgResult (tid : option string) (error : option string)
  | MsgStatus (message : string)
  | MsgOther.

(** [chunk_buffer[task_id][chunk_index] = chunk_data], creating the inner
    dict when the task has none. *)
Definition buffer_chunk (tid : string) (chunk_index : Z) (data : string)
    (b : gmap string (gmap Z string)) : gmap string (gmap Z string) :=
  <[tid := <[chunk_index := data]> (default ∅ (b !! tid))]> b.

(** ["".join(chunks[i] for i in range(total_chunks))]; [None] is the
    [KeyError] of a missing index. *)
Definition join_chunks (chunks : gmap Z string) (total_chunks : Z)
  : option string :=
  String.concat "" <$> mapM (λ i, chunks !! i) (seqZ 0 total_chunks).

Definition failed_task (w : world) (error : string) (t : task) : task :=
  set_end_time (Some (w_now w))
    (set_status_detail error (set_status Failed t)).

(** The body of the message loop of [ws_endpoint] for one message of the
    connection registered as [cid]. *)
Definition ws_handle (w : world) (cid : string) (msg : ws_msg) (s : server)
  : outcome :=
  match msg with
  | MsgImageChunk tid chunk_index total_chunks data =>
      if negb (truthy tid) then Returned s else
      let tid := default "" tid in
      let b := buffer_chunk tid chunk_index data (chunk_buffer s) in
      let s1 := with_chunk_buffer b s in
      let chunks := default ∅ (b !! tid) in
      if (0 <? total_chunks) && (Z.of_nat (size chunks) =? total_chunks)
      then match join_chunks chunks total_chunks with
           | None => Raised s1
           | Some full_base64 =>
               handle_image_result w cid tid full_base64
                 (with_chunk_buffer (delete tid b) s1)
           end
      else Returned s1
  | MsgImageData tid data =>
      if negb (truthy tid) then Returned s
      else handle_image_result w cid (default "" tid) data s
  | MsgResult tid error =>
      let s1 :=
        if truthy error && truthy tid then
          match find_task (default "" tid) (tasks (tm s)) with
          | Some (i, t) =>
              with_tm (with_tasks
                         (<[i := failed_task w (default "" error) t]>
                            (tasks (tm s))) (tm s)) s
          | None => s
          end
        else s in
      Returned (with_tm (mark_client_idle w cid (tm s1)) s1)
  | MsgStatus message =>
      match odict.get cid (clients (tm s)) with
      | Some info =>
          if truthy (task_id info)
          then Returned (with_tm (update_task_status_detail
                                    (default "" (task_id info)) message (tm s)) s)
          else Returned s
      | None => Returned s
      end
  | MsgOther => Returned s
  end.

(** The [finally] block of [ws_endpoint]. *)
Definition ws_close (cid : string) (s : server) : server :=
  with_tm (remove_client cid (tm s)) s.

(** One message on a registered connection: an exception ends the
    connection through the [finally] block. *)
Definition ws_message (w : world) (cid : string) (msg : ws_msg) (s : server)
  : server :=
  match ws_handle w cid msg s with
  | Returned s' => s'
  | Raised s' => ws_close cid s'
  end.

Definition ws_register (w : world) (page_url : string) (s : server)
  : string * server :=
  let r := register_client w page_url (tm s) in
  (r.1.1, with_tm r.2 s).

(** ** api_server_fastapi.py: [chat_completions] up to the start of the
    response, for a model found in [MODEL_MAPPING] *)

Record model_cfg := mkCfg {
  cfg_task_type : string;
  cfg_aspect_ratio : string;
  cfg_resolution : string;
  cfg_max_images : Z
}.

Inductive http_error := E400 | E503 | E500.

Definition chat_completions (w : world) (cfg : model_cfg) (prompt0 : list N)
    (images : list string) (api_instance : bool) (s : server)
  : (http_error + string) * server :=
  let p := strip prompt0 in
  if decide (p = []) then (inl E400, s)
  else if (cfg_max_images cfg =? 0) && negb (bool_decide (images = []))
  then (inl E400, s)
  else if cfg_max_images cfg <? Z.of_nat (length images) then (inl E400, s)
  else if ((get_client_count (tm s)).1 =? 0)%nat then (inl E503, s)
  else
    match add_task w p (cfg_task_type cfg) (cfg_aspect_ratio cfg)
            (cfg_resolution cfg) (Some images) None None (tm s) with
    | (None, _) => (inl E500, s)
    | (Some t, tm1) =>
        let i := length (tasks (tm s)) in
        let s1 := with_tm tm1 s in
        let s2 :=
          match get_idle_client w tm1 with
          | Some (cid, _) =>
              let tm2 := with_tasks (<[i := assign_task w t]> (tasks tm1)) tm1 in
              let tm3 := mark_client_busy cid (id t) tm2 in
              let m := mkTaskMessage (id t) p (cfg_task_type cfg)
                         (cfg_aspect_ratio cfg) (cfg_resolution cfg) images in
              let s' := emit (EvSend cid m) (with_tm tm3 s1) in
              if w_send_ok w then s'
              else with_tm (mark_client_idle w cid
                              (with_tasks (alter (set_status Queued) i (tasks tm3))
                                 tm3)) s'
          | None => s1
          end in
        (inr (id t),
         if negb (is_running (tm s2)) && api_instance
         then start_execution s2 else s2)
    end.

(** ** The server as a transition system *)

(** Everything that changes the task store or the worker registry.  The
    operations run on one event loop; each constructor is what runs between
    two suspension points. *)
Inductive op :=
  | OpLoopReady                                   (* api.loop = api_server.loop *)
  | OpRegister (w : world) (page_url : string)    (* first message of a socket *)
  | OpMessage (w : world) (cid : string) (msg : ws_msg)
  | OpClose (cid : string)                        (* the socket goes away *)
  | OpExecute (w : world)                         (* one turn of the loop *)
  | OpChat (w : world) (cfg : model_cfg) (prompt0 : list N)
           (images : list string) (api_instance : bool)
  | OpAddTask (w : world) (prompt0 : list N)
              (task_type0 aspect_ratio0 resolution0 : string)
              (reference_images0 : list string) (output_dir0 : string)
  | OpImportRow (w : world) (prompt0 : list N)
                (task_type0 aspect_ratio0 resolution0 : string)
                (reference_images0 : list string)
                (output_dir0 : option string) (row_number : string)
  | OpRetry (task_index : Z)
  | OpRetryAll
  | OpRunSingle (task_index : Z)
  | OpClear
  | OpStart
  | OpStop.

Definition step (o : op) (s : server) : server :=
  match o with
  | OpLoopReady => mkServer (tm s) (chunk_buffer s) true (trace s)
  | OpRegister w page_url => (ws_register w page_url s).2
  | OpMessage w cid msg => ws_message w cid msg s
  | OpClose cid => ws_close cid s
  | OpExecute w => execute_tasks_iter w s
  | OpChat w cfg p imgs api => (chat_completions w cfg p imgs api s).2
  | OpAddTask w p ty ar res refs od => (Api_add_task w p ty ar res refs od s).2
  | OpImportRow w p ty ar res refs od row =>
      with_tm (add_task w p ty ar res (Some refs) od (Some row) (tm s)).2 s
  | OpRetry i => (retry_task i s).2
  | OpRetryAll => (retry_all_failed s).2
  | OpRunSingle i => (run_single_task i s).2
  | OpClear => Api_clear_tasks s
  | OpStart => start_execution s
  | OpStop => stop_execution s
  end.

(** [run ops s]: the operations of [ops] applied in order. *)
Definition run (ops : list op) (s : server) : server :=
  foldl (λ s o, step o s) s ops.

Definition reachable (s : server) : Prop := ∃ ops, s = run ops server_init.

(** ** The pairing of workers and tasks *)

(** The registered workers are the entries of [clients]. *)
Definition registered (cid : string) (c : client) (m : TaskManager) : Prop :=
  (cid, c) ∈ clients m.





(** No registered worker holds the task id [tid]. *)
Definition unheld (tid : string) (m : TaskManager) : Prop :=
  ∀ c i, registered c i m → task_id i ≠ Some tid.

(** ** Auxiliary definitions of the statements *)

(** A prompt made of white space only. *)
Definition blank (s : list N) : Prop := Forall (λ c, py_isspace c = true) s.

(** The task [add_task] creates from a prompt that is not blank. *)
Definition new_task (w : world) (prompt0 : list N)
    (task_type0 aspect_ratio0 resolution0 : string)
    (reference_images0 : option (list string))
    (output_dir0 import_row_number0 : option string) (m : TaskManager) : task :=
  mkTask ("task_" +:+ pretty (length (tasks m)) +:+ "_" +:+ strftime_HMSf (w_now w))
    (strip prompt0) Queued ""
    (if contains "Video" task_type0 then ".mp4" else ".png")
    output_dir0 None task_type0 aspect_ratio0 resolution0
    (if String.eqb task_type0 "Text to Video" then []
     else default [] reference_images0)
    None None import_row_number0 None None None.

(** A world used in the examples. *)
Definition world0 : world :=
  mkWorld 0 0 "2026-01-01_00-00-00" "output" "/home/u" [] true true true
    (λ _, None) (λ _, None).

(** A store with one failed task and the cursor beyond it. *)
Definition failed_example : task :=
  mkTask "task_0_000000000000" [104; 105]%N Failed "boom" ".png" None
    (Some "c0_0") "Create Image" "16:9" "1K" [] (Some 5) (Some 9) None
    None None None.

Definition retry_example : server :=
  mkServer (mkTM [failed_example] 1 false [] 1) ∅ false [].

(** The state after one worker has registered. *)
Definition registered_example : server :=
  (ws_register world0 "A" server_init).2.

Definition cfg_image : model_cfg := mkCfg "Create Image" "16:9" "1K" 8.

(** One worker registered and one task dispatched to it by the HTTP path. *)
Definition assigned_example : server :=
  run [OpRegister world0 "A"; OpChat world0 cfg_image [104; 105]%N [] false]
    server_init.

(** Every entry of the key [cid] is not busy and has no task id. *)
Definition idle_at (cid : string) (cs : list (string * client)) : Prop :=
  ∀ c, (cid, c) ∈ cs → busy c = false ∧ task_id c = None.

(** The clients after the sweep has gone through the tasks [ts]. *)
Definition sweep_clients (now : Z) (ts : list task)
    (cs : list (string * client)) : list (string * client) :=
  foldl (λ cs t, if timed_out now t then release_of t cs else cs) cs ts.

Definition sweep_task (now : Z) (t : task) : task :=
  if timed_out now t then expire now t else t.

(** A world whose clock shows [t] seconds. *)
Definition at_time (t : Z) (w : world) : world :=
  mkWorld (t * MICRO) t (w_stamp w) (w_OUTPUT_DIR w) (w_cwd w) (w_files w)
    (w_mkdir_ok w) (w_save_ok w) (w_send_ok w) (w_thumbnail w) (w_compress w).

(** What a failed send leaves behind: the task at position [i] is queued,
    and the worker [cid] is registered, not busy, without task id, with the
    current time as cooldown stamp. *)
Definition requeued (w : world) (cid : string) (i : nat) (s' : server) : Prop :=
  (∃ t', tasks (tm s') !! i = Some t' ∧ t_status t' = Queued) ∧
  (∃ c, odict.get cid (clients (tm s')) = Some c ∧
        busy c = false ∧ task_id c = None ∧
        last_task_end c = Some (w_now w)).

(** A world in which the socket is closed. *)
Definition closed_socket (w : world) : world :=
  mkWorld (w_now w) (w_time w) (w_stamp w) (w_OUTPUT_DIR w) (w_cwd w)
    (w_files w) (w_mkdir_ok w) (w_save_ok w) false (w_thumbnail w)
    (w_compress w).

(** One worker registered, the loop ready, and one task added from the
    front end (which starts the loop). *)
Definition queued_example : server :=
  run [OpLoopReady; OpRegister world0 "A";
       OpAddTask world0 [104; 105]%N "Create Image" "16:9" "1K" [] "";
       OpStart] server_init.

(** The queued task of [queued_example]. *)
Definition queued_task_example : task :=
  mkTask "task_0_000000000000" [104; 105]%N Queued "" ".png" None None
    "Create Image" "16:9" "1K" [] None None None None None None.

(** One worker registered, the loop started, and one imported task with
    row number 7. *)
Definition import_example : server :=
  run [OpLoopReady; OpRegister world0 "A";
       OpImportRow world0 [104; 105]%N "Create Image" "16:9" "1K" [] None "7";
       OpStart] server_init.

Definition imported_task_example : task :=
  mkTask "task_0_000000000000" [104; 105]%N Queued "" ".png" None None
    "Create Image" "16:9" "1K" [] None None (Some "7") None None None.

(** A world in which the given files exist. *)
Definition with_files (fs : list string) (w : world) : world :=
  mkWorld (w_now w) (w_time w) (w_stamp w) (w_OUTPUT_DIR w) (w_cwd w)
    fs (w_mkdir_ok w) (w_save_ok w) (w_send_ok w) (w_thumbnail w)
    (w_compress w).




(** The ids [register_client] makes start with "c"; in particular they are
    not empty. *)
Definition client_key_ok (k : string) : Prop := String.prefix "c" k = true.

(** An entry that is not busy and has no task id. *)
Definition idle (c : client) : Prop := busy c = false ∧ task_id c = None.

(** [quiet cs cs']: every entry of [cs'] is an entry of [cs] or is idle
    (nothing was assigned on the way from [cs] to [cs']), and the keys stay
    distinct and well formed. *)
Definition quiet (cs cs' : list (string * client)) : Prop :=
  (∀ k c', (k, c') ∈ cs' → (k, c') ∈ cs ∨ idle c') ∧
  (NoDup cs.*1 → NoDup cs'.*1) ∧
  (Forall client_key_ok cs.*1 → Forall client_key_ok cs'.*1).

(** [assigns cid tid cs cs']: the entries of [cs'] are those of [cs], except
    that the entries of [cid] are busy with [tid]. *)
Definition assigns (cid tid : string) (cs cs' : list (string * client)) : Prop :=
  (∀ k c', (k, c') ∈ cs' →
     (k ≠ cid ∧ (k, c') ∈ cs) ∨
     (k = cid ∧ busy c' = true ∧ task_id c' = Some tid)) ∧
  (NoDup cs.*1 → NoDup cs'.*1) ∧
  (Forall client_key_ok cs.*1 → Forall client_key_ok cs'.*1).

(** The two-worker run: two workers, two tasks sent through the HTTP path;
    the first worker delivers its image; the second task times out, is
    retried and goes to the first worker; the second worker then reports a
    failure for it; it is retried again and goes to the second worker. *)
Definition two_holders_run : list op :=
  [OpLoopReady; OpRegister world0 "A"; OpRegister world0 "B";
   OpChat world0 cfg_image [104; 105]%N [] true;
   OpChat (at_time 1 world0) cfg_image [104; 105]%N [] true;
   OpMessage (at_time 5 world0) "c0_0"
     (MsgImageData (Some "task_0_000000000000") "AAAA");
   OpExecute (at_time 602 world0);
   OpRetry 1;
   OpExecute (at_time 603 world0);
   OpMessage (at_time 610 world0) "c1_0"
     (MsgResult (Some "task_1_000001000000") (Some "generation failed"));
   OpRetry 1;
   OpExecute (at_time 620 world0)].




(** The task ids an operation may hand to a worker: a turn of the loop
    dispatches a queued task of the store, the HTTP path the task it has
    just created. *)
Definition may_dispatch (o : op) (s : server) (tid : string) : Prop :=
  match o with
  | OpExecute w => ∃ t, t ∈ tasks (tm s) ∧ t_status t = Queued ∧ id t = tid
  | OpChat w cfg p imgs api =>
      tid = "task_" +:+ pretty (length (tasks (tm s))) +:+ "_" +:+
            strftime_HMSf (w_now w)
  | _ => False
  end.

(** The shape of every change of the registry: releases and removals, then
    at most one assignment, of a task the operation may dispatch, then
    releases again. *)
Definition registry_change (o : op) (s : server)
    (cs cs' : list (string * client)) : Prop :=
  ∃ cs1 cs2,
    quiet cs cs1 ∧
    (cs2 = cs1 ∨ ∃ cid tid, may_dispatch o s tid ∧ assigns cid tid cs1 cs2) ∧
    quiet cs2 cs'.

(** The ids [add_task] makes start with "task_"; in particular they are not
    empty. *)
Definition task_id_ok (t : task) : Prop := String.prefix "task_" (id t) = true.

(** The task of [assigned_example] and the worker that holds it. *)
Definition assigned_task_example : task :=
  mkTask "task_0_000000000000" [104; 105]%N Assigned "" ".png" None
    (Some "c0_0") "Create Image" "16:9" "1K" [] (Some 0) None None None None
    None.

Definition busy_client_example : client :=
  mkClient "A" true (Some "task_0_000000000000") 1 None.

(** ** api_server_fastapi.py: the rest of the HTTP surface *)

(** The string a status is in the task dict. *)
Definition status_str (st : status) : string :=
  match st with
  | Queued => "等待中"
  | Assigned => "处理中"
  | Succeeded => "已完成"
  | Failed => "失败"
  | TimedOut => "超时"
  | SaveFailed => "下载失败"
  end.

(** [status in ("已完成", "失败", "超时", "下载失败")] *)
Definition is_done (st : status) : bool :=
  match st with
  | Succeeded | Failed | TimedOut | SaveFailed => true
  | Queued | Assigned => false
  end.

(** [APIServerConfig.MODEL_MAPPING], in the order of the source. *)
Definition MODEL_MAPPING : list (string * model_cfg) :=
  [("gemini-2.5-flash-image-landscape", mkCfg "Create Image" "16:9" "1K" 8);
   ("gemini-2.5-flash-image-portrait", mkCfg "Create Image" "9:16" "1K" 8);
   ("gemini-3.0-pro-image-landscape", mkCfg "Create Image" "16:9" "1K" 8);
   ("gemini-3.0-pro-image-portrait", mkCfg "Create Image" "9:16" "1K" 8);
   ("imagen-4.0-generate-preview-landscape", mkCfg "Create Image" "16:9" "1K" 8);
   ("imagen-4.0-generate-preview-portrait", mkCfg "Create Image" "9:16" "1K" 8);
   ("veo_3_1_t2v_fast_portrait", mkCfg "Text to Video" "9:16" "720p" 0);
   ("veo_3_1_t2v_fast_landscape", mkCfg "Text to Video" "16:9" "720p" 0);
   ("veo_2_1_fast_d_15_t2v_portrait", mkCfg "Text to Video" "9:16" "720p" 0);
   ("veo_2_1_fast_d_15_t2v_landscape", mkCfg "Text to Video" "16:9" "720p" 0);
   ("veo_2_0_t2v_portrait", mkCfg "Text to Video" "9:16" "720p" 0);
   ("veo_2_0_t2v_landscape", mkCfg "Text to Video" "16:9" "720p" 0);
   ("veo_3_1_i2v_s_fast_fl_portrait", mkCfg "Frames to Video" "9:16" "720p" 2);
   ("veo_3_1_i2v_s_fast_fl_landscape", mkCfg "Frames to Video" "16:9" "720p" 2);
   ("veo_2_1_fast_d_15_i2v_portrait", mkCfg "Frames to Video" "9:16" "720p" 2);
   ("veo_2_1_fast_d_15_i2v_landscape", mkCfg "Frames to Video" "16:9" "720p" 2);
   ("veo_2_0_i2v_portrait", mkCfg "Frames to Video" "9:16" "720p" 2);
   ("veo_2_0_i2v_landscape", mkCfg "Frames to Video" "16:9" "720p" 2);
   ("veo_3_0_r2v_fast_portrait", mkCfg "Ingredients to Video" "9:16" "720p" 3);
   ("veo_3_0_r2v_fast_landscape", mkCfg "Ingredients to Video" "16:9" "720p" 3)].

(** A validated [ChatMessage]: the role is one of three literals, the
    content a string or a list of text and image items. *)
Inductive role := User | Assistant | System.

Global Instance role_eq_dec : EqDecision role.
Proof. solve_decision. Defined.

Inductive content_item :=
  | ItemText (text : list N)
  | ItemImage (url : string).

Inductive content :=
  | ContentStr (s : list N)
  | ContentList (items : list content_item).

Record chat_message := mkMessage {
  msg_role : role;
  msg_content : content
}.

(** [s] without the prefix [p], when it starts with it. *)
Fixpoint strip_prefix (p s : string) : option string :=
  match p with
  | EmptyString => Some s
  | String a p' =>
      match s with
      | EmptyString => None
      | String b s' => if Ascii.eqb a b then strip_prefix p' s' else None
      end
  end.

(** The longest prefix of [s] without the character [c], and the rest. *)
Fixpoint span_not (c : Ascii.ascii) (s : string) : string * string :=
  match s with
  | EmptyString => (EmptyString, EmptyString)
  | String a s' =>
      if Ascii.eqb a c then (EmptyString, s)
      else let r := span_not c s' in (String a r.1, r.2)
  end.

Definition semicolon : Ascii.ascii := Ascii.ascii_of_nat 59.
Definition newline : Ascii.ascii := Ascii.ascii_of_nat 10.

(** [re.match(r"data:image/[^;]+;base64,(.+)", url)]: group 1 of the match.
    [[^;]+] stops at the first semicolon, which must start [;base64,]; [.]
    is any character but a newline, and the group is greedy. *)
Definition match_data_url (url : string) : option string :=
  rest ← strip_prefix "data:image/" url;
  let '(mime, rest1) := span_not semicolon rest in
  if String.eqb mime "" then None else
  rest2 ← strip_prefix ";base64," rest1;
  let payload := (span_not newline rest2).1 in
  if String.eqb payload "" then None else Some payload.

(** The loop over the items of a list content: the prompt and the images
    so far, after one more item. *)
Definition extract_item (acc : list N * list string) (item : content_item)
  : list N * list string :=
  match item with
  | ItemText text => (if decide (text = []) then acc.1 else text, acc.2)
  | ItemImage url =>
      if String.prefix "data:" url
      then match match_data_url url with
           | Some b => (acc.1, acc.2 ++ [b])
           | None => acc
           end
      else acc
  end.

(** The loop over [reversed(messages)], on the reversed list. *)
Fixpoint extract_from (rev_messages : list chat_message)
  : list N * list string :=
  match rev_messages with
  | [] => ([], [])
  | msg :: rest =>
      match msg_role msg with
      | User =>
          match msg_content msg with
          | ContentStr s => (s, [])
          | ContentList items => foldl extract_item ([], []) items
          end
      | _ => extract_from rest
      end
  end.

(** [_extract_prompt_and_images] *)
Definition extract_prompt_and_images (messages : list chat_message)
  : list N * list string :=
  let r := extract_from (reverse messages) in (strip r.1, r.2).

(** [str.rstrip("/")] *)
Fixpoint rstrip_slash (s : string) : string :=
  match s with
  | EmptyString => EmptyString
  | String a s' =>
      match rstrip_slash s' with
      | EmptyString => if Ascii.eqb a (Ascii.ascii_of_nat 47) then EmptyString
                       else String a EmptyString
      | r => String a r
      end
  end.

(** [_make_file_url], for [str(request.base_url)] given. *)
Definition make_file_url (base_url tid : string) : string :=
  rstrip_slash base_url +:+ "/files/" +:+ tid.

(** [_get_task_by_id] *)
Definition get_task_by_id (tid : string) (m : TaskManager) : option task :=
  snd <$> find_task tid (tasks m).

(** [a or b] on strings. *)
Definition or_str (a b : string) : string :=
  if String.eqb a "" then b else a.

(** [_build_markdown_result] *)
Definition build_markdown_result (base_url : string) (t : task) : string :=
  if negb (bool_decide (t_status t = Succeeded)) then
    "生成失败: " +:+
      or_str (status_detail t) (or_str (status_str (t_status t)) "失败")
  else
    let file_url := make_file_url base_url (id t) in
    let ext := lower (or_str (file_ext t) ".png") in
    if String.eqb ext ".mp4" || String.eqb ext ".webm"
    then "<video src='" +:+ file_url +:+ "' controls></video>"
    else "![Generated Image](" +:+ file_url +:+ ")".

(** What a waiting request sees each time it looks: the clock and the task
    manager at that moment. *)
Record poll := mkPoll {
  p_clock : Z;             (* time.time(), microseconds *)
  p_created : Z;           (* int(time.time()), for a chunk built then *)
  p_tm : TaskManager
}.

(** The first task of the list with the id and a final status. *)
Fixpoint find_done (tid : string) (ts : list task) : option task :=
  match ts with
  | [] => None
  | t :: ts' =>
      if bool_decide (id t = tid) && is_done (t_status t) then Some t
      else find_done tid ts'
  end.

(** [_wait_for_task_done] over the polls it gets to make: [None] while it
    is still waiting after the last of them, [Some r] when it has returned
    [r]. *)
Fixpoint wait_for_task_done (start timeout_seconds : Z) (tid : string)
    (polls : list poll) : option (option task) :=
  match polls with
  | [] => None
  | p :: rest =>
      if p_clock p - start <? timeout_seconds * MICRO then
        match find_done tid (tasks (p_tm p)) with
        | Some t => Some (Some t)
        | None => wait_for_task_done start timeout_seconds tid rest
        end
      else Some None
  end.

(** The non-stream answer of [chat_completions]: the 504, or the content of
    the single choice. *)
Definition blocking_response (base_url : string) (done_task : option task)
  : option string :=
  build_markdown_result base_url <$> done_task.

(** A [ChatCompletionsChunk] with its one choice, and the end marker
    ["data: [DONE]"]. *)
Record chunk := mkChunk {
  chunk_id : string;
  chunk_created : Z;
  chunk_model : string;
  delta_role : option string;
  delta_content : option string;
  finish_reason : option string
}.

Inductive sse := Chunk (c : chunk) | Done.

(** [task.get("status_detail", "") or task.get("status", "")] *)
Definition current_progress (t : task) : string :=
  or_str (status_detail t) (status_str (t_status t)).

(** What is the same in all chunks of one request. *)
Record request := mkRequest {
  req_base_url : string;       (* str(request.base_url) *)
  req_model : string;
  req_task_id : string;
  req_start : Z;               (* start_time = time.time() *)
  req_timeout : Z              (* task_timeout_seconds *)
}.

Definition mk_chunk (r : request) (created : Z) (role content finish : option string)
  : sse :=
  Chunk (mkChunk ("chatcmpl-" +:+ req_task_id r) created (req_model r)
           role content finish).

Definition stream_timeout (r : request) (created : Z) : list sse :=
  [mk_chunk r created None (Some "任务超时") (Some "stop"); Done].

Definition stream_final (r : request) (created : Z) (t : task) : list sse :=
  [mk_chunk r created None (Some (build_markdown_result (req_base_url r) t))
     (Some "stop"); Done].

Definition stream_progress (r : request) (created : Z) (cur : string) : sse :=
  mk_chunk r created None (Some ("[" +:+ cur +:+ "]" +:+ String newline ""))
    None.

(** The [while] loop of the generator [gen] over the polls it gets to make,
    with [last_progress]: what it yields, and whether it has finished. *)
Fixpoint stream_loop (r : request) (last_progress : string)
    (polls : list poll) : list sse * bool :=
  match polls with
  | [] => ([], false)
  | p :: rest =>
      if p_clock p - req_start r <? req_timeout r * MICRO then
        match get_task_by_id (req_task_id r) (p_tm p) with
        | None => (stream_timeout r (p_created p), true)
        | Some t =>
            if is_done (t_status t) then (stream_final r (p_created p) t, true)
            else
              let cur := current_progress t in
              if negb (String.eqb cur "") && negb (String.eqb cur last_progress)
              then
                let out := stream_loop r cur rest in
                (stream_progress r (p_created p) cur :: out.1, out.2)
              else stream_loop r last_progress rest
        end
      else (stream_timeout r (p_created p), true)
  end.

(** The generator [gen]: the role chunk, then the loop. *)
Definition stream (r : request) (created : Z) (polls : list poll)
  : list sse * bool :=
  let out := stream_loop r "" polls in
  (mk_chunk r created (Some "assistant") (Some "") None :: out.1, out.2).

(** [get_file]: the path served, [None] for the 404. *)
Definition get_file (w : world) (tid : string) (m : TaskManager)
  : option string :=
  t ← get_task_by_id tid m;
  let p := default "" (saved_path t) in
  if String.eqb p "" || negb (path_exists w p) then None else Some p.

(** [health]: total, busy, available. *)
Definition health (m : TaskManager) : Z * Z * Z :=
  let c := get_client_count m in
  (Z.of_nat c.1, Z.of_nat c.2, Z.of_nat c.1 - Z.of_nat c.2).

(** [chat_completions] from the model name on. *)
Definition chat_completions_request (w : world) (model : string)
    (messages : list chat_message) (api_instance : bool) (s : server)
  : (http_error + string) * server :=
  let model := if String.eqb model "" then "gemini-2.5-flash-image-landscape"
               else model in
  match odict.get model MODEL_MAPPING with
  | None => (inl E400, s)
  | Some cfg =>
      let r := extract_prompt_and_images messages in
      chat_completions w cfg r.1 r.2 api_instance s
  end.

(** ** Auxiliary definitions of the further statements *)

(** The id [add_task] gives the task created at length [k] and clock [now]. *)
Definition task_id_of (k : nat) (now : Z) : string :=
  "task_" +:+ pretty k +:+ "_" +:+ strftime_HMSf now.

(** The ids of a store: pairwise distinct, each made by [add_task] at a
    length below the present one. *)
Definition ids_wf (ids : list string) : Prop :=
  NoDup ids ∧
  ∀ i, i ∈ ids → ∃ k now, (k < length ids)%nat ∧ i = task_id_of k now.

(** How an operation can change the list of task ids: not at all, by one
    new id at the end, by a reordering, or by emptying it. *)
Definition ids_change (ids ids' : list string) : Prop :=
  ids' = ids ∨ (∃ now, ids' = ids ++ [task_id_of (length ids) now]) ∨
  ids' ≡ₚ ids ∨ ids' = [].

(** A worker that [get_idle_client] passes over at clock [now]: busy, or
    less than the cooldown after the end of its last task. *)
Definition ineligible (now : Z) (c : client) : Prop :=
  busy c = true ∨
  ∃ e, last_task_end c = Some e ∧ now - e < CLIENT_COOLDOWN_SECONDS * MICRO.

(** What [mark_client_idle] does to the registry: the entry of [cid], if
    there is one, is not busy, has no task id and has the current time as
    cooldown stamp; nothing else changes. *)
Definition idled (w : world) (cid : string) (cs cs' : list (string * client))
  : Prop :=
  (∀ c, odict.get cid cs = Some c →
        odict.get cid cs' = Some (set_idle (w_now w) c)) ∧
  (odict.get cid cs = None → cs' = cs) ∧
  (∀ cid', cid' ≠ cid → odict.get cid' cs' = odict.get cid' cs) ∧
  cs'.*1 = cs.*1.

(** The page url and the page number of every worker, in registry order. *)
Definition pages (cs : list (string * client)) : list (string * Z) :=
  (λ e, (url e.2, page_number e.2)) <$> cs.

(** [pages_le m' m]: from [m] to [m'] workers were removed at most, and no
    page number was given out. *)
Definition pages_le (m' m : TaskManager) : Prop :=
  pages (clients m') `sublist_of` pages (clients m) ∧
  next_page_number m' = next_page_number m.

(** No two workers have the same page url or the same page number, and
    every page number was given out by [register_client]. *)
Definition pages_wf (m : TaskManager) : Prop :=
  NoDup (pages (clients m)).*1 ∧ NoDup (pages (clients m)).*2 ∧
  Forall (λ p, 1 ≤ p.2 < next_page_number m) (pages (clients m)) ∧
  1 ≤ next_page_number m.

(** Two pages register within the same second, then the first one registers
    again: its new id is the id of the second. *)
Definition collision_example : server :=
  run [OpRegister world0 "A"; OpRegister world0 "B"] server_init.

(** What one item of a list content contributes: an image payload, a text. *)
Definition item_image (it : content_item) : option string :=
  match it with
  | ItemImage url => match_data_url url
  | ItemText _ => None
  end.

Definition item_text (it : content_item) : option (list N) :=
  match it with
  | ItemText text => if decide (text = []) then None else Some text
  | ItemImage _ => None
  end.

(** The character [c] occurs in [s]. *)
Definition occurs (c : Ascii.ascii) (s : string) : Prop :=
  c ∈ String.list_ascii_of_string s.

(** No two neighbours of the list are equal. *)
Definition adjacent_distinct (l : list string) : Prop :=
  ∀ i a b, l !! i = Some a → l !! S i = Some b → a ≠ b.

(** The fields a status goes with: an assigned task has a start time, a
    task with a final status an end time, a succeeded task a saved path and
    an output directory path. *)
Definition task_fields_ok (t : task) : Prop :=
  (t_status t = Assigned → is_Some (start_time t)) ∧
  (is_done (t_status t) = true → is_Some (end_time t)) ∧
  (t_status t = Succeeded →
   is_Some (saved_path t) ∧ is_Some (output_dir_path t)).

(** A streaming request for the task of [retry_example], and a look at it. *)
Definition request_example : request :=
  mkRequest "http://h/" "m" "task_0_000000000000" 0 600.

Definition poll_example : poll := mkPoll 1 0 (tm retry_example).

(** ** The definitions on small inputs *)

Example strftime_HMSf_example :
  strftime_HMSf (3723 * MICRO + 42) = "010203000042".
Proof. reflexivity. Qed.

Example detail_timeout_example :
  detail_timeout_of TASK_TIMEOUT_SECONDS = "任务超时（超过10分钟）".
Proof. reflexivity. Qed.

Example strip_example : strip [32; 104; 32; 105; 10]%N = [104; 32; 105]%N.
Proof. reflexivity. Qed.

Example strip_ideographic_space : strip [12288; 9]%N = [].
Proof. reflexivity. Qed.

Example contains_example :
  contains "Video" "Text to Video" = true ∧
  contains "Video" "Create Image" = false.
Proof. split; reflexivity. Qed.

Example lower_example : lower ".PNG" = ".png".
Proof. reflexivity. Qed.

Example register_client_ids :
  (clients (tm (run [OpRegister world0 "A"; OpRegister world0 "B"]
                  server_init))).*1 = ["c0_0"; "c1_0"].
Proof. reflexivity. Qed.

(** The same page registering again evicts its previous entry. *)
Example register_client_same_page :
  clients (tm (run [OpRegister world0 "A"; OpRegister world0 "B";
                    OpRegister (at_time 7 world0) "A"] server_init))
  = [("c1_0", mkClient "B" false None 2 None);
     ("c1_7", mkClient "A" false None 3 None)].
Proof. reflexivity. Qed.

Example get_next_task_example :
  get_next_task (mkTM [assigned_task_example; queued_task_example] 0 true [] 1)
  = (Some queued_task_example,
     mkTM [assigned_task_example; queued_task_example] 1 true [] 1).
Proof. reflexivity. Qed.

(** The file name of a result without row number when the time-stamped
    name and its first variant are taken. *)
Example result_filename_example :
  result_filename
    (with_files ["output/2026-01-01_00-00-00.png";
                 "output/2026-01-01_00-00-00_1.png"] world0)
    "output" queued_task_example
  = Some "2026-01-01_00-00-00_2.png".
Proof. reflexivity. Qed.

Example join_chunks_example :
  join_chunks (<[2 := "CC"]> (<[0 := "AA"]> (<[1 := "BB"]> ∅))) 3
    = Some "AABBCC" ∧
  join_chunks (<[2 := "CC"]> (<[0 := "AA"]> ∅)) 3 = None.
Proof. split; reflexivity. Qed.

(** The two-worker run ends with both workers holding the second task. *)
Example two_holders_example :
  (λ e, (e.1, busy e.2, task_id e.2))
    <$> clients (tm (run two_holders_run server_init))
  = [("c0_0", true, Some "task_1_000001000000");
     ("c1_0", true, Some "task_1_000001000000")] ∧
  (λ t, (id t, t_status t, client_id t))
    <$> tasks (tm (run two_holders_run server_init))
  = [("task_0_000000000000", Succeeded, Some "c0_0");
     ("task_1_000001000000", Assigned, Some "c1_0")].
Proof. split; vm_compute; reflexivity. Qed.

(** ** Stripping *)

Lemma lstrip_nil (s : list N) : lstrip s = [] ↔ blank s.
Proof.
  unfold blank. induction s as [|c s IH]; simpl.
  - split; [constructor | done].
  - destruct (py_isspace c) eqn:E.
    + rewrite IH. split; [by constructor | by inversion 1].
    + split; [done | inversion 1; congruence].
Qed.

Lemma lstrip_blank_iff (s : list N) : blank (lstrip s) ↔ blank s.
Proof.
  unfold blank. induction s as [|c s IH]; simpl; [done|].
  destruct (py_isspace c) eqn:E.
  - rewrite IH. split; [by constructor | by inversion 1].
  - done.
Qed.

Lemma rstrip_nil (s : list N) : rstrip s = [] ↔ blank s.
Proof.
  unfold rstrip. split.
  - intros H. apply (f_equal reverse) in H.
    rewrite reverse_involutive, reverse_nil in H.
    apply lstrip_nil in H. unfold blank in *.
    apply Forall_reverse in H. by rewrite reverse_involutive in H.
  - intros H. apply Forall_reverse in H. apply lstrip_nil in H. by rewrite H.
Qed.

Lemma strip_nil (s : list N) : strip s = [] ↔ blank s.
Proof. unfold strip. by rewrite rstrip_nil, lstrip_blank_iff. Qed.

Lemma add_task_blank w p ty ar res refs od row m :
  blank p → add_task w p ty ar res refs od row m = (None, m).
Proof. intros H%strip_nil. unfold add_task. by rewrite decide_True. Qed.

Lemma add_task_not_blank w p ty ar res refs od row m :
  ¬ blank p →
  add_task w p ty ar res refs od row m =
    (Some (new_task w p ty ar res refs od row m),
     with_tasks (tasks m ++ [new_task w p ty ar res refs od row m]) m).
Proof.
  intros H. unfold add_task. rewrite decide_False by by rewrite strip_nil.
  unfold new_task. by destruct (String.eqb ty "Text to Video").
Qed.

(** C7.  [add_task] returns [None] and appends nothing for every prompt made
    of white space only (the empty prompt included); for every other prompt
    it returns a task that it has appended at the end of the task list, whose
    status is queued, and whose reference-image list is empty when the kind
    is "Text to Video", whatever list was passed. *)
Theorem add_task_enqueue :
  ∀ w p ty ar res refs od row m,
    (blank p → add_task w p ty ar res refs od row m = (None, m)) ∧
    (¬ blank p → ∃ t,
        add_task w p ty ar res refs od row m
          = (Some t, with_tasks (tasks m ++ [t]) m) ∧
        t_status t = Queued ∧
        (ty = "Text to Video" → reference_images t = [])).
Proof.
  intros. split; [apply add_task_blank|].
  intros H. eexists. split; [by apply add_task_not_blank|].
  split; [done|]. by intros ->.
Qed.

Lemma add_task_enqueue_witness :
  add_task world0 [32; 12288; 10]%N "Text to Video" "16:9" "720p"
      (Some ["iVBORabc"]) None None TaskManager_init
    = (None, TaskManager_init) ∧
  ∃ t, add_task world0 [32; 97; 12288]%N "Text to Video" "16:9" "720p"
         (Some ["iVBORabc"]) None None TaskManager_init
         = (Some t, with_tasks (tasks TaskManager_init ++ [t]) TaskManager_init)
       ∧ t_status t = Queued
       ∧ ("Text to Video" = "Text to Video" → reference_images t = []).
Proof.
  split.
  - apply (add_task_enqueue world0 [32; 12288; 10]%N).
    unfold blank. repeat constructor.
  - apply (add_task_enqueue world0 [32; 97; 12288]%N).
    unfold blank. intros Hb. apply Forall_cons in Hb as [_ Hb].
    apply Forall_cons in Hb as [Hb _]. vm_compute in Hb. discriminate.
Defined.

(** ** Starting the loop touches only the running flag *)

Lemma start_execution_tm (s : server) :
  tasks (tm (start_execution s)) = tasks (tm s) ∧
  current_index (tm (start_execution s)) = current_index (tm s) ∧
  clients (tm (start_execution s)) = clients (tm s) ∧
  next_page_number (tm (start_execution s)) = next_page_number (tm s) ∧
  chunk_buffer (start_execution s) = chunk_buffer s ∧
  trace (start_execution s) = trace s.
Proof.
  unfold start_execution. destruct (negb (loop_ready s)); [done|].
  destruct ((get_client_count (tm s)).1 =? 0)%nat; [done|].
  by destruct (bool_decide (tasks (tm s) = [])).
Qed.

Lemma start_if_stopped_tm (s : server) :
  tasks (tm (start_if_stopped s)) = tasks (tm s) ∧
  current_index (tm (start_if_stopped s)) = current_index (tm s) ∧
  clients (tm (start_if_stopped s)) = clients (tm s) ∧
  next_page_number (tm (start_if_stopped s)) = next_page_number (tm s) ∧
  chunk_buffer (start_if_stopped s) = chunk_buffer s ∧
  trace (start_if_stopped s) = trace s.
Proof.
  unfold start_if_stopped. destruct (is_running (tm s)); [done|].
  apply start_execution_tm.
Qed.

Lemma retryable_iff (st : status) :
  retryable st = true ↔ st = Failed ∨ st = TimedOut ∨ st = SaveFailed.
Proof.
  destruct st; simpl; split; intros H; try done;
    try (destruct H as [H|[H|H]]; done); auto.
Qed.

Lemma retry_task_in_range (i : Z) (s : server) (t : task) :
  0 ≤ i → tasks (tm s) !! Z.to_nat i = Some t →
  retry_task i s =
    if negb (retryable (t_status t)) then (inl NotFailed, s)
    else (inr tt,
          start_if_stopped
            (with_tm (with_index
                        (if (Z.to_nat i <? current_index (tm s))%nat
                         then Z.to_nat i else current_index (tm s))
                        (with_tasks (<[Z.to_nat i := reset_task t]> (tasks (tm s)))
                           (tm s))) s)).
Proof.
  intros Hi Ht. unfold retry_task.
  apply lookup_lt_Some in Ht as Hlt.
  replace (i <? 0) with false by lia.
  replace (Z.of_nat (length (tasks (tm s))) <=? i) with false by lia.
  simpl. by rewrite Ht.
Qed.

Lemma retry_task_out_of_range (i : Z) (s : server) :
  i < 0 ∨ Z.of_nat (length (tasks (tm s))) ≤ i →
  retry_task i s = (inl BadIndex, s).
Proof.
  intros H. unfold retry_task.
  destruct (i <? 0) eqn:E1; [done|].
  destruct (Z.of_nat (length (tasks (tm s))) <=? i) eqn:E2; [done|]. lia.
Qed.

(** C4.  [retry_task] succeeds exactly when the index is in range and the
    task there is failed, timed out or save-failed.  On an index out of range
    and on a queued, assigned or succeeded task it returns an error and
    leaves the whole state as it was.  On success the task at the index is
    queued with its detail, start time, end time and client id cleared and
    its other fields kept, the other tasks are untouched, and the cursor is
    the task's position when it was beyond it and is unchanged otherwise. *)
Theorem retry_task_spec :
  ∀ (i : Z) (s : server),
    ((retry_task i s).1 = inr tt ↔
       ∃ t, 0 ≤ i ∧ tasks (tm s) !! Z.to_nat i = Some t ∧
            (t_status t = Failed ∨ t_status t = TimedOut ∨
             t_status t = SaveFailed)) ∧
    ((i < 0 ∨ Z.of_nat (length (tasks (tm s))) ≤ i) →
       retry_task i s = (inl BadIndex, s)) ∧
    (∀ t, 0 ≤ i → tasks (tm s) !! Z.to_nat i = Some t →
       (t_status t = Queued ∨ t_status t = Assigned ∨ t_status t = Succeeded) →
       retry_task i s = (inl NotFailed, s)) ∧
    (∀ t, 0 ≤ i → tasks (tm s) !! Z.to_nat i = Some t →
       (t_status t = Failed ∨ t_status t = TimedOut ∨ t_status t = SaveFailed) →
       ∃ t', tasks (tm (retry_task i s).2)
               = <[Z.to_nat i := t']> (tasks (tm s)) ∧
             t_status t' = Queued ∧ status_detail t' = "" ∧
             start_time t' = None ∧ end_time t' = None ∧
             client_id t' = None ∧
             t' = reset_task t ∧
             set_status (t_status t) (set_status_detail (status_detail t)
               (set_start_time (start_time t) (set_end_time (end_time t)
                  (set_client_id (client_id t) t')))) = t ∧
             current_index (tm (retry_task i s).2)
               = (if (Z.to_nat i <? current_index (tm s))%nat
                  then Z.to_nat i else current_index (tm s)) ∧
             clients (tm (retry_task i s).2) = clients (tm s)).
Proof.
  intros i s. split; [|split; [|split]].
  - split.
    + intros H.
      destruct (decide (i < 0 ∨ Z.of_nat (length (tasks (tm s))) ≤ i)) as [Ho|Hin].
      { by rewrite retry_task_out_of_range in H. }
      assert (0 ≤ i) as Hi by lia.
      destruct (tasks (tm s) !! Z.to_nat i) as [t|] eqn:Ht.
      2:{ apply lookup_ge_None in Ht. lia. }
      rewrite (retry_task_in_range _ _ t) in H by done.
      exists t. split_and!; [done..|]. apply retryable_iff.
      by destruct (retryable (t_status t)).
    + intros (t & Hi & Ht & Hst). apply retryable_iff in Hst.
      rewrite (retry_task_in_range _ _ t) by done. by rewrite Hst.
  - apply retry_task_out_of_range.
  - intros t Hi Ht Hst. rewrite (retry_task_in_range _ _ t) by done.
    by destruct Hst as [-> | [-> | ->]].
  - intros t Hi Ht Hst. apply retryable_iff in Hst.
    rewrite (retry_task_in_range _ _ t) by done. rewrite Hst. simpl.
    exists (reset_task t).
    destruct (start_if_stopped_tm
      (with_tm (with_index
                  (if (Z.to_nat i <? current_index (tm s))%nat
                   then Z.to_nat i else current_index (tm s))
                  (with_tasks (<[Z.to_nat i := reset_task t]> (tasks (tm s)))
                     (tm s))) s)) as (-> & -> & -> & _).
    split_and!; try done. by destruct t.
Qed.

Lemma retry_task_spec_witness :
  (retry_task 0 retry_example).1 = inr tt ∧
  retry_task 1 retry_example = (inl BadIndex, retry_example) ∧
  tasks (tm (retry_task 0 retry_example).2) = [reset_task failed_example] ∧
  current_index (tm (retry_task 0 retry_example).2) = 0%nat.
Proof.
  destruct (retry_task_spec 0 retry_example) as (H1 & _ & _ & H4).
  destruct (retry_task_spec 1 retry_example) as (_ & H2 & _).
  split_and!.
  - apply H1. exists failed_example. split_and!; [lia | reflexivity | by left].
  - apply H2. right. simpl. lia.
  - destruct (H4 failed_example) as (t' & E & _ & _ & _ & _ & _ & -> & _);
      [lia | reflexivity | by left |]. exact E.
  - destruct (H4 failed_example) as (t' & _ & _ & _ & _ & _ & _ & _ & _ & E & _);
      [lia | reflexivity | by left |]. exact E.
Defined.

(** ** Lemmas on ordered dictionaries *)

Section odict_lemmas.
Context {V : Type}.
Implicit Types (k : string) (v : V) (d : list (string * V)).

Lemma odict_get_elem_of k v d : odict.get k d = Some v → (k, v) ∈ d.
Proof.
  induction d as [|[k0 v0] d IH]; simpl; [done|].
  destruct (decide (k0 = k)) as [->|].
  - intros [= ->]. apply list_elem_of_here.
  - intros H. apply list_elem_of_further. auto.
Qed.

Lemma odict_elem_of_get k v d : (k, v) ∈ d → is_Some (odict.get k d).
Proof.
  induction d as [|[k0 v0] d IH]; simpl.
  - by intros ?%elem_of_nil.
  - intros [[= <- <-]|H]%elem_of_cons.
    + by rewrite decide_True.
    + destruct (decide (k0 = k)); [by eexists | auto].
Qed.

Lemma odict_mem_true k d : odict.mem k d = true ↔ ∃ v, (k, v) ∈ d.
Proof.
  unfold odict.mem. rewrite bool_decide_eq_true. split.
  - intros [v H]. exists v. by apply odict_get_elem_of.
  - intros [v H]. by eapply odict_elem_of_get.
Qed.

Lemma odict_elem_of_alter (f : V → V) k k' v d :
  (k', v) ∈ odict.alter f k d ↔
  ∃ v0, (k', v0) ∈ d ∧ v = if decide (k' = k) then f v0 else v0.
Proof.
  induction d as [|[k0 v0] d IH]; simpl.
  - split; [by intros ?%elem_of_nil | by intros (? & ?%elem_of_nil & _)].
  - destruct (decide (k0 = k)) as [->|Hne];
      rewrite elem_of_cons, IH; split.
    + intros [[= -> ->]|(x & ? & ?)].
      * exists v0. rewrite decide_True by done. split; [left|]; done.
      * exists x. split; [by right | done].
    + intros (x & [[= -> ->]|?]%elem_of_cons & ->).
      * left. by rewrite decide_True.
      * right. by exists x.
    + intros [[= -> ->]|(x & ? & ?)].
      * exists v0. rewrite decide_False by done. split; [left|]; done.
      * exists x. split; [by right | done].
    + intros (x & [[= -> ->]|?]%elem_of_cons & ->).
      * left. by rewrite decide_False.
      * right. by exists x.
Qed.

Lemma odict_elem_of_del k k' v d :
  (k', v) ∈ odict.del k d ↔ k' ≠ k ∧ (k', v) ∈ d.
Proof.
  induction d as [|[k0 v0] d IH]; simpl.
  - split; [by intros ?%elem_of_nil | by intros [_ ?%elem_of_nil]].
  - destruct (decide (k0 = k)) as [->|Hne].
    + rewrite IH, elem_of_cons. split; [intros [? ?]; auto|].
      intros [? [[= ? ?]|?]]; [congruence | done].
    + rewrite !elem_of_cons, IH. split.
      * intros [[= -> ->]|[? ?]]; auto.
      * intros [? [?|?]]; auto.
Qed.

Lemma odict_elem_of_set k x k' v d :
  (k', v) ∈ odict.set k x d ↔ (k' = k ∧ v = x) ∨ (k' ≠ k ∧ (k', v) ∈ d).
Proof.
  unfold odict.set. destruct (odict.mem k d) eqn:E.
  - apply odict_mem_true in E as [v1 Hv1].
    rewrite odict_elem_of_alter. split.
    + intros (v0 & H0 & ->). destruct (decide (k' = k)); auto.
    + intros [[-> ->]|[Hne H]].
      * exists v1. by rewrite decide_True.
      * exists v. by rewrite decide_False.
  - assert (¬ ∃ v, (k, v) ∈ d) as Hno.
    { rewrite <- odict_mem_true. by rewrite E. }
    rewrite elem_of_app, list_elem_of_singleton. split.
    + intros [H|[= -> ->]]; [|auto]. right. split; [|done].
      intros ->. apply Hno. by exists v.
    + intros [[-> ->]|[_ H]]; auto.
Qed.

Lemma odict_get_alter (f : V → V) k k' d :
  odict.get k' (odict.alter f k d) =
    if decide (k' = k) then f <$> odict.get k' d else odict.get k' d.
Proof.
  induction d as [|[k0 v0] d IH]; simpl; [by destruct (decide (k' = k))|].
  destruct (decide (k0 = k)) as [->|Hne]; simpl.
  - destruct (decide (k = k')) as [->|]; [by rewrite decide_True|].
    rewrite IH. by destruct (decide (k' = k)).
  - destruct (decide (k0 = k')) as [->|]; [by rewrite decide_False|].
    by rewrite IH.
Qed.

Lemma odict_get_del k k' d :
  odict.get k' (odict.del k d) =
    if decide (k' = k) then None else odict.get k' d.
Proof.
  induction d as [|[k0 v0] d IH]; simpl; [by destruct (decide (k' = k))|].
  destruct (decide (k0 = k)) as [->|Hne]; simpl.
  - rewrite IH. destruct (decide (k' = k)) as [->|]; [done|].
    by rewrite decide_False.
  - destruct (decide (k0 = k')) as [->|]; [by rewrite decide_False|].
    by rewrite IH.
Qed.

Lemma odict_alter_keys (f : V → V) k d : (odict.alter f k d).*1 = d.*1.
Proof.
  induction d as [|[k0 v0] d IH]; simpl; [done|].
  destruct (decide (k0 = k)); simpl; by f_equal.
Qed.
End odict_lemmas.

(** ** Prefixes *)

Lemma prefix_app (a b : string) : String.prefix a (a +:+ b) = true.
Proof.
  induction a as [|x a IH]; [by destruct b|].
  change (String.prefix (String x a) (String x a +:+ b))
    with (if Ascii.ascii_dec x x then String.prefix a (a +:+ b) else false).
  by destruct (Ascii.ascii_dec x x).
Qed.

(** ** Marking a worker idle *)

Lemma mark_client_idle_registered w cid m c :
  odict.get cid (clients m) = Some c →
  mark_client_idle w cid m
    = with_clients (odict.alter (set_idle (w_now w)) cid (clients m)) m.
Proof.
  intros H. unfold mark_client_idle, odict.mem.
  by rewrite bool_decide_eq_true_2 by by rewrite H.
Qed.

Lemma mark_client_idle_frame w cid m :
  tasks (mark_client_idle w cid m) = tasks m ∧
  current_index (mark_client_idle w cid m) = current_index m ∧
  is_running (mark_client_idle w cid m) = is_running m ∧
  next_page_number (mark_client_idle w cid m) = next_page_number m.
Proof. unfold mark_client_idle. by destruct (odict.mem cid (clients m)). Qed.

Lemma mark_client_idle_get w cid m c :
  odict.get cid (clients m) = Some c →
  odict.get cid (clients (mark_client_idle w cid m))
    = Some (mkClient (url c) false None (page_number c) (Some (w_now w))) ∧
  ∀ cid', cid' ≠ cid →
    odict.get cid' (clients (mark_client_idle w cid m))
      = odict.get cid' (clients m).
Proof.
  intros H. rewrite (mark_client_idle_registered _ _ _ c) by done. simpl.
  split.
  - rewrite odict_get_alter, decide_True by done. by rewrite H.
  - intros cid' Hne. by rewrite odict_get_alter, decide_False.
Qed.

Lemma find_task_None tid (ts : list task) :
  find_task tid ts = None ↔ ∀ t, t ∈ ts → id t ≠ tid.
Proof.
  induction ts as [|t ts IH]; simpl.
  - split; [by intros _ ? ?%elem_of_nil | done].
  - destruct (decide (id t = tid)) as [E|E].
    + split; [done|]. intros H. destruct (H t); [left | done].
    + rewrite fmap_None, IH. split.
      * intros H t' [->|?]%elem_of_cons; auto.
      * intros H t' ?. apply H. by right.
Qed.

(** C9.  A result message whose error is absent or empty, sent on the
    connection of a registered worker, changes no task (so no status, detail
    or end time), nor the cursor, the running flag, the chunk buffer or the
    trace; in the registry only the sender's entry changes: it is not busy,
    has no task id, and its cooldown stamp is the current time. *)
Theorem result_without_error_frame :
  ∀ w cid tid error s c,
    error = None ∨ error = Some "" →
    odict.get cid (clients (tm s)) = Some c →
    ws_handle w cid (MsgResult tid error) s
      = Returned (ws_message w cid (MsgResult tid error) s) ∧
    tasks (tm (ws_message w cid (MsgResult tid error) s)) = tasks (tm s) ∧
    current_index (tm (ws_message w cid (MsgResult tid error) s))
      = current_index (tm s) ∧
    is_running (tm (ws_message w cid (MsgResult tid error) s))
      = is_running (tm s) ∧
    next_page_number (tm (ws_message w cid (MsgResult tid error) s))
      = next_page_number (tm s) ∧
    chunk_buffer (ws_message w cid (MsgResult tid error) s) = chunk_buffer s ∧
    loop_ready (ws_message w cid (MsgResult tid error) s) = loop_ready s ∧
    trace (ws_message w cid (MsgResult tid error) s) = trace s ∧
    odict.get cid (clients (tm (ws_message w cid (MsgResult tid error) s)))
      = Some (mkClient (url c) false None (page_number c) (Some (w_now w))) ∧
    (∀ cid', cid' ≠ cid →
       odict.get cid' (clients (tm (ws_message w cid (MsgResult tid error) s)))
         = odict.get cid' (clients (tm s))) ∧
    (fst <$> clients (tm (ws_message w cid (MsgResult tid error) s)))
      = (fst <$> clients (tm s)).
Proof.
  intros w cid tid error s c Herr Hc.
  assert (truthy error = false) as Ht by (by destruct Herr as [-> | ->]).
  unfold ws_message, ws_handle. rewrite Ht. simpl.
  destruct (mark_client_idle_frame w cid (tm s)) as (E1 & E2 & E3 & E4).
  destruct (mark_client_idle_get w cid (tm s) c Hc) as (G1 & G2).
  split_and!; try done.
  rewrite (mark_client_idle_registered _ _ _ c) by done. simpl.
  apply odict_alter_keys.
Qed.

Lemma result_without_error_frame_witness :
  let s := registered_example in
  tasks (tm (ws_message world0 "c0_0" (MsgResult (Some "t") None) s))
    = tasks (tm s) ∧
  odict.get "c0_0"
    (clients (tm (ws_message world0 "c0_0" (MsgResult (Some "t") None) s)))
    = Some (mkClient "A" false None 1 (Some 0)).
Proof.
  intros s.
  destruct (result_without_error_frame world0 "c0_0" (Some "t") None s
              (mkClient "A" false None 1 None))
    as (_ & H1 & _ & _ & _ & _ & _ & _ & H2 & _);
    [by left | reflexivity |].
  split; [exact H1 | exact H2].
Defined.

(** C10.  A complete payload for a task id that no task of the store has:
    [_handle_image_result] returns, every task is as it was, nothing is
    added to the trace (no file is saved), and the sender's entry in the
    registry is idle: not busy, no task id, cooldown stamp set to the
    current time; the other entries are as they were.  This is what an
    [image_data] message with that task id does, and what the chunk that
    completes a payload does after its buffer is deleted. *)
Theorem image_result_unknown_task :
  ∀ w cid tid data s c,
    (∀ t, t ∈ tasks (tm s) → id t ≠ tid) →
    odict.get cid (clients (tm s)) = Some c →
    ∃ s',
      handle_image_result w cid tid data s = Returned s' ∧
      tasks (tm s') = tasks (tm s) ∧
      trace s' = trace s ∧
      chunk_buffer s' = chunk_buffer s ∧
      current_index (tm s') = current_index (tm s) ∧
      odict.get cid (clients (tm s'))
        = Some (mkClient (url c) false None (page_number c) (Some (w_now w))) ∧
      (∀ cid', cid' ≠ cid →
         odict.get cid' (clients (tm s')) = odict.get cid' (clients (tm s))) ∧
      (tid ≠ "" →
         ws_message w cid (MsgImageData (Some tid) data) s = s') ∧
      (∀ b chunk_index total_chunks piece,
         tid ≠ "" →
         0 < total_chunks →
         Z.of_nat (size (default ∅ (buffer_chunk tid chunk_index piece b !! tid)))
           = total_chunks →
         join_chunks (default ∅ (buffer_chunk tid chunk_index piece b !! tid))
           total_chunks = Some data →
         ws_message w cid
           (MsgImageChunk (Some tid) chunk_index total_chunks piece)
           (with_chunk_buffer b s)
         = with_chunk_buffer
             (delete tid (buffer_chunk tid chunk_index piece b)) s').
Proof.
  intros w cid tid data s c Hno Hc.
  apply find_task_None in Hno.
  destruct (mark_client_idle_frame w cid (tm s)) as (E1 & E2 & E3 & E4).
  destruct (mark_client_idle_get w cid (tm s) c Hc) as (G1 & G2).
  exists (with_tm (mark_client_idle w cid (tm s)) s).
  assert (handle_image_result w cid tid data s
          = Returned (with_tm (mark_client_idle w cid (tm s)) s)) as Hh.
  { unfold handle_image_result. by rewrite Hno. }
  split_and!; try done.
  - intros Hne. unfold ws_message, ws_handle.
    assert (truthy (Some tid) = true) as ->.
    { simpl. apply negb_true_iff, String.eqb_neq. done. }
    simpl. by rewrite Hh.
  - intros b ci total piece Hne Hpos Hsize Hjoin.
    unfold ws_message, ws_handle.
    assert (truthy (Some tid) = true) as ->.
    { simpl. apply negb_true_iff, String.eqb_neq. done. }
    simpl.
    replace (0 <? total) with true by lia.
    rewrite Hsize, Z.eqb_refl. simpl. rewrite Hjoin.
    unfold handle_image_result. simpl. by rewrite Hno.
Qed.

Lemma image_result_unknown_task_witness :
  ∃ s',
    handle_image_result world0 "c0_0" "task_9" "AAAA" registered_example
      = Returned s' ∧
    tasks (tm s') = tasks (tm registered_example) ∧
    trace s' = trace registered_example ∧
    odict.get "c0_0" (clients (tm s'))
      = Some (mkClient "A" false None 1 (Some 0)) ∧
    ws_message world0 "c0_0" (MsgImageData (Some "task_9") "AAAA")
      registered_example = s'.
Proof.
  destruct (image_result_unknown_task world0 "c0_0" "task_9" "AAAA"
              registered_example (mkClient "A" false None 1 None))
    as (s' & H1 & H2 & H3 & _ & _ & H4 & _ & H5 & _).
  - intros t Ht. vm_compute in Ht. by apply elem_of_nil in Ht.
  - reflexivity.
  - exists s'. split_and!; [exact H1 | exact H2 | exact H3 | exact H4 |].
    apply H5. discriminate.
Defined.

(** ** Removing a worker *)

Lemma remove_client_registered cid m c :
  odict.get cid (clients m) = Some c →
  remove_client cid m =
    with_clients (odict.del cid (clients m))
      (with_tasks
         (if truthy (task_id c)
          then requeue_assigned (default "" (task_id c)) <$> tasks m
          else tasks m) m).
Proof. intros H. unfold remove_client. by rewrite H. Qed.

Lemma requeue_assigned_status tid t :
  t_status (requeue_assigned tid t) = Failed → t_status t = Failed.
Proof. unfold requeue_assigned. by case_decide. Qed.

(** What [remove_client] does to an assigned task of the removed worker. *)
Lemma remove_client_requeues_at :
  ∀ cid m c i t,
    odict.get cid (clients m) = Some c → task_id c = Some (id t) →
    id t ≠ "" →
    tasks m !! i = Some t → t_status t = Assigned →
    tasks (remove_client cid m) !! i = Some (set_status Queued t) ∧
    t_status (set_status Queued t) = Queued ∧
    client_id (set_status Queued t) = client_id t ∧
    odict.get cid (clients (remove_client cid m)) = None ∧
    (∀ cid', cid' ≠ cid →
       odict.get cid' (clients (remove_client cid m))
         = odict.get cid' (clients m)) ∧
    (∀ j u, tasks (remove_client cid m) !! j = Some u → t_status u = Failed →
       ∃ u0, tasks m !! j = Some u0 ∧ t_status u0 = Failed) ∧
    (∀ s, tm s = m → tm (ws_close cid s) = remove_client cid m).
Proof.
  intros cid m c i t Hc Htid Hne Hi Hst.
  rewrite (remove_client_registered _ _ c) by done. rewrite Htid. simpl.
  assert (negb (String.eqb (id t) "") = true) as ->.
  { apply negb_true_iff, String.eqb_neq. done. }
  split_and!.
  - rewrite list_lookup_fmap, Hi. simpl. unfold requeue_assigned.
    by rewrite decide_True.
  - done.
  - done.
  - by rewrite odict_get_del, decide_True.
  - intros cid' Hne'. by rewrite odict_get_del, decide_False.
  - intros j u Hj Hu. rewrite list_lookup_fmap in Hj.
    destruct (tasks m !! j) as [u0|] eqn:E; [|done].
    injection Hj as <-. exists u0. split; [done|].
    by apply requeue_assigned_status in Hu.
  - intros s <-. unfold ws_close. simpl.
    rewrite (remove_client_registered _ _ c) by done. rewrite Htid. simpl.
    assert (negb (String.eqb (id t) "") = true) as -> ; [|done].
    apply negb_true_iff, String.eqb_neq. done.
Qed.

(** ** The timeout sweep *)

Lemma sweep_spec now ts cs :
  sweep now ts cs =
    (sweep_task now <$> ts, sweep_clients now ts cs,
     expire now <$> filter (λ t, timed_out now t = true) ts).
Proof.
  revert cs. induction ts as [|t ts IH]; intros cs; simpl; [done|].
  unfold sweep_task at 1. rewrite filter_cons.
  destruct (timed_out now t) eqn:E.
  - rewrite IH. by rewrite decide_True.
  - rewrite IH. by rewrite decide_False.
Qed.

Lemma check_timeout_tasks_spec w m :
  check_timeout_tasks w m =
    (expire (w_now w) <$> filter (λ t, timed_out (w_now w) t = true) (tasks m),
     with_clients (sweep_clients (w_now w) (tasks m) (clients m))
       (with_tasks (sweep_task (w_now w) <$> tasks m) m)).
Proof. unfold check_timeout_tasks. by rewrite sweep_spec. Qed.

Lemma release_of_keys t cs : (release_of t cs).*1 = cs.*1.
Proof.
  unfold release_of. destruct (client_id t); [|done].
  destruct (_ && _); [apply odict_alter_keys | done].
Qed.

Lemma sweep_clients_keys now ts cs : (sweep_clients now ts cs).*1 = cs.*1.
Proof.
  revert cs. induction ts as [|t ts IH]; intros cs; simpl; [done|].
  unfold sweep_clients in *. simpl. rewrite IH.
  destruct (timed_out now t); [apply release_of_keys | done].
Qed.

Lemma idle_at_release_of cid t cs :
  idle_at cid cs → idle_at cid (release_of t cs).
Proof.
  unfold release_of. intros H. destruct (client_id t) as [k|]; [|done].
  destruct (_ && _); [|done].
  intros c (c0 & H0 & ->)%odict_elem_of_alter.
  destruct (decide (cid = k)); [done | by apply H].
Qed.

Lemma release_of_idle cid t cs :
  client_id t = Some cid → cid ≠ "" → idle_at cid (release_of t cs).
Proof.
  intros Hc Hne. unfold release_of. rewrite Hc.
  assert (negb (String.eqb cid "") = true) as ->.
  { apply negb_true_iff, String.eqb_neq. done. }
  simpl. destruct (odict.mem cid cs) eqn:E.
  - intros c (c0 & H0 & ->)%odict_elem_of_alter. by rewrite decide_True.
  - intros c Hin. assert (odict.mem cid cs = true) as E'.
    { apply odict_mem_true. by exists c. }
    congruence.
Qed.

Lemma idle_at_sweep_clients cid now ts cs :
  idle_at cid cs → idle_at cid (sweep_clients now ts cs).
Proof.
  revert cs. induction ts as [|t ts IH]; intros cs H; [done|].
  unfold sweep_clients in *. simpl. apply IH.
  destruct (timed_out now t); [by apply idle_at_release_of | done].
Qed.

Lemma sweep_clients_app now ts1 ts2 cs :
  sweep_clients now (ts1 ++ ts2) cs
    = sweep_clients now ts2 (sweep_clients now ts1 cs).
Proof. unfold sweep_clients. apply foldl_app. Qed.

Lemma sweep_clients_idle cid now ts cs i t :
  ts !! i = Some t → timed_out now t = true →
  client_id t = Some cid → cid ≠ "" →
  idle_at cid (sweep_clients now ts cs).
Proof.
  intros Hi Ht Hc Hne.
  rewrite <- (take_drop_middle ts i t Hi), sweep_clients_app.
  unfold sweep_clients at 1. simpl. rewrite Ht.
  apply idle_at_sweep_clients. by apply release_of_idle.
Qed.

Lemma timed_out_assigned now t : timed_out now t = true → t_status t = Assigned.
Proof. unfold timed_out. by destruct (t_status t). Qed.

Lemma sweep_task_other now t : t_status t ≠ Assigned → sweep_task now t = t.
Proof.
  intros H. unfold sweep_task. destruct (timed_out now t) eqn:E; [|done].
  by apply timed_out_assigned in E.
Qed.

(** What one sweep does to an assigned task that is too old. *)
Lemma check_timeout_tasks_at :
  ∀ w m i t st,
    tasks m !! i = Some t → t_status t = Assigned →
    start_time t = Some st →
    TASK_TIMEOUT_SECONDS * MICRO < w_now w - st →
    ∃ t',
      tasks (check_timeout_tasks w m).2 !! i = Some t' ∧
      t' ∈ (check_timeout_tasks w m).1 ∧
      t_status t' = TimedOut ∧ end_time t' = Some (w_now w) ∧
      status_detail t' = detail_timeout_of TASK_TIMEOUT_SECONDS ∧
      t' = expire (w_now w) t ∧
      (∀ cid, client_id t = Some cid → cid ≠ "" →
         (clients (check_timeout_tasks w m).2).*1 = (clients m).*1 ∧
         ∀ c, odict.get cid (clients (check_timeout_tasks w m).2) = Some c →
              busy c = false ∧ task_id c = None) ∧
      (∀ j u, tasks m !! j = Some u → t_status u ≠ Assigned →
         tasks (check_timeout_tasks w m).2 !! j = Some u) ∧
      (∀ w', tasks (check_timeout_tasks w' (check_timeout_tasks w m).2).2 !! i
               = Some t').
Proof.
  intros w m i t st Hi Hst Hstart Hlate.
  assert (timed_out (w_now w) t = true) as Hto.
  { unfold timed_out. rewrite Hst, Hstart. lia. }
  exists (expire (w_now w) t).
  rewrite check_timeout_tasks_spec. simpl.
  assert ((sweep_task (w_now w) <$> tasks m) !! i = Some (expire (w_now w) t))
    as Hi'.
  { rewrite list_lookup_fmap, Hi. simpl. unfold sweep_task. by rewrite Hto. }
  split_and!; try done.
  - apply list_elem_of_fmap. exists t. split; [done|].
    apply list_elem_of_filter. split; [done|]. by eapply list_elem_of_lookup_2.
  - intros cid Hc Hne. split; [apply sweep_clients_keys|].
    intros c Hget%odict_get_elem_of.
    by eapply (sweep_clients_idle cid (w_now w) (tasks m)).
  - intros j u Hj Hu. rewrite list_lookup_fmap, Hj. simpl.
    by rewrite sweep_task_other.
  - intros w'. rewrite check_timeout_tasks_spec. simpl.
    rewrite list_lookup_fmap, Hi'. simpl. by rewrite sweep_task_other.
Qed.

(** ** Dispatch *)

Lemma rstrip_blank_iff (s : list N) : blank (rstrip s) ↔ blank s.
Proof.
  unfold rstrip, blank.
  rewrite Forall_reverse. fold (blank (lstrip (reverse s))).
  rewrite lstrip_blank_iff. unfold blank. by rewrite Forall_reverse.
Qed.

Lemma strip_blank_iff (s : list N) : blank (strip s) ↔ blank s.
Proof. unfold strip. by rewrite rstrip_blank_iff, lstrip_blank_iff. Qed.

Lemma scan_queued_Some i ts n t :
  scan_queued i ts = (n, Some t) →
  ∃ k, n = (i + k)%nat ∧ ts !! k = Some t ∧ t_status t = Queued.
Proof.
  revert i. induction ts as [|u ts IH]; intros i; simpl; [done|].
  destruct (decide (t_status u = Queued)) as [E|E].
  - intros [= <- <-]. exists 0%nat. split_and!; [lia | done..].
  - intros (k & -> & ? & ?)%IH. exists (S k). split_and!; [lia | done..].
Qed.

Lemma get_next_task_Some m t m' :
  get_next_task m = (Some t, m') →
  m' = with_index (current_index m') m ∧
  tasks m' !! current_index m' = Some t ∧ t_status t = Queued.
Proof.
  unfold get_next_task.
  destruct (scan_queued _ _) as [n r] eqn:E. simpl. intros [= -> <-].
  apply scan_queued_Some in E as (k & -> & Hk & Hq).
  rewrite lookup_drop in Hk. by split_and!.
Qed.

Lemma get_idle_client_in_Some now cs cid info :
  get_idle_client_in now cs = Some (cid, info) →
  (cid, info) ∈ cs ∧ busy info = false ∧ in_cooldown now info = false.
Proof.
  induction cs as [|[k c] cs IH]; simpl; [done|].
  destruct (negb (busy c) && negb (in_cooldown now c)) eqn:E.
  - intros [= -> ->]. apply andb_true_iff in E as [E1 E2].
    apply negb_true_iff in E1, E2. split_and!; [left | done..].
  - intros (? & ? & ?)%IH. split_and!; [by right | done..].
Qed.

Lemma bind_first_status tid cid ts :
  t_status <$> bind_first tid cid ts = t_status <$> ts.
Proof.
  induction ts as [|t ts IH]; simpl; [done|].
  destruct (decide (id t = tid)); simpl; by f_equal.
Qed.

Lemma bind_first_length tid cid ts : length (bind_first tid cid ts) = length ts.
Proof.
  induction ts as [|t ts IH]; simpl; [done|].
  destruct (decide (id t = tid)); simpl; by f_equal.
Qed.

Lemma mark_client_idle_tasks w cid m :
  tasks (mark_client_idle w cid m) = tasks m.
Proof. apply mark_client_idle_frame. Qed.

Lemma mark_client_idle_clients w cid m :
  clients (mark_client_idle w cid m) =
    if odict.mem cid (clients m)
    then odict.alter (set_idle (w_now w)) cid (clients m) else clients m.
Proof. unfold mark_client_idle. by destruct (odict.mem cid (clients m)). Qed.

Lemma mark_client_busy_clients cid tid m :
  clients (mark_client_busy cid tid m) =
    if odict.mem cid (clients m)
    then odict.alter (set_busy tid) cid (clients m) else clients m.
Proof. unfold mark_client_busy. by destruct (odict.mem cid (clients m)). Qed.

Lemma mark_client_busy_tasks cid tid m :
  tasks (mark_client_busy cid tid m) =
    if odict.mem cid (clients m) then bind_first tid cid (tasks m) else tasks m.
Proof. unfold mark_client_busy. by destruct (odict.mem cid (clients m)). Qed.

Lemma mark_client_busy_index cid tid m :
  current_index (mark_client_busy cid tid m) = current_index m.
Proof. unfold mark_client_busy. by destruct (odict.mem cid (clients m)). Qed.

Lemma odict_mem_alter (f : client → client) k k' cs :
  odict.mem k' (odict.alter f k cs) = odict.mem k' cs.
Proof.
  unfold odict.mem. rewrite odict_get_alter.
  destruct (decide (k' = k)); [|done].
  apply bool_decide_ext. by rewrite fmap_is_Some.
Qed.

(** The registry after a worker the dispatcher found idle was marked busy
    and, the send having failed, idle again. *)
Lemma idle_after_busy w cid tid info m m' :
  (cid, info) ∈ clients m →
  clients m' = clients (mark_client_busy cid tid m) →
  ∃ c, odict.get cid (clients (mark_client_idle w cid m')) = Some c ∧
       busy c = false ∧ task_id c = None ∧ last_task_end c = Some (w_now w).
Proof.
  intros Hin Hm'.
  assert (odict.mem cid (clients m) = true) as Hmem.
  { apply odict_mem_true. by exists info. }
  rewrite mark_client_idle_clients, Hm', mark_client_busy_clients, Hmem.
  rewrite odict_mem_alter, Hmem.
  apply bool_decide_eq_true in Hmem as [c0 Hc0].
  exists (set_idle (w_now w) (set_busy tid c0)). split; [|done].
  rewrite !odict_get_alter, !decide_True by done. rewrite Hc0. reflexivity.
Qed.

Lemma get_client_count_pos cid info m :
  (cid, info) ∈ clients m → ((get_client_count m).1 =? 0)%nat = false.
Proof.
  intros Hin. apply Nat.eqb_neq. simpl. intros E%length_zero_iff_nil.
  rewrite E in Hin. by apply elem_of_nil in Hin.
Qed.

Lemma statuses_after_failed_send w cid tid i t (ts : list task) :
  ts !! i = Some t → t_status t = Queued →
  t_status <$> alter (set_status Queued) i
                 (bind_first tid cid (<[i := assign_task w t]> ts))
    = t_status <$> ts.
Proof.
  intros Hi Hq.
  rewrite (list_fmap_alter t_status (set_status Queued) (λ _, Queued))
    by by apply Forall_true.
  rewrite bind_first_status, list_fmap_insert, <- list_insert_alter.
  rewrite list_insert_insert_eq. apply list_insert_id.
  by rewrite list_lookup_fmap, Hi, <- Hq.
Qed.

Lemma queued_after_failed_send w cid tid i t (ts : list task) :
  ts !! i = Some t →
  ∃ t', alter (set_status Queued) i
          (bind_first tid cid (<[i := assign_task w t]> ts)) !! i = Some t' ∧
        t_status t' = Queued.
Proof.
  intros Hi. apply lookup_lt_Some in Hi as Hlt.
  rewrite list_lookup_alter_eq.
  destruct (bind_first tid cid (<[i := assign_task w t]> ts) !! i) as [u|] eqn:E.
  - by exists (set_status Queued u).
  - apply lookup_ge_None in E.
    rewrite bind_first_length, length_insert in E. lia.
Qed.

Lemma maybe_start_tm (api : bool) (x : server) :
  tasks (tm (if negb (is_running (tm x)) && api then start_execution x else x))
    = tasks (tm x) ∧
  clients (tm (if negb (is_running (tm x)) && api then start_execution x
               else x)) = clients (tm x) ∧
  trace (if negb (is_running (tm x)) && api then start_execution x else x)
    = trace x.
Proof.
  destruct (negb (is_running (tm x)) && api); [|done].
  by destruct (start_execution_tm x) as (-> & _ & -> & _ & _ & ->).
Qed.

#[local] Arguments mark_client_busy : simpl never.
#[local] Arguments mark_client_idle : simpl never.
#[local] Arguments start_execution : simpl never.

(** The state a turn of the loop leaves when it dispatches and the send
    raises. *)
Lemma execute_tasks_iter_send_failure w s t tm2 cid info :
  is_running (tm s) = true →
  get_next_task (check_timeout_tasks w (tm s)).2 = (Some t, tm2) →
  get_idle_client w tm2 = Some (cid, info) →
  truthy (import_row_number t) && path_exists w (skip_path w t) = false →
  w_send_ok w = false →
  execute_tasks_iter w s =
    let i := current_index tm2 in
    let tm4 := mark_client_busy cid (id t)
                 (with_tasks (<[i := assign_task w t]> (tasks tm2)) tm2) in
    let m := mkTaskMessage (id t) (prompt t) (task_type t) (aspect_ratio t)
               (resolution t)
               (resolve_reference_images w (reference_images t)) in
    with_tm (mark_client_idle w cid
               (with_tasks (alter (set_status Queued) i (tasks tm4))
                  (with_index (S i) tm4)))
      (emit (EvSend cid m) (with_tm (with_index (S i) tm4) s)).
Proof.
  intros Hrun Hnext Hidle Hskip Hsend.
  unfold execute_tasks_iter. rewrite Hrun. cbn [negb]. rewrite Hnext.
  apply get_idle_client_in_Some in Hidle as Hin. destruct Hin as (Hin & _ & _).
  rewrite (get_client_count_pos cid info) by done.
  by rewrite Hidle, Hskip, Hsend.
Qed.

(** The same for the immediate dispatch of the HTTP path. *)
Lemma chat_completions_send_failure w cfg p imgs api s cid info :
  ¬ blank p →
  Z.of_nat (length imgs) ≤ cfg_max_images cfg →
  get_idle_client w (tm s) = Some (cid, info) →
  w_send_ok w = false →
  chat_completions w cfg p imgs api s =
    let t := new_task w (strip p) (cfg_task_type cfg) (cfg_aspect_ratio cfg)
               (cfg_resolution cfg) (Some imgs) None None (tm s) in
    let i := length (tasks (tm s)) in
    let tm1 := with_tasks (tasks (tm s) ++ [t]) (tm s) in
    let tm3 := mark_client_busy cid (id t)
                 (with_tasks (<[i := assign_task w t]> (tasks tm1)) tm1) in
    let m := mkTaskMessage (id t) (strip p) (cfg_task_type cfg)
               (cfg_aspect_ratio cfg) (cfg_resolution cfg) imgs in
    let s2 := with_tm (mark_client_idle w cid
                         (with_tasks (alter (set_status Queued) i (tasks tm3))
                            tm3))
                (emit (EvSend cid m) (with_tm tm3 (with_tm tm1 s))) in
    (inr (id t),
     if negb (is_running (tm s2)) && api then start_execution s2 else s2).
Proof.
  intros Hp Himgs Hidle Hsend.
  apply get_idle_client_in_Some in Hidle as Hin. destruct Hin as (Hin & _ & _).
  unfold chat_completions.
  rewrite decide_False by by rewrite strip_nil.
  assert ((cfg_max_images cfg =? 0) && negb (bool_decide (imgs = [])) = false)
    as ->.
  { destruct imgs as [|x imgs]; [by rewrite andb_false_r|].
    simpl in Himgs. replace (cfg_max_images cfg =? 0) with false by lia. done. }
  replace (cfg_max_images cfg <? Z.of_nat (length imgs)) with false by lia.
  rewrite (get_client_count_pos cid info) by done.
  rewrite add_task_not_blank by by rewrite strip_blank_iff.
  unfold get_idle_client in *. cbn [clients with_tasks].
  by rewrite Hidle, Hsend.
Qed.

(** C8.  A dispatch whose send raises leaves the task queued and the chosen
    worker registered, not busy, without task id and with the current time
    as cooldown stamp, after the task message was handed to the socket; the
    status of every task is what it was before the dispatch (for the loop:
    after its sweep), so no task has a failure status from the failed send.
    First for a turn of the dispatch loop, then for the immediate dispatch
    of the HTTP path. *)
Theorem send_failure_requeues :
  (∀ w s t tm2 cid info,
     is_running (tm s) = true →
     get_next_task (check_timeout_tasks w (tm s)).2 = (Some t, tm2) →
     get_idle_client w tm2 = Some (cid, info) →
     truthy (import_row_number t) && path_exists w (skip_path w t) = false →
     w_send_ok w = false →
     requeued w cid (current_index tm2) (execute_tasks_iter w s) ∧
     (∃ m, trace (execute_tasks_iter w s) = EvSend cid m :: trace s ∧
           m_task_id m = id t) ∧
     t_status <$> tasks (tm (execute_tasks_iter w s)) = t_status <$> tasks tm2) ∧
  (∀ w cfg p imgs api s cid info,
     ¬ blank p →
     Z.of_nat (length imgs) ≤ cfg_max_images cfg →
     get_idle_client w (tm s) = Some (cid, info) →
     w_send_ok w = false →
     requeued w cid (length (tasks (tm s)))
       (chat_completions w cfg p imgs api s).2 ∧
     (∃ m, trace (chat_completions w cfg p imgs api s).2
             = EvSend cid m :: trace s ∧
           (chat_completions w cfg p imgs api s).1 = inr (m_task_id m)) ∧
     t_status <$> tasks (tm (chat_completions w cfg p imgs api s).2)
       = (t_status <$> tasks (tm s)) ++ [Queued]).
Proof.
  split.
  - intros w s t tm2 cid info Hrun Hnext Hidle Hskip Hsend.
    rewrite (execute_tasks_iter_send_failure w s t tm2 cid info) by done.
    apply get_next_task_Some in Hnext as (Htm2 & Hi & Hq).
    apply get_idle_client_in_Some in Hidle as Hin. destruct Hin as (Hin & _ & _).
    assert (odict.mem cid (clients tm2) = true) as Hmem.
    { apply odict_mem_true. by exists info. }
    unfold requeued. cbn zeta. cbn [tm with_tm trace emit].
    rewrite mark_client_idle_tasks. cbn [tasks with_tasks with_index].
    rewrite mark_client_busy_tasks. cbn [clients tasks with_tasks]. rewrite Hmem.
    split_and!.
    + by apply queued_after_failed_send.
    + by eapply (idle_after_busy w cid (id t) info
                (with_tasks (<[current_index tm2 := assign_task w t]> (tasks tm2))
                   tm2)).
    + eexists. split; reflexivity.
    + by apply statuses_after_failed_send.
  - intros w cfg p imgs api s cid info Hp Himgs Hidle Hsend.
    rewrite (chat_completions_send_failure w cfg p imgs api s cid info) by done.
    apply get_idle_client_in_Some in Hidle as Hin. destruct Hin as (Hin & _ & _).
    assert (odict.mem cid (clients (tm s)) = true) as Hmem.
    { apply odict_mem_true. by exists info. }
    cbn zeta. cbn [fst snd].
    set (t := new_task w (strip p) (cfg_task_type cfg) (cfg_aspect_ratio cfg)
                (cfg_resolution cfg) (Some imgs) None None (tm s)).
    set (i := length (tasks (tm s))).
    assert ((tasks (tm s) ++ [t]) !! i = Some t) as Hi.
    { unfold i. by rewrite list_lookup_middle. }
    unfold requeued.
    match goal with
    | |- context [if negb (is_running (tm ?x)) && api then _ else _] =>
        destruct (maybe_start_tm api x) as (-> & -> & ->)
    end.
    cbn [tm with_tm trace emit].
    rewrite mark_client_idle_tasks. cbn [tasks with_tasks].
    rewrite mark_client_busy_tasks. cbn [clients tasks with_tasks]. rewrite Hmem.
    split_and!.
    + by apply queued_after_failed_send.
    + by eapply (idle_after_busy w cid (id t) info
                (with_tasks (<[i := assign_task w t]> (tasks (tm s) ++ [t]))
                   (with_tasks (tasks (tm s) ++ [t]) (tm s)))).
    + eexists. split; reflexivity.
    + rewrite (statuses_after_failed_send _ _ _ _ t) by done.
      by rewrite fmap_app.
Qed.

Lemma send_failure_requeues_witness :
  requeued (closed_socket world0) "c0_0" 0
    (execute_tasks_iter (closed_socket world0) queued_example) ∧
  requeued (closed_socket world0) "c0_0" 0
    (chat_completions (closed_socket world0) cfg_image [104; 105]%N [] false
       registered_example).2.
Proof.
  destruct send_failure_requeues as [H1 H2]. split.
  - exact (proj1 (H1 (closed_socket world0) queued_example queued_task_example
             (get_next_task
                (check_timeout_tasks (closed_socket world0)
                   (tm queued_example)).2).2
             "c0_0" (mkClient "A" false None 1 None)
             eq_refl eq_refl eq_refl eq_refl eq_refl)).
  - refine (proj1 (H2 (closed_socket world0) cfg_image [104; 105]%N [] false
                     registered_example "c0_0" (mkClient "A" false None 1 None)
                     _ _ eq_refl eq_refl)).
    + unfold blank. intros Hb. apply Forall_cons in Hb as [Hb _].
      vm_compute in Hb. discriminate.
    + vm_compute. discriminate.
Defined.

(** ** Skip-if-exists *)

Lemma sweep_clients_elem now ts cs k c' :
  (k, c') ∈ sweep_clients now ts cs →
  ∃ c, (k, c) ∈ cs ∧ (c' = c ∨ c' = release c).
Proof.
  revert cs. induction ts as [|t ts IH]; intros cs; unfold sweep_clients in *;
    simpl.
  - intros H. exists c'. auto.
  - intros (c1 & H1 & Hc')%IH.
    destruct (timed_out now t); [|by exists c1].
    unfold release_of in H1. destruct (client_id t) as [cid|]; [|by exists c1].
    destruct (_ && _); [|by exists c1].
    apply odict_elem_of_alter in H1 as (c0 & H0 & ->).
    exists c0. split; [done|].
    destruct (decide (k = cid)); [|done].
    right. by destruct Hc' as [-> | ->].
Qed.

Lemma get_next_task_clients m :
  clients (get_next_task m).2 = clients m ∧
  tasks (get_next_task m).2 = tasks m.
Proof. done. Qed.

(** C6.  A turn of the dispatch loop that gets to an imported task (the
    next queued task at or after the cursor, with an idle worker found, as
    the loop requires before it looks at the task) whose file
    [{row_number}{extension}] under the resolved output directory exists:
    the task is succeeded, with the current time as end time, the absolute
    path of that file as saved path, the resolved directory recorded and the
    skip text as detail; the other tasks are untouched; the cursor is just
    behind the task; nothing is added to the trace, so no task message is
    sent; and the registry is the one the sweep of this turn left, in which
    a worker is busy only if it was busy before the turn with the same task
    id.  While no idle worker is found the turn leaves the task queued and
    likewise sends nothing. *)
Theorem skip_if_exists :
  ∀ w s t tm2 row,
    is_running (tm s) = true →
    get_next_task (check_timeout_tasks w (tm s)).2 = (Some t, tm2) →
    import_row_number t = Some row → row ≠ "" →
    path_join (resolve_output_dir w t) (row +:+ file_ext t) ∈ w_files w →
    (∀ cid info,
       get_idle_client w tm2 = Some (cid, info) →
       ∃ t',
         tasks (tm (execute_tasks_iter w s))
           = <[current_index tm2 := t']> (tasks tm2) ∧
         tasks tm2 !! current_index tm2 = Some t ∧
         t' = skip_task w t ∧
         t_status t' = Succeeded ∧
         end_time t' = Some (w_now w) ∧
         saved_path t'
           = Some (absolute w (path_join (resolve_output_dir w t)
                                  (row +:+ file_ext t))) ∧
         output_dir_path t' = Some (resolve_output_dir w t) ∧
         status_detail t' = detail_skip ∧
         client_id t' = client_id t ∧ start_time t' = start_time t ∧
         current_index (tm (execute_tasks_iter w s)) = S (current_index tm2) ∧
         trace (execute_tasks_iter w s) = trace s ∧
         clients (tm (execute_tasks_iter w s))
           = clients (check_timeout_tasks w (tm s)).2 ∧
         (∀ k c', registered k c' (tm (execute_tasks_iter w s)) →
                  busy c' = true →
                  ∃ c, registered k c (tm s) ∧ busy c = true ∧
                       task_id c' = task_id c)) ∧
    (get_idle_client w tm2 = None →
       tasks (tm (execute_tasks_iter w s)) = tasks tm2 ∧
       tasks tm2 !! current_index tm2 = Some t ∧ t_status t = Queued ∧
       trace (execute_tasks_iter w s) = trace s).
Proof.
  intros w s t tm2 row Hrun Hnext Hrow Hne Hfile.
  assert (truthy (import_row_number t) && path_exists w (skip_path w t) = true)
    as Hskip.
  { rewrite Hrow. simpl. apply andb_true_iff. split.
    - apply negb_true_iff, String.eqb_neq. done.
    - unfold path_exists, skip_path, row_filename. rewrite Hrow. simpl.
      by apply bool_decide_eq_true. }
  pose proof (f_equal snd Hnext) as Hcl. simpl in Hcl.
  apply get_next_task_Some in Hnext as Hn. destruct Hn as (Htm2 & Hi & Hq).
  split.
  - intros cid info Hidle. exists (skip_task w t).
    unfold execute_tasks_iter. rewrite Hrun. cbn [negb]. rewrite Hnext.
    apply get_idle_client_in_Some in Hidle as Hin. destruct Hin as (Hin & _ & _).
    rewrite (get_client_count_pos cid info) by done.
    rewrite Hidle, Hskip. cbn [tm with_tm tasks with_tasks with_index
                                current_index clients trace].
    assert (clients tm2 = clients (check_timeout_tasks w (tm s)).2) as Hcs.
    { by rewrite <- Hcl. }
    assert (saved_path (skip_task w t)
            = Some (absolute w (path_join (resolve_output_dir w t)
                                  (row +:+ file_ext t))) ∧
            t_status (skip_task w t) = Succeeded ∧
            end_time (skip_task w t) = Some (w_now w) ∧
            output_dir_path (skip_task w t) = Some (resolve_output_dir w t) ∧
            status_detail (skip_task w t) = detail_skip ∧
            client_id (skip_task w t) = client_id t ∧
            start_time (skip_task w t) = start_time t) as (? & ? & ? & ? & ? & ? & ?).
    { unfold skip_task, skip_path, row_filename. rewrite Hrow.
      by destruct (is_image_ext (file_ext t)). }
    split_and!; try done.
    intros k c' Hreg Hbusy. unfold registered in *.
    cbn [tm with_tm with_index with_tasks clients] in Hreg. rewrite Hcs in Hreg.
    rewrite check_timeout_tasks_spec in Hreg. cbn [snd clients with_clients] in Hreg.
    apply sweep_clients_elem in Hreg as (c & Hc & [-> | ->]); [|done].
    by exists c.
  - intros Hidle. unfold execute_tasks_iter. rewrite Hrun. cbn [negb].
    rewrite Hnext, Hidle.
    by destruct ((get_client_count tm2).1 =? 0)%nat.
Qed.

Lemma skip_if_exists_witness :
  ∃ t',
    tasks (tm (execute_tasks_iter (with_files ["output/7.png"] world0)
                 import_example)) = [t'] ∧
    t_status t' = Succeeded ∧ status_detail t' = detail_skip ∧
    saved_path t' = Some "/home/u/output/7.png" ∧
    trace (execute_tasks_iter (with_files ["output/7.png"] world0)
             import_example) = [].
Proof.
  destruct (skip_if_exists (with_files ["output/7.png"] world0) import_example
              imported_task_example
              (get_next_task
                 (check_timeout_tasks (with_files ["output/7.png"] world0)
                    (tm import_example)).2).2 "7"
              eq_refl eq_refl eq_refl) as [H _].
  - discriminate.
  - vm_compute. apply list_elem_of_here.
  - destruct (H "c0_0" (mkClient "A" false None 1 None) eq_refl)
      as (t' & H1 & _ & _ & H2 & _ & H3 & _ & H4 & _ & _ & _ & H5 & _).
    exists t'. split_and!; [exact H1 | exact H2 | exact H4 | exact H3 | exact H5].
Defined.

(** ** Chunk reassembly *)





Lemma truthy_Some_ne (x : string) : x ≠ "" → truthy (Some x) = true.
Proof. intros H. simpl. apply negb_true_iff, String.eqb_neq. done. Qed.








(** ** The pairing of workers and tasks *)

Lemma quiet_refl cs : quiet cs cs.
Proof. split; [|done]. intros k c H. by left. Qed.

Lemma keys_ok_filter (P : string * client → Prop) `{∀ x, Decision (P x)}
    (cs : list (string * client)) :
  Forall client_key_ok cs.*1 → Forall client_key_ok (filter P cs).*1.
Proof.
  intros Hok. apply Forall_forall. intros k Hk.
  apply (proj1 (Forall_forall _ _) Hok).
  revert Hk. apply sublist_subseteq, fmap_sublist, sublist_filter.
Qed.

Lemma quiet_trans cs1 cs2 cs3 : quiet cs1 cs2 → quiet cs2 cs3 → quiet cs1 cs3.
Proof.
  intros (H12 & K12 & O12) (H23 & K23 & O23). split; [|auto].
  intros k c H. destruct (H23 k c H) as [H2|Hi]; [|by right].
  by apply H12.
Qed.

Lemma quiet_alter (f : client → client) k cs :
  (∀ c, idle (f c)) → quiet cs (odict.alter f k cs).
Proof.
  intros Hf. split; [|by rewrite odict_alter_keys].
  intros k' c' (c0 & H0 & ->)%odict_elem_of_alter.
  destruct (decide (k' = k)); [right; apply Hf | by left].
Qed.

Lemma odict_del_filter k (cs : list (string * client)) :
  odict.del k cs = filter (λ e, e.1 ≠ k) cs.
Proof.
  induction cs as [|[k0 v0] cs IH]; simpl; [done|]. rewrite filter_cons. simpl.
  destruct (decide (k0 = k)) as [->|Hne].
  - by rewrite decide_False by (by intros ?).
  - by rewrite decide_True, IH.
Qed.

Lemma NoDup_keys_filter (P : string * client → Prop) `{∀ x, Decision (P x)}
    (cs : list (string * client)) :
  NoDup cs.*1 → NoDup (filter P cs).*1.
Proof.
  intros Hnd. apply (sublist_NoDup _ _ Hnd).
  apply fmap_sublist, sublist_filter.
Qed.

Lemma quiet_del k cs : quiet cs (odict.del k cs).
Proof.
  split.
  - intros k' c' [_ Hin]%odict_elem_of_del. by left.
  - rewrite odict_del_filter. split; [apply NoDup_keys_filter|].
    apply keys_ok_filter.
Qed.

Lemma quiet_filter (P : string * client → Prop) `{∀ x, Decision (P x)} cs :
  quiet cs (filter P cs).
Proof.
  split; [|split; [apply NoDup_keys_filter | apply keys_ok_filter]].
  intros k' c' [_ Hin]%list_elem_of_filter. by left.
Qed.

Lemma quiet_set k v cs :
  idle v → client_key_ok k → quiet cs (odict.set k v cs).
Proof.
  intros Hv Hk. split_and!.
  - intros k' c' [[-> ->]|[_ H]]%odict_elem_of_set; [by right | by left].
  - intros Hnd. unfold odict.set. destruct (odict.mem k cs) eqn:E.
    + by rewrite odict_alter_keys.
    + rewrite fmap_app. apply NoDup_app.
      split_and!; [done| |by apply NoDup_singleton].
      intros k' Hk' ->%list_elem_of_singleton. simpl in Hk'.
      apply list_elem_of_fmap in Hk' as ([k0 v0] & Hk0 & Hin). simpl in Hk0.
      subst k0. assert (odict.mem k cs = true); [|congruence].
      apply odict_mem_true. by exists v0.
  - intros Hok. unfold odict.set. destruct (odict.mem k cs) eqn:E.
    + by rewrite odict_alter_keys.
    + rewrite fmap_app. apply Forall_app. split; [done|].
      by apply Forall_singleton.
Qed.

Lemma quiet_release_of t cs : quiet cs (release_of t cs).
Proof.
  unfold release_of. destruct (client_id t); [|apply quiet_refl].
  destruct (_ && _); [|apply quiet_refl]. by apply quiet_alter.
Qed.

Lemma quiet_sweep_clients now ts cs : quiet cs (sweep_clients now ts cs).
Proof.
  revert cs. induction ts as [|t ts IH]; intros cs; [apply quiet_refl|].
  unfold sweep_clients in *. simpl.
  eapply quiet_trans; [|apply IH].
  destruct (timed_out now t); [apply quiet_release_of | apply quiet_refl].
Qed.

Lemma quiet_register_client w page_url m :
  quiet (clients m) (clients (register_client w page_url m).2).
Proof.
  unfold register_client. simpl.
  eapply quiet_trans; [apply (quiet_filter (λ e, url e.2 ≠ page_url)) |].
  apply quiet_set; [done|]. apply prefix_app.
Qed.

Lemma quiet_remove_client cid m : quiet (clients m) (clients (remove_client cid m)).
Proof.
  unfold remove_client. destruct (odict.get cid (clients m)); [|apply quiet_refl].
  simpl. apply quiet_del.
Qed.

Lemma quiet_mark_client_idle w cid m :
  quiet (clients m) (clients (mark_client_idle w cid m)).
Proof.
  rewrite mark_client_idle_clients.
  destruct (odict.mem cid (clients m)); [by apply quiet_alter | apply quiet_refl].
Qed.

Lemma quiet_check_timeout_tasks w m :
  quiet (clients m) (clients (check_timeout_tasks w m).2).
Proof. rewrite check_timeout_tasks_spec. simpl. apply quiet_sweep_clients. Qed.

Lemma assigns_mark_client_busy cid tid m :
  assigns cid tid (clients m) (clients (mark_client_busy cid tid m)).
Proof.
  rewrite mark_client_busy_clients.
  destruct (odict.mem cid (clients m)) eqn:E.
  - split; [|by rewrite odict_alter_keys].
    intros k c' (c0 & H0 & ->)%odict_elem_of_alter.
    destruct (decide (k = cid)); [by right | by left].
  - split; [|done]. intros k c' H. left. split; [|done]. intros ->.
    assert (odict.mem cid (clients m) = true); [|congruence].
    apply odict_mem_true. by exists c'.
Qed.

(** What the pairing needs of the two kinds of change. *)






(** ** The registry under each operation *)

Lemma registry_change_quiet o s cs cs' : quiet cs cs' → registry_change o s cs cs'.
Proof.
  intros H. exists cs, cs. split_and!; [apply quiet_refl | by left | done].
Qed.

Lemma registry_change_same o s cs cs' : cs' = cs → registry_change o s cs cs'.
Proof. intros ->. apply registry_change_quiet, quiet_refl. Qed.

Lemma add_task_clients w p ty ar res refs od row m :
  clients (add_task w p ty ar res refs od row m).2 = clients m.
Proof. unfold add_task. by destruct (decide (strip p = [])). Qed.

Lemma retry_task_clients i s :
  clients (tm (retry_task i s).2) = clients (tm s).
Proof.
  unfold retry_task. destruct (_ || _); [done|].
  destruct (tasks (tm s) !! Z.to_nat i); [|done].
  destruct (negb _); [done|]. simpl.
  by destruct (start_if_stopped_tm
    (with_tm (with_index
                (if (Z.to_nat i <? current_index (tm s))%nat
                 then Z.to_nat i else current_index (tm s))
                (with_tasks (<[Z.to_nat i := reset_task t]> (tasks (tm s)))
                   (tm s))) s)) as (_ & _ & -> & _).
Qed.

Lemma retry_all_failed_clients s :
  clients (tm (retry_all_failed s).2) = clients (tm s).
Proof.
  unfold retry_all_failed. destruct (failed_indices 0 (tasks (tm s))); [done|].
  cbn [snd].
  match goal with |- clients (tm (start_if_stopped ?x)) = _ =>
    by destruct (start_if_stopped_tm x) as (_ & _ & -> & _) end.
Qed.

Lemma run_single_task_clients i s :
  clients (tm (run_single_task i s).2) = clients (tm s).
Proof.
  unfold run_single_task. destruct (_ || _); [done|].
  destruct (tasks (tm s) !! Z.to_nat i); [|done].
  destruct (negb _); [done|].
  destruct ((get_client_count (tm s)).1 =? 0)%nat; [done|]. cbn [snd].
  match goal with |- clients (tm (start_if_stopped ?x)) = _ =>
    by destruct (start_if_stopped_tm x) as (_ & _ & -> & _) end.
Qed.

Lemma quiet_handle_image_result w cid tid data s :
  quiet (clients (tm s))
    (clients (tm (match handle_image_result w cid tid data s with
                  | Returned s' => s'
                  | Raised s' => ws_close cid s'
                  end))).
Proof.
  unfold handle_image_result.
  destruct (find_task tid (tasks (tm s))) as [[i t]|].
  - destruct (negb (w_mkdir_ok w)); [apply quiet_remove_client|].
    destruct (result_filename w (resolve_output_dir w t) t);
      [|apply quiet_remove_client].
    cbn [tm with_tm]. rewrite mark_client_idle_clients. cbn [clients with_tasks emit tm].
    destruct (odict.mem cid (clients (tm s)));
      [by apply quiet_alter | apply quiet_refl].
  - cbn [tm with_tm]. apply quiet_mark_client_idle.
Qed.

Lemma quiet_ws_message w cid msg s :
  quiet (clients (tm s)) (clients (tm (ws_message w cid msg s))).
Proof.
  unfold ws_message, ws_handle. destruct msg as [tid ci n data|tid data|tid e|m|].
  - destruct (negb (truthy tid)); [apply quiet_refl|].
    destruct (_ && _); [|apply quiet_refl].
    destruct (join_chunks _ _); [|apply quiet_remove_client].
    apply (quiet_handle_image_result w cid (default "" tid) s0
             (with_chunk_buffer _ (with_chunk_buffer _ s))).
  - destruct (negb (truthy tid)); [apply quiet_refl|].
    apply quiet_handle_image_result.
  - cbn [tm with_tm]. eapply quiet_trans; [|apply quiet_mark_client_idle].
    destruct (_ && _); [|apply quiet_refl].
    destruct (find_task _ _) as [[i t]|]; apply quiet_refl.
  - destruct (odict.get cid (clients (tm s))); [|apply quiet_refl].
    destruct (truthy _); apply quiet_refl.
  - apply quiet_refl.
Qed.

Lemma sweep_task_queued now t :
  t_status (sweep_task now t) = Queued → sweep_task now t = t.
Proof.
  unfold sweep_task. destruct (timed_out now t); [|done]. discriminate.
Qed.

(** The task a turn of the loop picks is a queued task of the store. *)
Lemma next_task_in_store w m t tm2 :
  get_next_task (check_timeout_tasks w m).2 = (Some t, tm2) →
  t ∈ tasks m ∧ t_status t = Queued ∧
  clients tm2 = clients (check_timeout_tasks w m).2.
Proof.
  intros H. pose proof (f_equal snd H) as E. simpl in E.
  apply get_next_task_Some in H as (_ & Hi & Hq).
  split_and!; [|done|by rewrite <- E].
  rewrite <- E in Hi. rewrite check_timeout_tasks_spec in Hi.
  cbn [snd tasks with_tasks with_clients with_index] in Hi.
  apply list_lookup_fmap_Some_1 in Hi as (t0 & -> & H0).
  rewrite sweep_task_queued by done.
  by eapply list_elem_of_lookup_2.
Qed.

Lemma registry_change_execute w s :
  registry_change (OpExecute w) s (clients (tm s))
    (clients (tm (execute_tasks_iter w s))).
Proof.
  unfold execute_tasks_iter.
  destruct (negb (is_running (tm s))); [by apply registry_change_same|].
  destruct (get_next_task (check_timeout_tasks w (tm s)).2) as [nxt tm2] eqn:E.
  assert (quiet (clients (tm s)) (clients tm2)) as Hq.
  { pose proof (f_equal snd E) as E'. simpl in E'. rewrite <- E'.
    apply quiet_check_timeout_tasks. }
  destruct nxt as [t|].
  2:{ destruct (existsb _ _); by apply registry_change_quiet. }
  destruct ((get_client_count tm2).1 =? 0)%nat; [by apply registry_change_quiet|].
  destruct (get_idle_client w tm2) as [[cid info]|];
    [|by apply registry_change_quiet].
  destruct (_ && _); [by apply registry_change_quiet|].
  apply next_task_in_store in E as (Hin & Hst & _).
  exists (clients tm2),
    (clients (mark_client_busy cid (id t)
                (with_tasks (<[current_index tm2 := assign_task w t]> (tasks tm2))
                   tm2))).
  split_and!; [done | |].
  - right. exists cid, (id t). split; [by exists t|].
    apply (assigns_mark_client_busy cid (id t)
             (with_tasks (<[current_index tm2 := assign_task w t]> (tasks tm2))
                tm2)).
  - destruct (w_send_ok w); cbn [tm with_tm emit clients with_index];
      [apply quiet_refl|].
    apply (quiet_mark_client_idle w cid
             (with_tasks _ (with_index _ (mark_client_busy cid (id t) _)))).
Qed.

Lemma registry_change_chat w cfg p imgs api s :
  registry_change (OpChat w cfg p imgs api) s (clients (tm s))
    (clients (tm (chat_completions w cfg p imgs api s).2)).
Proof.
  unfold chat_completions.
  destruct (decide (strip p = [])) as [|Hp]; [by apply registry_change_same|].
  destruct (_ && _); [by apply registry_change_same|].
  destruct (_ <? _); [by apply registry_change_same|].
  destruct ((get_client_count (tm s)).1 =? 0)%nat;
    [by apply registry_change_same|].
  rewrite add_task_not_blank by by rewrite strip_blank_iff, <- strip_nil.
  set (t := new_task w (strip p) (cfg_task_type cfg) (cfg_aspect_ratio cfg)
              (cfg_resolution cfg) (Some imgs) None None (tm s)).
  cbn [snd].
  match goal with
  | |- context [if negb (is_running (tm ?x)) && api then _ else _] =>
      destruct (maybe_start_tm api x) as (_ & -> & _)
  end.
  destruct (get_idle_client w _) as [[cid info]|];
    [|by apply registry_change_same].
  set (m2 := with_tasks
               (<[length (tasks (tm s)) := assign_task w t]> (tasks (tm s) ++ [t]))
               (with_tasks (tasks (tm s) ++ [t]) (tm s))).
  exists (clients (tm s)), (clients (mark_client_busy cid (id t) m2)).
  split_and!; [apply quiet_refl | |].
  - right. exists cid, (id t). split; [done|].
    apply (assigns_mark_client_busy cid (id t) m2).
  - destruct (w_send_ok w); cbn [tm with_tm emit clients];
      [apply quiet_refl|].
    apply (quiet_mark_client_idle w cid
             (with_tasks _ (mark_client_busy cid (id t) m2))).
Qed.

Lemma registry_change_step o s :
  registry_change o s (clients (tm s)) (clients (tm (step o s))).
Proof.
  destruct o; cbn [step].
  - by apply registry_change_same.
  - apply registry_change_quiet. apply quiet_register_client.
  - apply registry_change_quiet, quiet_ws_message.
  - apply registry_change_quiet, quiet_remove_client.
  - apply registry_change_execute.
  - apply registry_change_chat.
  - apply registry_change_same. apply add_task_clients.
  - apply registry_change_same. apply add_task_clients.
  - apply registry_change_same, retry_task_clients.
  - apply registry_change_same, retry_all_failed_clients.
  - apply registry_change_same, run_single_task_clients.
  - by apply registry_change_same.
  - apply registry_change_same. apply start_execution_tm.
  - by apply registry_change_same.
Qed.



Lemma registry_change_keys o s cs cs' :
  registry_change o s cs cs' → NoDup cs.*1 → NoDup cs'.*1.
Proof.
  intros (cs1 & cs2 & (_ & K1 & _) & Hmid & (_ & K2 & _)) H. apply K2.
  destruct Hmid as [-> | (cid & tid & _ & (_ & Ka & _))]; auto.
Qed.

Lemma registry_change_keys_ok o s cs cs' :
  registry_change o s cs cs' →
  Forall client_key_ok cs.*1 → Forall client_key_ok cs'.*1.
Proof.
  intros (cs1 & cs2 & (_ & _ & K1) & Hmid & (_ & _ & K2)) H. apply K2.
  destruct Hmid as [-> | (cid & tid & _ & (_ & _ & Ka))]; auto.
Qed.

Lemma run_snoc ops o s : run (ops ++ [o]) s = step o (run ops s).
Proof. unfold run. by rewrite foldl_app. Qed.



(** In a reachable state the keys of [clients] are distinct, as in a dict,
    so the registered workers are the ones a lookup finds. *)
Lemma reachable_clients_keys s : reachable s → NoDup (clients (tm s)).*1.
Proof.
  intros [ops ->]. induction ops as [|o ops IH] using rev_ind.
  - apply NoDup_nil_2.
  - rewrite run_snoc.
    exact (registry_change_keys o _ _ _ (registry_change_step o _) IH).
Qed.

Lemma reachable_clients_keys_ok s :
  reachable s → Forall client_key_ok (clients (tm s)).*1.
Proof.
  intros [ops ->]. induction ops as [|o ops IH] using rev_ind.
  - apply Forall_nil_2.
  - rewrite run_snoc.
    exact (registry_change_keys_ok o _ _ _ (registry_change_step o _) IH).
Qed.

Lemma odict_get_NoDup (cs : list (string * client)) k c :
  NoDup cs.*1 → (k, c) ∈ cs → odict.get k cs = Some c.
Proof.
  induction cs as [|[k0 v0] cs IH]; simpl; [by intros _ ?%elem_of_nil|].
  intros [Hk0 Hnd]%NoDup_cons [[= -> ->]|Hin]%elem_of_cons.
  - by rewrite decide_True.
  - rewrite decide_False; [by apply IH|]. intros ->. apply Hk0.
    apply list_elem_of_fmap. by exists (k, c).
Qed.

Lemma reachable_registered_get s cid c :
  reachable s →
  (registered cid c (tm s) ↔ odict.get cid (clients (tm s)) = Some c).
Proof.
  intros Hr. split.
  - apply odict_get_NoDup. by apply reachable_clients_keys.
  - apply odict_get_elem_of.
Qed.




(** ** The search for a free file name terminates *)

Lemma string_length_app (a b : string) :
  String.length (a +:+ b) = (String.length a + String.length b)%nat.
Proof. induction a as [|x a IH]; simpl; [done | by rewrite IH]. Qed.

Lemma string_app_inj_r (x y e : string) : x +:+ e = y +:+ e → x = y.
Proof.
  revert y. induction x as [|a x IH]; intros [|b y] H; simpl in *.
  - done.
  - apply (f_equal String.length) in H. simpl in H.
    rewrite !string_length_app in H. simpl in H. lia.
  - apply (f_equal String.length) in H. simpl in H.
    rewrite !string_length_app in H. simpl in H. lia.
  - injection H as -> H. f_equal. by apply IH.
Qed.

Lemma prefix_one_char (c : string) (a : Ascii.ascii) (s s' : string) :
  String.length c = 1%nat →
  String.prefix c (String a s) = String.prefix c (String a s').
Proof.
  destruct c as [|x [|y c]]; [done | | done]. intros _.
  cbn -[Ascii.ascii_dec]. destruct (Ascii.ascii_dec x a); [|done].
  by destruct s, s'.
Qed.

Lemma is_absolute_stamped (stamp r r' : string) :
  is_absolute (stamp +:+ "_" +:+ r) = is_absolute (stamp +:+ "_" +:+ r').
Proof.
  unfold is_absolute. destruct stamp as [|a stamp]; [done|].
  by apply prefix_one_char.
Qed.

Lemma candidate_inj w dir ext (k1 k2 : nat) :
  path_join dir (w_stamp w +:+ "_" +:+ pretty k1 +:+ ext)
    = path_join dir (w_stamp w +:+ "_" +:+ pretty k2 +:+ ext) →
  k1 = k2.
Proof.
  unfold path_join.
  rewrite (is_absolute_stamped _ (pretty k1 +:+ ext) (pretty k2 +:+ ext)).
  intros H.
  assert (w_stamp w +:+ "_" +:+ pretty k1 +:+ ext
          = w_stamp w +:+ "_" +:+ pretty k2 +:+ ext) as E.
  { destruct (is_absolute _); [done|]. by do 2 apply String.app_inj in H. }
  do 2 apply String.app_inj in E. apply string_app_inj_r in E.
  by apply pretty_nat_inj in E.
Qed.

Lemma free_name_None w fuel dir ext c :
  free_name w fuel dir ext c = None →
  ∀ k, (c ≤ k < c + fuel)%nat →
    path_join dir (w_stamp w +:+ "_" +:+ pretty k +:+ ext) ∈ w_files w.
Proof.
  revert c. induction fuel as [|fuel IH]; intros c H k Hk; [lia|].
  simpl in H. unfold path_exists in H.
  destruct (bool_decide _) eqn:E; [|done].
  apply bool_decide_eq_true in E.
  destruct (decide (k = c)) as [->|Hne]; [done|].
  apply (IH (S c)); [done | lia].
Qed.

Lemma free_name_total w dir ext :
  is_Some (free_name w (S (length (w_files w))) dir ext 1).
Proof.
  destruct (free_name w (S (length (w_files w))) dir ext 1) eqn:E; [done|].
  pose proof (free_name_None _ _ _ _ _ E) as Hall.
  set (cand := λ k : nat,
         path_join dir (w_stamp w +:+ "_" +:+ pretty k +:+ ext)).
  assert (cand <$> seq 1 (S (length (w_files w))) ⊆+ w_files w) as Hsub.
  { apply NoDup_submseteq.
    - apply NoDup_fmap_2_strong; [|apply NoDup_seq].
      intros k1 k2 _ _. apply candidate_inj.
    - intros x (k & -> & Hk)%list_elem_of_fmap. apply Hall.
      apply elem_of_seq in Hk. lia. }
  apply submseteq_length in Hsub. rewrite length_fmap, length_seq in Hsub. lia.
Qed.

Lemma result_filename_total w dir t : is_Some (result_filename w dir t).
Proof.
  unfold result_filename. destruct (truthy _); [done|].
  destruct (path_exists _ _); [apply free_name_total | done].
Qed.

(** [_handle_image_result] returns unless the directory cannot be made. *)
Lemma handle_image_result_returns w cid tid data s :
  w_mkdir_ok w = true →
  ∃ s', handle_image_result w cid tid data s = Returned s'.
Proof.
  intros Hok. unfold handle_image_result.
  destruct (find_task tid (tasks (tm s))) as [[i t]|]; [|by eexists].
  rewrite Hok. cbn [negb].
  destruct (result_filename_total w (resolve_output_dir w t) t) as [f ->].
  by eexists.
Qed.

(** ** The task ids of the reachable states *)

Lemma find_task_Some tid (ts : list task) i t :
  find_task tid ts = Some (i, t) → ts !! i = Some t ∧ id t = tid.
Proof.
  revert i. induction ts as [|u ts IH]; intros i; simpl; [done|].
  destruct (decide (id u = tid)) as [E|E].
  - by intros [= <- <-].
  - destruct (find_task tid ts) as [[j v]|]; [|done].
    intros [= <- <-]. by apply IH.
Qed.

Lemma task_id_ok_ne (t : task) : task_id_ok t → id t ≠ "".
Proof. unfold task_id_ok. by destruct (id t). Qed.

Lemma new_task_id_ok w p ty ar res refs od row m :
  task_id_ok (new_task w p ty ar res refs od row m).
Proof. unfold task_id_ok, new_task. cbn [id]. apply prefix_app. Qed.

Lemma ids_bind_first tid cid ts :
  Forall task_id_ok ts → Forall task_id_ok (bind_first tid cid ts).
Proof.
  induction 1 as [|t ts Ht Hts IH]; simpl; [done|].
  destruct (decide (id t = tid)); by constructor.
Qed.

Lemma ids_set_detail_first tid d ts :
  Forall task_id_ok ts → Forall task_id_ok (set_detail_first tid d ts).
Proof.
  induction 1 as [|t ts Ht Hts IH]; simpl; [done|].
  destruct (decide (id t = tid)); by constructor.
Qed.

Lemma ids_fmap (f : task → task) ts :
  (∀ t, id (f t) = id t) → Forall task_id_ok ts → Forall task_id_ok (f <$> ts).
Proof.
  intros Hf H. apply Forall_fmap. eapply Forall_impl; [done|].
  intros t Ht. unfold task_id_ok in *. simpl. by rewrite Hf.
Qed.

Lemma ids_insert (f : task → task) i t ts :
  (∀ t, id (f t) = id t) → ts !! i = Some t →
  Forall task_id_ok ts → Forall task_id_ok (<[i := f t]> ts).
Proof.
  intros Hf Hi H. apply Forall_insert; [done|].
  unfold task_id_ok. rewrite Hf. by eapply (Forall_lookup_1 _ _ _ _ H).
Qed.

Lemma ids_alter (f : task → task) i ts :
  (∀ t, id (f t) = id t) →
  Forall task_id_ok ts → Forall task_id_ok (alter f i ts).
Proof.
  intros Hf H. apply Forall_alter; [done|].
  intros t _ Ht. unfold task_id_ok in *. by rewrite Hf.
Qed.

Lemma ids_add_task w p ty ar res refs od row m :
  Forall task_id_ok (tasks m) →
  Forall task_id_ok (tasks (add_task w p ty ar res refs od row m).2).
Proof.
  intros H. unfold add_task. destruct (decide (strip p = [])); [done|].
  simpl. apply Forall_app. split; [done|]. constructor; [|done].
  unfold task_id_ok. cbn [id]. apply prefix_app.
Qed.

Lemma ids_mark_client_busy cid tid m :
  Forall task_id_ok (tasks m) →
  Forall task_id_ok (tasks (mark_client_busy cid tid m)).
Proof.
  rewrite mark_client_busy_tasks. destruct (odict.mem _ _); [|done].
  apply ids_bind_first.
Qed.

Lemma ids_start_if_stopped s :
  Forall task_id_ok (tasks (tm s)) →
  Forall task_id_ok (tasks (tm (start_if_stopped s))).
Proof. by destruct (start_if_stopped_tm s) as (-> & _). Qed.

Lemma ids_ws_close cid s :
  Forall task_id_ok (tasks (tm s)) →
  Forall task_id_ok (tasks (tm (ws_close cid s))).
Proof.
  intros H. unfold ws_close, remove_client. cbn [tm with_tm].
  destruct (odict.get cid _); [|done]. cbn [tasks with_clients with_tasks].
  destruct (truthy _); [|done]. apply ids_fmap; [|done].
  intros t. unfold requeue_assigned. by case_decide.
Qed.

Lemma ids_handle_image_result w cid tid data s :
  Forall task_id_ok (tasks (tm s)) →
  Forall task_id_ok
    (tasks (tm (match handle_image_result w cid tid data s with
                | Returned s' => s'
                | Raised s' => ws_close cid s'
                end))).
Proof.
  intros H.
  pose proof (ids_ws_close cid s H) as Hclose.
  unfold handle_image_result.
  destruct (find_task tid (tasks (tm s))) as [[i t]|] eqn:E.
  - apply find_task_Some in E as [Hi _].
    destruct (negb (w_mkdir_ok w)); [done|].
    destruct (result_filename w (resolve_output_dir w t) t); [|done].
    cbn [tm with_tm]. rewrite mark_client_idle_tasks.
    cbn [tasks with_tasks emit tm].
    destruct (save_base64_file w s0 (resolve_output_dir w t)).
    + apply (ids_insert (saved_task w _ _)); [|done..].
      intros u. unfold saved_task. by destruct (is_image_ext _).
    + by apply (ids_insert (save_failed_task w)).
  - cbn [tm with_tm]. by rewrite mark_client_idle_tasks.
Qed.

Lemma ids_step o s :
  Forall task_id_ok (tasks (tm s)) → Forall task_id_ok (tasks (tm (step o s))).
Proof.
  intros H. destruct o; cbn [step].
  - done.
  - done.
  - unfold ws_message, ws_handle.
    destruct msg as [tid ci n data|tid data|tid e|m|].
    + destruct (negb (truthy tid)); [done|].
      destruct (_ && _); [|done].
      destruct (join_chunks _ _).
      * by apply ids_handle_image_result.
      * by apply ids_ws_close.
    + destruct (negb (truthy tid)); [done|].
      by apply ids_handle_image_result.
    + cbn [tm with_tm]. rewrite mark_client_idle_tasks.
      destruct (_ && _); [|done].
      destruct (find_task _ _) as [[i t]|] eqn:E; [|done].
      apply find_task_Some in E as [Hi _]. cbn [tm with_tm tasks with_tasks].
      by apply (ids_insert (failed_task w _)).
    + destruct (odict.get cid _); [|done].
      destruct (truthy _); [|done]. cbn [tm with_tm].
      by apply ids_set_detail_first.
    + done.
  - by apply ids_ws_close.
  - unfold execute_tasks_iter.
    destruct (negb (is_running (tm s))); [done|].
    destruct (get_next_task (check_timeout_tasks w (tm s)).2) as [nxt tm2] eqn:E.
    assert (Forall task_id_ok (tasks tm2)) as H2.
    { pose proof (f_equal snd E) as E'. simpl in E'. rewrite <- E'.
      rewrite check_timeout_tasks_spec. cbn [snd tasks with_tasks with_clients
                                              with_index].
      apply ids_fmap; [|done]. intros t. unfold sweep_task.
      by destruct (timed_out _ _). }
    destruct nxt as [t|].
    2:{ by destruct (existsb _ _). }
    apply get_next_task_Some in E as (_ & Hi & _).
    destruct ((get_client_count tm2).1 =? 0)%nat; [done|].
    destruct (get_idle_client w tm2) as [[cid info]|]; [|done].
    destruct (_ && _).
    + cbn [tm with_tm tasks with_tasks with_index].
      apply (ids_insert (skip_task w)); [|done..].
      intros u. unfold skip_task. by destruct (is_image_ext _).
    + assert (Forall task_id_ok
                (tasks (mark_client_busy cid (id t)
                          (with_tasks
                             (<[current_index tm2 := assign_task w t]> (tasks tm2))
                             tm2)))) as H4.
      { apply ids_mark_client_busy. cbn [tasks with_tasks].
        by apply (ids_insert (assign_task w)). }
      destruct (w_send_ok w); cbn [tm with_tm emit tasks with_index]; [done|].
      rewrite mark_client_idle_tasks. cbn [tasks with_tasks].
      by apply ids_alter.
  - unfold chat_completions.
    destruct (decide (strip prompt0 = [])) as [|Hp]; [done|].
    destruct (_ && _); [done|].
    destruct (_ <? _); [done|].
    destruct ((get_client_count (tm s)).1 =? 0)%nat; [done|].
    rewrite add_task_not_blank by by rewrite strip_blank_iff, <- strip_nil.
    set (t := new_task w (strip prompt0) (cfg_task_type cfg)
                (cfg_aspect_ratio cfg) (cfg_resolution cfg) (Some images)
                None None (tm s)).
    cbn [snd].
    match goal with
    | |- context [if negb (is_running (tm ?x)) && api_instance then _ else _] =>
        destruct (maybe_start_tm api_instance x) as (-> & _)
    end.
    assert (Forall task_id_ok (tasks (tm s) ++ [t])) as H1.
    { apply Forall_app. split; [done|]. constructor; [|done].
      apply new_task_id_ok. }
    destruct (get_idle_client w _) as [[cid info]|]; [|done].
    assert (Forall task_id_ok
              (tasks (mark_client_busy cid (id t)
                        (with_tasks
                           (<[length (tasks (tm s)) := assign_task w t]>
                              (tasks (tm s) ++ [t]))
                           (with_tasks (tasks (tm s) ++ [t]) (tm s)))))) as H3.
    { apply ids_mark_client_busy. cbn [tasks with_tasks].
      apply (ids_insert (assign_task w)); [done| |done].
      by rewrite list_lookup_middle. }
    destruct (w_send_ok w); cbn [tm with_tm emit]; [done|].
    rewrite mark_client_idle_tasks. cbn [tasks with_tasks].
    by apply ids_alter.
  - by apply ids_add_task.
  - by apply ids_add_task.
  - unfold retry_task. destruct (_ || _); [done|].
    destruct (tasks (tm s) !! Z.to_nat task_index) eqn:E; [|done].
    destruct (negb _); [done|]. cbn [snd].
    apply ids_start_if_stopped. cbn [tm with_tm tasks with_tasks with_index].
    by apply (ids_insert reset_task).
  - unfold retry_all_failed.
    destruct (failed_indices 0 (tasks (tm s))); [done|]. cbn [snd].
    apply ids_start_if_stopped. cbn [tm with_tm tasks with_tasks with_index].
    apply ids_fmap; [|done]. intros t. unfold reset_if_failed.
    by destruct (retryable _).
  - unfold run_single_task. destruct (_ || _); [done|].
    destruct (tasks (tm s) !! Z.to_nat task_index) eqn:E; [|done].
    destruct (negb _); [done|].
    destruct ((get_client_count (tm s)).1 =? 0)%nat; [done|]. cbn [snd].
    apply ids_start_if_stopped. cbn [tm with_tm tasks with_tasks].
    destruct (decide _); [done|]. unfold move_to.
    assert (Forall task_id_ok
              (take (Z.to_nat task_index) (tasks (tm s)) ++
               drop (S (Z.to_nat task_index)) (tasks (tm s)))) as H'.
    { apply Forall_app. split; [by apply Forall_take | by apply Forall_drop]. }
    apply Forall_app. split; [by apply Forall_take|].
    constructor; [|by apply Forall_drop].
    by eapply (Forall_lookup_1 _ _ _ _ H).
  - done.
  - by destruct (start_execution_tm s) as (-> & _).
  - done.
Qed.

(** Every task of a reachable state has an id that starts with "task_". *)
Lemma reachable_task_ids s :
  reachable s → Forall task_id_ok (tasks (tm s)).
Proof.
  intros [ops ->]. induction ops as [|o ops IH] using rev_ind; [done|].
  rewrite run_snoc. by apply ids_step.
Qed.

(** ** Disconnects and timeouts in the reachable states *)

(** C2 as stated fails, whether "no assigned worker" is read of the task
    record or of the registry: in the state the two-worker run reaches, the
    second task is assigned and held by the second worker; after that worker
    is removed the task is queued, but its [client_id] still names the
    removed worker, and the first worker, still registered, holds its id. *)
Lemma remove_client_keeps_binding :
  ¬ (∀ s cid c i t,
       reachable s →
       odict.get cid (clients (tm s)) = Some c → task_id c = Some (id t) →
       tasks (tm s) !! i = Some t → t_status t = Assigned →
       ∃ t', tasks (tm (ws_close cid s)) !! i = Some t' ∧
             t_status t' = Queued ∧ t_status t' ≠ Failed ∧
             (client_id t' = None ∨ unheld (id t') (tm (ws_close cid s)))).
Proof.
  intros H.
  destruct (H (run two_holders_run server_init) "c1_0"
              (mkClient "B" true (Some "task_1_000001000000") 2
                 (Some 610000000)) 1%nat
              (mkTask "task_1_000001000000" [104; 105]%N Assigned "" ".png"
                 None (Some "c1_0") "Create Image" "16:9" "1K" [] (Some 620000000)
                 None None None None None))
    as (t' & Ht' & _ & _ & Hbind).
  - by exists two_holders_run.
  - vm_compute. reflexivity.
  - reflexivity.
  - vm_compute. reflexivity.
  - reflexivity.
  - assert (tasks (tm (ws_close "c1_0" (run two_holders_run server_init)))
              !! 1%nat
            = Some (mkTask "task_1_000001000000" [104; 105]%N Queued "" ".png"
                      None (Some "c1_0") "Create Image" "16:9" "1K" []
                      (Some 620000000) None None None None None)) as E
      by (vm_compute; reflexivity).
    rewrite E in Ht'. injection Ht' as <-.
    destruct Hbind as [Hc | Hun]; [discriminate Hc|].
    apply (Hun "c0_0" (mkClient "A" true (Some "task_1_000001000000") 1
                         (Some 5000000))); [|reflexivity].
    unfold registered.
    assert (clients (tm (ws_close "c1_0" (run two_holders_run server_init)))
            = [("c0_0", mkClient "A" true (Some "task_1_000001000000") 1
                          (Some 5000000))]) as ->
      by (vm_compute; reflexivity).
    apply list_elem_of_here.
Qed.

(** C2, amended.  When a registered worker holding the id of an assigned
    task is removed, that task is queued afterwards and every other field of
    it, its [client_id] included, is as before; the worker is no longer in
    the registry and the other workers are as before; and no task has status
    failed after the removal unless it had it before.  The [finally] block of
    the socket handler is this removal.  In a reachable state the task ids
    are not empty, so this holds of every worker and task there. *)
Theorem remove_client_requeues :
  (∀ cid m c i t,
     odict.get cid (clients m) = Some c → task_id c = Some (id t) →
     id t ≠ "" →
     tasks m !! i = Some t → t_status t = Assigned →
     tasks (remove_client cid m) !! i = Some (set_status Queued t) ∧
     t_status (set_status Queued t) = Queued ∧
     client_id (set_status Queued t) = client_id t ∧
     odict.get cid (clients (remove_client cid m)) = None ∧
     (∀ cid', cid' ≠ cid →
        odict.get cid' (clients (remove_client cid m))
          = odict.get cid' (clients m)) ∧
     (∀ j u, tasks (remove_client cid m) !! j = Some u → t_status u = Failed →
        ∃ u0, tasks m !! j = Some u0 ∧ t_status u0 = Failed) ∧
     (∀ s, tm s = m → tm (ws_close cid s) = remove_client cid m)) ∧
  (∀ s cid c i t,
     reachable s →
     odict.get cid (clients (tm s)) = Some c → task_id c = Some (id t) →
     tasks (tm s) !! i = Some t → t_status t = Assigned →
     tasks (tm (ws_close cid s)) !! i = Some (set_status Queued t) ∧
     odict.get cid (clients (tm (ws_close cid s))) = None ∧
     (∀ j u, tasks (tm (ws_close cid s)) !! j = Some u → t_status u = Failed →
        ∃ u0, tasks (tm s) !! j = Some u0 ∧ t_status u0 = Failed)).
Proof.
  split; [apply remove_client_requeues_at|].
  intros s cid c i t Hr Hc Htid Hi Hst.
  assert (id t ≠ "") as Hne.
  { apply task_id_ok_ne.
    by eapply (Forall_lookup_1 _ _ _ _ (reachable_task_ids s Hr)). }
  destruct (remove_client_requeues_at cid (tm s) c i t Hc Htid Hne Hi Hst)
    as (H1 & _ & _ & H2 & _ & H3 & _).
  by split_and!.
Qed.

Lemma remove_client_requeues_witness :
  tasks (remove_client "c0_0" (tm assigned_example)) !! 0%nat
    = Some (set_status Queued assigned_task_example) ∧
  odict.get "c0_0" (clients (remove_client "c0_0" (tm assigned_example)))
    = None ∧
  tasks (tm (ws_close "c0_0" assigned_example)) !! 0%nat
    = Some (set_status Queued assigned_task_example).
Proof.
  destruct remove_client_requeues as [Hany Hreach].
  destruct (Hany "c0_0" (tm assigned_example) busy_client_example 0%nat
              assigned_task_example)
    as (H1 & _ & _ & H2 & _); try reflexivity; [discriminate|].
  destruct (Hreach assigned_example "c0_0" busy_client_example 0%nat
              assigned_task_example) as (H3 & _); try reflexivity.
  { by eexists. }
  split_and!; [exact H1 | exact H2 | exact H3].
Defined.

(** C5.  One sweep takes an assigned task whose start time is more than the
    timeout before the current time to timed out, with the current time as
    end time and the timeout text as detail, and returns it; the worker its
    [client_id] names stays registered and is afterwards not busy and without
    task id.  A task that is not assigned is left as it is by a sweep, so the
    task just timed out is left as it is by every later sweep.  In a
    reachable state no worker is registered under an empty id, so there the
    release holds of whatever worker the [client_id] names. *)
Theorem timeout_sweep_assigned :
  (∀ w m i t st,
     tasks m !! i = Some t → t_status t = Assigned →
     start_time t = Some st →
     TASK_TIMEOUT_SECONDS * MICRO < w_now w - st →
     ∃ t',
       tasks (check_timeout_tasks w m).2 !! i = Some t' ∧
       t' ∈ (check_timeout_tasks w m).1 ∧
       t_status t' = TimedOut ∧ end_time t' = Some (w_now w) ∧
       status_detail t' = detail_timeout_of TASK_TIMEOUT_SECONDS ∧
       t' = expire (w_now w) t ∧
       (∀ cid, client_id t = Some cid → cid ≠ "" →
          (clients (check_timeout_tasks w m).2).*1 = (clients m).*1 ∧
          ∀ c, odict.get cid (clients (check_timeout_tasks w m).2) = Some c →
               busy c = false ∧ task_id c = None) ∧
       (∀ j u, tasks m !! j = Some u → t_status u ≠ Assigned →
          tasks (check_timeout_tasks w m).2 !! j = Some u) ∧
       (∀ w', tasks (check_timeout_tasks w' (check_timeout_tasks w m).2).2 !! i
                = Some t')) ∧
  (∀ s w i t st cid c,
     reachable s →
     tasks (tm s) !! i = Some t → t_status t = Assigned →
     start_time t = Some st →
     TASK_TIMEOUT_SECONDS * MICRO < w_now w - st →
     client_id t = Some cid →
     odict.get cid (clients (check_timeout_tasks w (tm s)).2) = Some c →
     busy c = false ∧ task_id c = None).
Proof.
  split; [apply check_timeout_tasks_at|].
  intros s w i t st cid c Hr Hi Hst Hstart Hlate Hcid Hget.
  destruct (check_timeout_tasks_at w (tm s) i t st Hi Hst Hstart Hlate)
    as (t' & _ & _ & _ & _ & _ & _ & Hrel & _).
  destruct (Hrel cid Hcid) as [Hkeys Hidle]; [|by apply Hidle].
  intros ->. apply odict_get_elem_of in Hget.
  assert ("" ∈ (clients (check_timeout_tasks w (tm s)).2).*1) as Hin.
  { apply list_elem_of_fmap. by exists ("", c). }
  rewrite check_timeout_tasks_spec in Hin.
  cbn [snd clients with_clients] in Hin. rewrite sweep_clients_keys in Hin.
  pose proof (reachable_clients_keys_ok s Hr) as Hok.
  by apply (proj1 (Forall_forall _ _) Hok) in Hin.
Qed.

Lemma timeout_sweep_assigned_witness :
  (∃ t',
     tasks (check_timeout_tasks (at_time 700 world0) (tm assigned_example)).2
       !! 0%nat = Some t' ∧
     t_status t' = TimedOut) ∧
  ∀ c, odict.get "c0_0"
         (clients (check_timeout_tasks (at_time 700 world0)
                     (tm assigned_example)).2) = Some c →
       busy c = false ∧ task_id c = None.
Proof.
  destruct timeout_sweep_assigned as [Hany Hreach]. split.
  - destruct (Hany (at_time 700 world0) (tm assigned_example) 0%nat
                assigned_task_example 0)
      as (t' & H1 & _ & H2 & _); try reflexivity.
    exists t'. split; [exact H1 | exact H2].
  - intros c.
    apply (Hreach assigned_example (at_time 700 world0) 0%nat
             assigned_task_example 0 "c0_0" c); try reflexivity.
    by eexists.
Defined.

(** ** The task ids of a store are pairwise distinct *)

Lemma pretty_N_go_length (k : nat) (x : N) (s : string) :
  (x < 10 ^ N.of_nat k)%N →
  (String.length (pretty_N_go x s) ≤ String.length s + k)%nat.
Proof.
  revert x s. induction k as [|k IH]; intros x s Hx.
  - assert (x = 0%N) as -> by (simpl in Hx; lia).
    rewrite pretty_N_go_0. lia.
  - destruct (decide (x = 0%N)) as [->|Hne].
    { rewrite pretty_N_go_0. lia. }
    rewrite pretty_N_go_step by lia.
    etrans; [apply IH|simpl; lia].
    rewrite Nat2N.inj_succ, N.pow_succ_r' in Hx.
    apply N.Div0.div_lt_upper_bound. lia.
Qed.

Lemma pretty_Z_length (k : nat) (n : Z) :
  (0 < k)%nat → 0 ≤ n < 10 ^ Z.of_nat k →
  (String.length (pretty n) ≤ k)%nat.
Proof.
  intros Hk [H0 Hn]. destruct n as [|p|p]; [simpl; lia | | lia].
  change (pretty (Z.pos p)) with (pretty (N.pos p)).
  unfold pretty, pretty_N. rewrite decide_False by done.
  etrans; [apply (pretty_N_go_length k)|simpl; lia].
  assert (Z.of_N (N.pos p) < Z.of_N (10 ^ N.of_nat k)); [|lia].
  rewrite N2Z.inj_pow, nat_N_Z. simpl. lia.
Qed.

Lemma length_concat_zeros (k : nat) :
  String.length (String.concat "" (replicate k "0")) = k.
Proof.
  induction k as [|k IH]; [done|].
  destruct k as [|k]; [done|].
  change (String.concat "" (replicate (S (S k)) "0"))
    with ("0" +:+ "" +:+ String.concat "" (replicate (S k) "0")).
  rewrite !string_length_app, IH. simpl. lia.
Qed.

Lemma zpad_length (k : nat) (n : Z) :
  (0 < k)%nat → 0 ≤ n < 10 ^ Z.of_nat k → String.length (zpad k n) = k.
Proof.
  intros Hk Hn. unfold zpad.
  pose proof (pretty_Z_length k n Hk Hn).
  rewrite string_length_app, length_concat_zeros. lia.
Qed.

(** [strftime('%H%M%S%f')] is twelve characters long. *)
Lemma strftime_HMSf_length (now : Z) : String.length (strftime_HMSf now) = 12%nat.
Proof.
  unfold strftime_HMSf, MICRO.
  set (tod := now `mod` (86400 * 1000000)).
  assert (0 ≤ tod < 86400 * 1000000) as Htod by (apply Z.mod_pos_bound; lia).
  rewrite !string_length_app.
  rewrite (zpad_length 2), (zpad_length 2), (zpad_length 2), (zpad_length 6);
    [done|lia| |lia| |lia| |lia|].
  - change (10 ^ Z.of_nat 6) with 1000000. apply Z.mod_pos_bound. lia.
  - change (10 ^ Z.of_nat 2) with 100.
    pose proof (Z.mod_pos_bound (tod `div` 1000000) 60). lia.
  - change (10 ^ Z.of_nat 2) with 100.
    pose proof (Z.mod_pos_bound (tod `div` (60 * 1000000)) 60). lia.
  - change (10 ^ Z.of_nat 2) with 100. split.
    + apply Z.div_pos; lia.
    + apply Z.div_lt_upper_bound; lia.
Qed.

Lemma string_app_inj_length (a b x y : string) :
  a +:+ x = b +:+ y → String.length x = String.length y → a = b.
Proof.
  revert b. induction a as [|c a IH]; intros [|d b] H Hlen; simpl in *.
  - done.
  - apply (f_equal String.length) in H. simpl in H.
    rewrite !string_length_app in H. simpl in H. lia.
  - apply (f_equal String.length) in H. simpl in H.
    rewrite !string_length_app in H. simpl in H. lia.
  - injection H as -> H. f_equal. by apply IH.
Qed.

(** The id determines the length at which the task was created. *)
Lemma task_id_of_inj k1 k2 now1 now2 :
  task_id_of k1 now1 = task_id_of k2 now2 → k1 = k2.
Proof.
  unfold task_id_of. intros H. apply String.app_inj in H.
  apply string_app_inj_length in H.
  - by apply pretty_nat_inj in H.
  - by rewrite !string_length_app, !strftime_HMSf_length.
Qed.

Lemma ids_wf_nil : ids_wf [].
Proof. split; [apply NoDup_nil_2 | by intros i ?%elem_of_nil]. Qed.

Lemma ids_wf_snoc ids now :
  ids_wf ids → ids_wf (ids ++ [task_id_of (length ids) now]).
Proof.
  intros [Hnd Hids]. split.
  - apply NoDup_app. split_and!; [done| |apply NoDup_singleton].
    intros i Hi ->%list_elem_of_singleton.
    destruct (Hids _ Hi) as (k & now' & Hk & E).
    apply task_id_of_inj in E. lia.
  - intros i [Hi|Hi]%elem_of_app; rewrite length_app; simpl.
    + destruct (Hids _ Hi) as (k & now' & Hk & ->).
      exists k, now'. split; [lia | done].
    + apply list_elem_of_singleton in Hi as ->.
      exists (length ids), now. split; [lia | done].
Qed.

Lemma ids_wf_perm ids ids' : ids ≡ₚ ids' → ids_wf ids → ids_wf ids'.
Proof.
  intros Hp [Hnd Hids]. split; [by rewrite <- Hp|].
  intros i Hi. rewrite <- Hp in Hi. destruct (Hids _ Hi) as (k & now & Hk & ->).
  exists k, now. split; [|done]. by rewrite <- Hp.
Qed.

Lemma fmap_id_insert (ts : list task) i t t' :
  ts !! i = Some t → id t' = id t → id <$> <[i := t']> ts = id <$> ts.
Proof.
  intros Hi E. rewrite list_fmap_insert, E. apply list_insert_id.
  by rewrite list_lookup_fmap, Hi.
Qed.

Lemma fmap_id_alter (f : task → task) (ts : list task) i :
  (∀ t, id (f t) = id t) → id <$> alter f i ts = id <$> ts.
Proof.
  intros Hf. rewrite (list_fmap_alter id f (λ x, x)).
  - by apply list_alter_id.
  - by apply Forall_true.
Qed.

Lemma fmap_id_fmap (f : task → task) (ts : list task) :
  (∀ t, id (f t) = id t) → id <$> (f <$> ts) = id <$> ts.
Proof.
  intros Hf. rewrite <- list_fmap_compose. apply list_fmap_ext.
  intros _ t _. apply Hf.
Qed.

Lemma fmap_id_bind_first tid cid ts :
  id <$> bind_first tid cid ts = id <$> ts.
Proof.
  induction ts as [|t ts IH]; simpl; [done|].
  destruct (decide (id t = tid)); simpl; by f_equal.
Qed.

Lemma fmap_id_set_detail_first tid d ts :
  id <$> set_detail_first tid d ts = id <$> ts.
Proof.
  induction ts as [|t ts IH]; simpl; [done|].
  destruct (decide (id t = tid)); simpl; by f_equal.
Qed.

Lemma move_to_perm i j t (ts : list task) :
  ts !! i = Some t → move_to i j t ts ≡ₚ ts.
Proof.
  intros Hi. unfold move_to.
  set (ts' := take i ts ++ drop (S i) ts).
  rewrite <- Permutation_middle, (take_drop j ts').
  unfold ts'. rewrite Permutation_middle. by rewrite take_drop_middle.
Qed.

Lemma ids_remove_client cid m :
  id <$> tasks (remove_client cid m) = id <$> tasks m.
Proof.
  unfold remove_client. destruct (odict.get cid _); [|done].
  cbn [tasks with_clients with_tasks]. destruct (truthy _); [|done].
  apply fmap_id_fmap. intros t. unfold requeue_assigned. by case_decide.
Qed.

Lemma ids_check_timeout_tasks w m :
  id <$> tasks (check_timeout_tasks w m).2 = id <$> tasks m.
Proof.
  rewrite check_timeout_tasks_spec. cbn [snd tasks with_tasks with_clients].
  apply fmap_id_fmap. intros t. unfold sweep_task. by destruct (timed_out _ _).
Qed.

Lemma ids_mark_client_busy_eq cid tid m :
  id <$> tasks (mark_client_busy cid tid m) = id <$> tasks m.
Proof.
  rewrite mark_client_busy_tasks. destruct (odict.mem _ _); [|done].
  apply fmap_id_bind_first.
Qed.

Lemma ids_handle_image_result_eq w cid tid data s :
  id <$> tasks (tm (match handle_image_result w cid tid data s with
                    | Returned s' => s'
                    | Raised s' => ws_close cid s'
                    end)) = id <$> tasks (tm s).
Proof.
  unfold handle_image_result.
  destruct (find_task tid (tasks (tm s))) as [[i t]|] eqn:E.
  - apply find_task_Some in E as [Hi _].
    destruct (negb (w_mkdir_ok w)); [apply ids_remove_client|].
    destruct (result_filename w (resolve_output_dir w t) t);
      [|apply ids_remove_client].
    cbn [tm with_tm]. rewrite mark_client_idle_tasks.
    cbn [tasks with_tasks emit tm].
    apply (fmap_id_insert _ _ t); [done|].
    destruct (save_base64_file w s0 (resolve_output_dir w t)); [|done].
    unfold saved_task. by destruct (is_image_ext _).
  - cbn [tm with_tm]. by rewrite mark_client_idle_tasks.
Qed.

Lemma ids_ws_message_eq w cid msg s :
  id <$> tasks (tm (ws_message w cid msg s)) = id <$> tasks (tm s).
Proof.
  unfold ws_message, ws_handle.
  destruct msg as [tid ci n data|tid data|tid e|m|].
  - destruct (negb (truthy tid)); [done|].
    destruct (_ && _); [|done].
    destruct (join_chunks _ _).
    + apply (ids_handle_image_result_eq w cid (default "" tid) s0
               (with_chunk_buffer _ (with_chunk_buffer _ s))).
    + apply (ids_remove_client cid (tm s)).
  - destruct (negb (truthy tid)); [done|].
    apply ids_handle_image_result_eq.
  - cbn [tm with_tm]. rewrite mark_client_idle_tasks.
    destruct (_ && _); [|done].
    destruct (find_task _ _) as [[i t]|] eqn:E; [|done].
    apply find_task_Some in E as [Hi _]. cbn [tm with_tm tasks with_tasks].
    by apply (fmap_id_insert _ _ t).
  - destruct (odict.get cid _); [|done].
    destruct (truthy _); [|done]. cbn [tm with_tm].
    apply fmap_id_set_detail_first.
  - done.
Qed.

Lemma ids_add_task_eq w p ty ar res refs od row m :
  ids_change (id <$> tasks m)
    (id <$> tasks (add_task w p ty ar res refs od row m).2).
Proof.
  unfold add_task. destruct (decide (strip p = [])); [by left|].
  right; left. exists (w_now w). cbn [snd tasks with_tasks].
  rewrite fmap_app, length_fmap. done.
Qed.

Lemma ids_execute_tasks_iter_eq w s :
  id <$> tasks (tm (execute_tasks_iter w s)) = id <$> tasks (tm s).
Proof.
  unfold execute_tasks_iter.
  destruct (negb (is_running (tm s))); [done|].
  destruct (get_next_task (check_timeout_tasks w (tm s)).2) as [nxt tm2] eqn:E.
  assert (id <$> tasks tm2 = id <$> tasks (tm s)) as H2.
  { pose proof (f_equal snd E) as E'. simpl in E'. rewrite <- E'.
    apply (ids_check_timeout_tasks w (tm s)). }
  destruct nxt as [t|].
  2:{ by destruct (existsb _ _). }
  apply get_next_task_Some in E as (_ & Hi & _).
  destruct ((get_client_count tm2).1 =? 0)%nat; [done|].
  destruct (get_idle_client w tm2) as [[cid info]|]; [|done].
  destruct (_ && _).
  - cbn [tm with_tm tasks with_tasks with_index]. rewrite <- H2.
    apply (fmap_id_insert _ _ t); [done|].
    unfold skip_task. by destruct (is_image_ext _).
  - assert (id <$> tasks (mark_client_busy cid (id t)
                            (with_tasks
                               (<[current_index tm2 := assign_task w t]>
                                  (tasks tm2)) tm2))
            = id <$> tasks (tm s)) as H4.
    { rewrite ids_mark_client_busy_eq. cbn [tasks with_tasks]. rewrite <- H2.
      by apply (fmap_id_insert _ _ t). }
    destruct (w_send_ok w); cbn [tm with_tm emit tasks with_index]; [done|].
    rewrite mark_client_idle_tasks. cbn [tasks with_tasks].
    by rewrite fmap_id_alter.
Qed.

Lemma ids_chat_completions w cfg p imgs api s :
  ids_change (id <$> tasks (tm s))
    (id <$> tasks (tm (chat_completions w cfg p imgs api s).2)).
Proof.
  unfold chat_completions.
  destruct (decide (strip p = [])) as [|Hp]; [by left|].
  destruct (_ && _); [by left|].
  destruct (_ <? _); [by left|].
  destruct ((get_client_count (tm s)).1 =? 0)%nat; [by left|].
  rewrite add_task_not_blank by by rewrite strip_blank_iff, <- strip_nil.
  set (t := new_task w (strip p) (cfg_task_type cfg) (cfg_aspect_ratio cfg)
              (cfg_resolution cfg) (Some imgs) None None (tm s)).
  cbn [snd].
  match goal with
  | |- context [if negb (is_running (tm ?x)) && api then _ else _] =>
      destruct (maybe_start_tm api x) as (-> & _)
  end.
  right; left. exists (w_now w).
  assert (id <$> (tasks (tm s) ++ [t])
          = (id <$> tasks (tm s))
              ++ [task_id_of (length (id <$> tasks (tm s))) (w_now w)]) as H1.
  { by rewrite fmap_app, length_fmap. }
  destruct (get_idle_client w _) as [[cid info]|]; [|done].
  assert (id <$> tasks (mark_client_busy cid (id t)
                          (with_tasks
                             (<[length (tasks (tm s)) := assign_task w t]>
                                (tasks (tm s) ++ [t]))
                             (with_tasks (tasks (tm s) ++ [t]) (tm s))))
          = id <$> (tasks (tm s) ++ [t])) as H3.
  { rewrite ids_mark_client_busy_eq. cbn [tasks with_tasks].
    apply (fmap_id_insert _ _ t); [|done]. by rewrite list_lookup_middle. }
  destruct (w_send_ok w); cbn [tm with_tm emit].
  - cbn [tasks with_tasks]. by rewrite H3.
  - rewrite mark_client_idle_tasks. cbn [tasks with_tasks].
    by rewrite fmap_id_alter, H3.
Qed.

Lemma ids_change_step o s :
  ids_change (id <$> tasks (tm s)) (id <$> tasks (tm (step o s))).
Proof.
  destruct o; cbn [step].
  - by left.
  - by left.
  - left. apply ids_ws_message_eq.
  - left. apply (ids_remove_client cid (tm s)).
  - left. apply ids_execute_tasks_iter_eq.
  - apply ids_chat_completions.
  - apply ids_add_task_eq.
  - apply ids_add_task_eq.
  - left. unfold retry_task. destruct (_ || _); [done|].
    destruct (tasks (tm s) !! Z.to_nat task_index) eqn:E; [|done].
    destruct (negb _); [done|]. cbn [snd].
    match goal with |- context [start_if_stopped ?x] =>
      destruct (start_if_stopped_tm x) as (-> & _) end.
    cbn [tm with_tm tasks with_tasks with_index].
    by apply (fmap_id_insert _ _ t).
  - left. unfold retry_all_failed.
    destruct (failed_indices 0 (tasks (tm s))); [done|]. cbn [snd].
    match goal with |- context [start_if_stopped ?x] =>
      destruct (start_if_stopped_tm x) as (-> & _) end.
    cbn [tm with_tm tasks with_tasks with_index].
    apply fmap_id_fmap. intros t. unfold reset_if_failed.
    by destruct (retryable _).
  - unfold run_single_task. destruct (_ || _); [by left|].
    destruct (tasks (tm s) !! Z.to_nat task_index) eqn:E; [|by left].
    destruct (negb _); [by left|].
    destruct ((get_client_count (tm s)).1 =? 0)%nat; [by left|]. cbn [snd].
    match goal with |- context [start_if_stopped ?x] =>
      destruct (start_if_stopped_tm x) as (-> & _) end.
    cbn [tm with_tm tasks with_tasks].
    destruct (decide _); [by left|].
    right; right; left. apply fmap_Permutation. by apply move_to_perm.
  - right; right; right. done.
  - left. by destruct (start_execution_tm s) as (-> & _).
  - by left.
Qed.

Lemma ids_change_wf ids ids' : ids_change ids ids' → ids_wf ids → ids_wf ids'.
Proof.
  intros [-> | [[now ->] | [Hp | ->]]] H.
  - done.
  - by apply ids_wf_snoc.
  - by apply (ids_wf_perm ids).
  - apply ids_wf_nil.
Qed.

Lemma reachable_ids_wf s : reachable s → ids_wf (id <$> tasks (tm s)).
Proof.
  intros [ops ->]. induction ops as [|o ops IH] using rev_ind.
  - apply ids_wf_nil.
  - rewrite run_snoc. by apply (ids_change_wf _ _ (ids_change_step o _)).
Qed.

(** ** Choosing a worker and a task *)

Lemma ineligible_iff now c :
  negb (busy c) && negb (in_cooldown now c) = false ↔ ineligible now c.
Proof.
  unfold ineligible, in_cooldown. destruct (busy c); simpl.
  - split; [by left | done].
  - destruct (last_task_end c) as [e|]; simpl.
    + rewrite negb_false_iff, Z.ltb_lt. split.
      * intros H. right. by exists e.
      * intros [?|(e' & [= <-] & H)]; done.
    + split; [done|]. intros [?|(e' & ? & _)]; done.
Qed.

(** X1.  [get_idle_client] returns the first worker, in registration order,
    that is not busy and whose cooldown (3 seconds after the end of its last
    task) has elapsed: every worker before it in the dict is busy or cooling
    down; it returns nothing exactly when every worker is. *)
Theorem get_idle_client_first :
  ∀ w m,
    (∀ cid info,
       get_idle_client w m = Some (cid, info) ↔
       ∃ pre post,
         clients m = pre ++ (cid, info) :: post ∧
         ¬ ineligible (w_now w) info ∧
         Forall (λ e, ineligible (w_now w) e.2) pre) ∧
    (get_idle_client w m = None ↔
     Forall (λ e, ineligible (w_now w) e.2) (clients m)).
Proof.
  intros w m. unfold get_idle_client. generalize (clients m) as cs.
  intros cs. split.
  - intros cid info. induction cs as [|[k c] cs IH]; simpl.
    + split; [done|]. intros (pre & post & E & _). by destruct pre.
    + destruct (negb (busy c) && negb (in_cooldown (w_now w) c)) eqn:El.
      * split.
        -- intros [= -> ->]. exists [], cs. split_and!; [done| |done].
           rewrite <- ineligible_iff. by rewrite El.
        -- intros (pre & post & E & Hel & Hpre).
           destruct pre as [|[k' c'] pre]; simpl in E.
           ++ by injection E as -> -> _.
           ++ injection E as -> -> _. apply Forall_cons in Hpre as [Hc _].
              apply ineligible_iff in Hc. simpl in Hc. congruence.
      * rewrite IH. apply ineligible_iff in El. split.
        -- intros (pre & post & -> & Hel & Hpre).
           exists ((k, c) :: pre), post. split_and!; [done..|].
           by constructor.
        -- intros (pre & post & E & Hel & Hpre).
           destruct pre as [|[k' c'] pre]; simpl in E.
           ++ injection E as -> -> _. done.
           ++ injection E as -> -> ->. apply Forall_cons in Hpre as [_ Hpre].
              by exists pre, post.
  - induction cs as [|[k c] cs IH]; simpl; [done|].
    destruct (negb (busy c) && negb (in_cooldown (w_now w) c)) eqn:El.
    + split; [done|]. intros [Hc _]%Forall_cons.
      apply ineligible_iff in Hc. simpl in Hc. congruence.
    + rewrite IH. apply ineligible_iff in El. split.
      * intros H. by constructor.
      * by intros [_ H]%Forall_cons.
Qed.

Lemma scan_queued_spec i (ts : list task) :
  ∃ k, (scan_queued i ts).1 = (i + k)%nat ∧ (k ≤ length ts)%nat ∧
       Forall (λ t, t_status t ≠ Queued) (take k ts) ∧
       match (scan_queued i ts).2 with
       | Some t => ts !! k = Some t ∧ t_status t = Queued
       | None => k = length ts
       end.
Proof.
  revert i. induction ts as [|u ts IH]; intros i; simpl.
  - exists 0%nat. split_and!; [lia | done..].
  - destruct (decide (t_status u = Queued)) as [E|E]; simpl.
    + exists 0%nat. split_and!; [lia | lia | done..].
    + destruct (IH (S i)) as (k & H1 & H2 & H3 & H4).
      exists (S k). split_and!; [lia | lia | by constructor |].
      destruct (scan_queued (S i) ts).2; [done | by f_equal].
Qed.

Lemma get_next_task_index_le m :
  (current_index m ≤ current_index (get_next_task m).2)%nat.
Proof.
  unfold get_next_task. cbn [snd current_index with_index].
  destruct (scan_queued_spec (current_index m)
              (drop (current_index m) (tasks m))) as (k & -> & _). lia.
Qed.

(** X2.  [get_next_task] changes nothing but the cursor, never moves it
    back, and skips only tasks that are not queued.  The task it returns is
    the queued task at the new cursor; when it returns nothing there is no
    queued task at or after the old cursor, and the cursor is at the end of
    the list (or where it was, if it was beyond).  Asking again gives the
    same answer.  A queued task below the cursor is never returned. *)
Theorem get_next_task_spec :
  ∀ m,
    (get_next_task m).2 = with_index (current_index (get_next_task m).2) m ∧
    (current_index m ≤ current_index (get_next_task m).2)%nat ∧
    (∀ j t, (current_index m ≤ j < current_index (get_next_task m).2)%nat →
            tasks m !! j = Some t → t_status t ≠ Queued) ∧
    match (get_next_task m).1 with
    | Some t => tasks m !! current_index (get_next_task m).2 = Some t ∧
                t_status t = Queued
    | None => current_index (get_next_task m).2
                = Nat.max (current_index m) (length (tasks m))
    end ∧
    get_next_task (get_next_task m).2 = get_next_task m.
Proof.
  intros m. unfold get_next_task at 1 2 3 4 5 6. cbn [fst snd current_index with_index].
  destruct (scan_queued_spec (current_index m) (drop (current_index m) (tasks m)))
    as (k & H1 & H2 & H3 & H4).
  rewrite length_drop in H2.
  assert (match (scan_queued (current_index m)
                   (drop (current_index m) (tasks m))).2 with
          | Some t => tasks m !! (scan_queued (current_index m)
                        (drop (current_index m) (tasks m))).1 = Some t ∧
                      t_status t = Queued
          | None => (scan_queued (current_index m)
                       (drop (current_index m) (tasks m))).1
                    = Nat.max (current_index m) (length (tasks m))
          end) as Hres.
  { destruct (scan_queued _ _).2 as [t|].
    - rewrite H1. destruct H4 as [H4 ?]. by rewrite lookup_drop in H4.
    - rewrite H1, H4, length_drop. lia. }
  split_and!.
  - done.
  - lia.
  - intros j t Hj Hjt. rewrite H1 in Hj.
    apply (proj1 (Forall_lookup _ _) H3 (j - current_index m)%nat).
    rewrite lookup_take_lt by lia. rewrite lookup_drop.
    by replace (current_index m + (j - current_index m))%nat with j by lia.
  - done.
  - unfold get_next_task. cbn [fst snd current_index with_index tasks].
    set (r := scan_queued (current_index m) (drop (current_index m) (tasks m)))
      in *.
    assert (scan_queued r.1 (drop r.1 (tasks m)) = r) as ->; [|by destruct m].
    destruct r as [n [t|]] eqn:Er; simpl in *.
    + destruct Hres as [Hn Hq].
      rewrite (drop_S _ _ _ Hn). simpl. by rewrite decide_True.
    + rewrite drop_ge by lia. simpl. done.
Qed.

(** ** A turn of the dispatch loop *)

Lemma find_task_NoDup (ts : list task) i t :
  NoDup (id <$> ts) → ts !! i = Some t → find_task (id t) ts = Some (i, t).
Proof.
  revert i. induction ts as [|u ts IH]; intros i Hnd Hi; [done|].
  apply NoDup_cons in Hnd as [Hu Hnd]. cbn [find_task].
  destruct i as [|i]; simpl in Hi.
  - injection Hi as ->. by rewrite decide_True.
  - rewrite decide_False.
    + by rewrite (IH i Hnd Hi).
    + intros E. apply Hu. rewrite E.
      apply list_elem_of_fmap. exists t. split; [done|].
      by eapply list_elem_of_lookup_2.
Qed.

Lemma bind_first_at tid cid (ts : list task) i t :
  find_task tid ts = Some (i, t) →
  bind_first tid cid ts = <[i := set_client_id (Some cid) t]> ts.
Proof.
  revert i. induction ts as [|u ts IH]; intros i; [done|]. cbn [find_task bind_first].
  destruct (decide (id u = tid)).
  - by intros [= <- <-].
  - destruct (find_task tid ts) as [[j v]|]; [|done]. simpl.
    intros [= <- <-]. simpl. f_equal. by apply IH.
Qed.

(** The tasks after a task at position [i] of a list with distinct ids was
    marked assigned and bound to the worker [cid]. *)
Lemma bind_after_assign w cid (ts : list task) i t :
  NoDup (id <$> ts) → ts !! i = Some t →
  bind_first (id t) cid (<[i := assign_task w t]> ts)
    = <[i := set_client_id (Some cid) (assign_task w t)]> ts.
Proof.
  intros Hnd Hi.
  rewrite (bind_first_at _ _ _ i (assign_task w t)).
  - by rewrite list_insert_insert_eq.
  - apply (find_task_NoDup _ i (assign_task w t)).
    + by rewrite (fmap_id_insert _ _ t).
    + apply list_lookup_insert_eq. by eapply lookup_lt_Some.
Qed.

Lemma execute_tasks_iter_send_ok w s t tm2 cid info :
  is_running (tm s) = true →
  get_next_task (check_timeout_tasks w (tm s)).2 = (Some t, tm2) →
  get_idle_client w tm2 = Some (cid, info) →
  truthy (import_row_number t) && path_exists w (skip_path w t) = false →
  w_send_ok w = true →
  execute_tasks_iter w s =
    let i := current_index tm2 in
    let tm4 := mark_client_busy cid (id t)
                 (with_tasks (<[i := assign_task w t]> (tasks tm2)) tm2) in
    let m := mkTaskMessage (id t) (prompt t) (task_type t) (aspect_ratio t)
               (resolution t)
               (resolve_reference_images w (reference_images t)) in
    emit (EvSend cid m) (with_tm (with_index (S i) tm4) s).
Proof.
  intros Hrun Hnext Hidle Hskip Hsend.
  unfold execute_tasks_iter. rewrite Hrun. cbn [negb]. rewrite Hnext.
  apply get_idle_client_in_Some in Hidle as Hin. destruct Hin as (Hin & _ & _).
  rewrite (get_client_count_pos cid info) by done.
  by rewrite Hidle, Hskip, Hsend.
Qed.

(** What the loop has in hand after its sweep and [get_next_task], in a
    reachable state: distinct task ids and distinct worker ids. *)
Lemma loop_turn_distinct w s nxt tm2 :
  reachable s →
  get_next_task (check_timeout_tasks w (tm s)).2 = (nxt, tm2) →
  NoDup (id <$> tasks tm2) ∧ NoDup (clients tm2).*1 ∧
  Forall task_id_ok (tasks tm2).
Proof.
  intros Hs Hnext.
  assert (tm2 = (get_next_task (check_timeout_tasks w (tm s)).2).2) as ->
    by by rewrite Hnext.
  pose proof (reachable_ids_wf s Hs) as [Hnd _].
  pose proof (reachable_clients_keys s Hs) as Hk.
  pose proof (reachable_task_ids s Hs) as Hok.
  unfold get_next_task. cbn [snd tasks clients with_index].
  rewrite ids_check_timeout_tasks. rewrite check_timeout_tasks_spec.
  cbn [snd tasks clients with_clients with_tasks].
  rewrite sweep_clients_keys. split_and!; [done..|].
  apply Forall_fmap. eapply Forall_impl; [exact Hok|].
  intros u Hu. unfold task_id_ok, sweep_task, expire in *. cbn [compose].
  by destruct (timed_out (w_now w) u).
Qed.

Lemma loop_dispatch_ok :
  ∀ w s t tm2 cid info,
    reachable s →
    is_running (tm s) = true →
    get_next_task (check_timeout_tasks w (tm s)).2 = (Some t, tm2) →
    get_idle_client w tm2 = Some (cid, info) →
    truthy (import_row_number t) && path_exists w (skip_path w t) = false →
    w_send_ok w = true →
    tasks (tm (execute_tasks_iter w s))
      = <[current_index tm2 := set_client_id (Some cid) (assign_task w t)]>
          (tasks tm2) ∧
    tasks tm2 !! current_index tm2 = Some t ∧
    odict.get cid (clients (tm (execute_tasks_iter w s)))
      = Some (set_busy (id t) info) ∧
    (∀ cid', cid' ≠ cid →
       odict.get cid' (clients (tm (execute_tasks_iter w s)))
         = odict.get cid' (clients tm2)) ∧
    current_index (tm (execute_tasks_iter w s)) = S (current_index tm2).
Proof.
  intros w s t tm2 cid info Hs Hrun Hnext Hidle Hskip Hsend.
  rewrite (execute_tasks_iter_send_ok w s t tm2 cid info) by done.
  destruct (loop_turn_distinct w s _ tm2 Hs Hnext) as (Hnd & Hk & _).
  apply get_next_task_Some in Hnext as (Htm2 & Hi & Hq).
  apply get_idle_client_in_Some in Hidle as Hin. destruct Hin as (Hin & _ & _).
  assert (odict.mem cid (clients tm2) = true) as Hmem.
  { apply odict_mem_true. by exists info. }
  pose proof (odict_get_NoDup _ _ _ Hk Hin) as Hget.
  cbn zeta. cbn [tm with_tm trace emit chunk_buffer tasks clients with_index
                 current_index is_running].
  rewrite mark_client_busy_tasks, mark_client_busy_clients.
  cbn [clients tasks with_tasks current_index]. rewrite Hmem.
  split_and!.
  - by apply bind_after_assign.
  - done.
  - rewrite odict_get_alter, decide_True by done. by rewrite Hget.
  - intros cid' Hne. by rewrite odict_get_alter, decide_False.
  - done.
Qed.



Lemma check_timeout_tasks_index w m :
  current_index (check_timeout_tasks w m).2 = current_index m.
Proof. by rewrite check_timeout_tasks_spec. Qed.

Lemma send_failure_at_cursor w s t tm2 cid info :
  is_running (tm s) = true →
  get_next_task (check_timeout_tasks w (tm s)).2 = (Some t, tm2) →
  get_idle_client w tm2 = Some (cid, info) →
  truthy (import_row_number t) && path_exists w (skip_path w t) = false →
  w_send_ok w = false →
  (∃ t', tasks (tm (execute_tasks_iter w s)) !! current_index tm2 = Some t' ∧
         t_status t' = Queued) ∧
  current_index (tm (execute_tasks_iter w s)) = S (current_index tm2).
Proof.
  intros Hrun Hnext Hidle Hskip Hsend.
  rewrite (execute_tasks_iter_send_failure w s t tm2 cid info) by done.
  apply get_next_task_Some in Hnext as (Htm2 & Hi & Hq).
  apply get_idle_client_in_Some in Hidle as Hin. destruct Hin as (Hin & _ & _).
  assert (odict.mem cid (clients tm2) = true) as Hmem.
  { apply odict_mem_true. by exists info. }
  cbn zeta. cbn [tm with_tm trace emit].
  rewrite mark_client_idle_tasks. cbn [tasks with_tasks with_index].
  rewrite mark_client_busy_tasks. cbn [clients tasks with_tasks]. rewrite Hmem.
  split; [by apply queued_after_failed_send|].
  unfold mark_client_idle.
  match goal with |- context [if ?b then _ else _] => destruct b end;
    reflexivity.
Qed.

(** X4.  A task the loop has dispatched and that is queued again, because
    the send failed or because the worker disconnected afterwards, lies just
    below the cursor: the next turn of the loop, whatever the clock, picks a
    task at a later position or none. *)
Theorem requeued_task_is_behind_cursor :
  (∀ w s t tm2 cid info,
     is_running (tm s) = true →
     get_next_task (check_timeout_tasks w (tm s)).2 = (Some t, tm2) →
     get_idle_client w tm2 = Some (cid, info) →
     truthy (import_row_number t) && path_exists w (skip_path w t) = false →
     w_send_ok w = false →
     (∃ t', tasks (tm (execute_tasks_iter w s)) !! current_index tm2 = Some t' ∧
            t_status t' = Queued) ∧
     current_index (tm (execute_tasks_iter w s)) = S (current_index tm2) ∧
     ∀ w',
       (current_index tm2 <
        current_index
          (get_next_task
             (check_timeout_tasks w' (tm (execute_tasks_iter w s))).2).2)%nat) ∧
  (∀ w s t tm2 cid info,
     reachable s →
     is_running (tm s) = true →
     get_next_task (check_timeout_tasks w (tm s)).2 = (Some t, tm2) →
     get_idle_client w tm2 = Some (cid, info) →
     truthy (import_row_number t) && path_exists w (skip_path w t) = false →
     w_send_ok w = true →
     (∃ t', tasks (tm (ws_close cid (execute_tasks_iter w s)))
              !! current_index tm2 = Some t' ∧
            t_status t' = Queued ∧ id t' = id t) ∧
     current_index (tm (ws_close cid (execute_tasks_iter w s)))
       = S (current_index tm2) ∧
     ∀ w',
       (current_index tm2 <
        current_index
          (get_next_task
             (check_timeout_tasks w'
                (tm (ws_close cid (execute_tasks_iter w s)))).2).2)%nat).
Proof.
  split.
  - intros w s t tm2 cid info Hrun Hnext Hidle Hskip Hsend.
    destruct (send_failure_at_cursor w s t tm2 cid info Hrun Hnext Hidle Hskip
                Hsend) as [Hq Hc].
    split_and!; [done..|].
    intros w'. pose proof (get_next_task_index_le
      (check_timeout_tasks w' (tm (execute_tasks_iter w s))).2) as Hle.
    rewrite check_timeout_tasks_index, Hc in Hle. lia.
  - intros w s t tm2 cid info Hs Hrun Hnext Hidle Hskip Hsend.
    destruct (loop_dispatch_ok w s t tm2 cid info Hs Hrun Hnext Hidle Hskip Hsend)
      as (Hts & Hi & Hget & _ & Hc).
    destruct (loop_turn_distinct w s _ tm2 Hs Hnext) as (_ & _ & Hok).
    assert (id t ≠ "") as Hne.
    { apply task_id_ok_ne.
      apply (proj1 (Forall_lookup _ _) Hok _ _ Hi). }
    set (s1 := execute_tasks_iter w s) in *.
    destruct (remove_client_requeues_at cid (tm s1) (set_busy (id t) info)
                (current_index tm2)
                (set_client_id (Some cid) (assign_task w t)))
      as (H1 & _); try done.
    { rewrite Hts. apply list_lookup_insert_eq. by eapply lookup_lt_Some. }
    assert (current_index (tm (ws_close cid s1)) = S (current_index tm2)) as Hc'.
    { unfold ws_close. cbn [tm with_tm]. unfold remove_client.
      rewrite Hget. done. }
    split_and!.
    + eexists. split; [exact H1|]. done.
    + done.
    + intros w'. pose proof (get_next_task_index_le
        (check_timeout_tasks w' (tm (ws_close cid s1))).2) as Hle.
      rewrite check_timeout_tasks_index, Hc' in Hle. lia.
Qed.

Lemma requeued_task_is_behind_cursor_witness :
  (0 < current_index
         (get_next_task
            (check_timeout_tasks world0
               (tm (execute_tasks_iter (closed_socket world0)
                      queued_example))).2).2)%nat ∧
  (0 < current_index
         (get_next_task
            (check_timeout_tasks world0
               (tm (ws_close "c0_0"
                      (execute_tasks_iter world0 queued_example)))).2).2)%nat.
Proof.
  destruct requeued_task_is_behind_cursor as [H1 H2]. split.
  - exact (proj2 (proj2
      (H1 (closed_socket world0) queued_example queued_task_example
         (get_next_task
            (check_timeout_tasks (closed_socket world0)
               (tm queued_example)).2).2
         "c0_0" (mkClient "A" false None 1 None)
         eq_refl eq_refl eq_refl eq_refl eq_refl)) world0).
  - refine (proj2 (proj2
      (H2 world0 queued_example queued_task_example
         (get_next_task (check_timeout_tasks world0 (tm queued_example)).2).2
         "c0_0" (mkClient "A" false None 1 None)
         _ eq_refl eq_refl eq_refl eq_refl eq_refl)) world0).
    by eexists.
Defined.

(** ** The HTTP path *)

Lemma chat_completions_valid w cfg p imgs api s :
  ¬ blank p →
  Z.of_nat (length imgs) ≤ cfg_max_images cfg →
  clients (tm s) ≠ [] →
  chat_completions w cfg p imgs api s =
    let t := new_task w (strip p) (cfg_task_type cfg) (cfg_aspect_ratio cfg)
               (cfg_resolution cfg) (Some imgs) None None (tm s) in
    let i := length (tasks (tm s)) in
    let tm1 := with_tasks (tasks (tm s) ++ [t]) (tm s) in
    let s1 := with_tm tm1 s in
    let s2 :=
      match get_idle_client w (tm s) with
      | Some (cid, _) =>
          let tm3 := mark_client_busy cid (id t)
                       (with_tasks (<[i := assign_task w t]> (tasks tm1)) tm1) in
          let m := mkTaskMessage (id t) (strip p) (cfg_task_type cfg)
                     (cfg_aspect_ratio cfg) (cfg_resolution cfg) imgs in
          let s' := emit (EvSend cid m) (with_tm tm3 s1) in
          if w_send_ok w then s'
          else with_tm (mark_client_idle w cid
                          (with_tasks (alter (set_status Queued) i (tasks tm3))
                             tm3)) s'
      | None => s1
      end in
    (inr (id t),
     if negb (is_running (tm s2)) && api then start_execution s2 else s2).
Proof.
  intros Hp Himgs Hcs.
  unfold chat_completions.
  rewrite decide_False by by rewrite strip_nil.
  assert ((cfg_max_images cfg =? 0) && negb (bool_decide (imgs = [])) = false)
    as ->.
  { destruct imgs as [|x imgs]; [by rewrite andb_false_r|].
    simpl in Himgs. replace (cfg_max_images cfg =? 0) with false by lia. done. }
  replace (cfg_max_images cfg <? Z.of_nat (length imgs)) with false by lia.
  assert (((get_client_count (tm s)).1 =? 0)%nat = false) as ->.
  { apply Nat.eqb_neq. simpl. by intros E%length_zero_iff_nil. }
  rewrite add_task_not_blank by by rewrite strip_blank_iff.
  unfold get_idle_client. cbn [clients with_tasks]. done.
Qed.

Lemma maybe_start_index (api : bool) (x : server) :
  current_index
    (tm (if negb (is_running (tm x)) && api then start_execution x else x))
    = current_index (tm x).
Proof.
  destruct (negb (is_running (tm x)) && api); [|done].
  by destruct (start_execution_tm x) as (_ & -> & _).
Qed.

Lemma chat_completions_index w cfg p imgs api s :
  current_index (tm (chat_completions w cfg p imgs api s).2)
    = current_index (tm s).
Proof.
  unfold chat_completions.
  destruct (decide (strip p = [])) as [|Hp]; [done|].
  destruct (_ && _); [done|].
  destruct (_ <? _); [done|].
  destruct ((get_client_count (tm s)).1 =? 0)%nat; [done|].
  rewrite add_task_not_blank by by rewrite strip_blank_iff, <- strip_nil.
  cbn [snd]. rewrite maybe_start_index.
  destruct (get_idle_client w _) as [[cid info]|]; [|done].
  destruct (w_send_ok w); cbn [tm with_tm emit].
  - by rewrite mark_client_busy_index.
  - unfold mark_client_idle.
    match goal with |- context [if ?b then _ else _] => destruct b end;
      cbn [current_index with_clients with_tasks];
      by rewrite mark_client_busy_index.
Qed.

Lemma chat_completions_never_500 w cfg p imgs api s :
  (chat_completions w cfg p imgs api s).1 ≠ inl E500.
Proof.
  unfold chat_completions.
  destruct (decide (strip p = [])) as [|Hp]; [done|].
  destruct (_ && _); [done|].
  destruct (_ <? _); [done|].
  destruct ((get_client_count (tm s)).1 =? 0)%nat; [done|].
  by rewrite add_task_not_blank by by rewrite strip_blank_iff, <- strip_nil.
Qed.

(** X5.  The outcomes of the HTTP request, for a model of the table.  A
    blank prompt or more images than the model takes is answered with 400,
    an empty registry with 503, both without any change of state; 500 is
    never answered.  Otherwise the answer carries the id of a task appended
    at the end of the list: queued, with nothing sent, when no worker is
    idle; assigned to the first idle worker, with one message handed to its
    socket, when there is one and the send succeeds (in a reachable state).
    The cursor of the loop never moves. *)
Theorem chat_completions_outcomes :
  ∀ w cfg p imgs api s,
    (blank p ∨ cfg_max_images cfg < Z.of_nat (length imgs) →
     chat_completions w cfg p imgs api s = (inl E400, s)) ∧
    (¬ blank p → Z.of_nat (length imgs) ≤ cfg_max_images cfg →
     clients (tm s) = [] →
     chat_completions w cfg p imgs api s = (inl E503, s)) ∧
    (¬ blank p → Z.of_nat (length imgs) ≤ cfg_max_images cfg →
     clients (tm s) ≠ [] → get_idle_client w (tm s) = None →
     (chat_completions w cfg p imgs api s).1
       = inr (task_id_of (length (tasks (tm s))) (w_now w)) ∧
     tasks (tm (chat_completions w cfg p imgs api s).2)
       = tasks (tm s) ++
           [new_task w (strip p) (cfg_task_type cfg) (cfg_aspect_ratio cfg)
              (cfg_resolution cfg) (Some imgs) None None (tm s)] ∧
     clients (tm (chat_completions w cfg p imgs api s).2) = clients (tm s) ∧
     trace (chat_completions w cfg p imgs api s).2 = trace s) ∧
    (reachable s →
     ¬ blank p → Z.of_nat (length imgs) ≤ cfg_max_images cfg →
     ∀ cid info,
       get_idle_client w (tm s) = Some (cid, info) → w_send_ok w = true →
       (chat_completions w cfg p imgs api s).1
         = inr (task_id_of (length (tasks (tm s))) (w_now w)) ∧
       tasks (tm (chat_completions w cfg p imgs api s).2)
         = tasks (tm s) ++
             [set_client_id (Some cid)
                (assign_task w
                   (new_task w (strip p) (cfg_task_type cfg)
                      (cfg_aspect_ratio cfg) (cfg_resolution cfg) (Some imgs)
                      None None (tm s)))] ∧
       odict.get cid (clients (tm (chat_completions w cfg p imgs api s).2))
         = Some (set_busy (task_id_of (length (tasks (tm s))) (w_now w)) info) ∧
       (∀ cid', cid' ≠ cid →
          odict.get cid' (clients (tm (chat_completions w cfg p imgs api s).2))
            = odict.get cid' (clients (tm s))) ∧
       trace (chat_completions w cfg p imgs api s).2
         = EvSend cid
             (mkTaskMessage (task_id_of (length (tasks (tm s))) (w_now w))
                (strip p) (cfg_task_type cfg) (cfg_aspect_ratio cfg)
                (cfg_resolution cfg) imgs)
           :: trace s) ∧
    (chat_completions w cfg p imgs api s).1 ≠ inl E500 ∧
    current_index (tm (chat_completions w cfg p imgs api s).2)
      = current_index (tm s).
Proof.
  intros w cfg p imgs api s. split_and!.
  - intros [Hp|Hn]; unfold chat_completions.
    + by rewrite decide_True by by apply strip_nil.
    + destruct (decide (strip p = [])); [done|].
      destruct (_ && _); [done|].
      by replace (cfg_max_images cfg <? Z.of_nat (length imgs)) with true by lia.
  - intros Hp Himgs Hcs. unfold chat_completions.
    rewrite decide_False by by rewrite strip_nil.
    assert ((cfg_max_images cfg =? 0) && negb (bool_decide (imgs = [])) = false)
      as ->.
    { destruct imgs as [|x imgs]; [by rewrite andb_false_r|].
      simpl in Himgs. replace (cfg_max_images cfg =? 0) with false by lia. done. }
    replace (cfg_max_images cfg <? Z.of_nat (length imgs)) with false by lia.
    unfold get_client_count. cbn [fst]. by rewrite Hcs.
  - intros Hp Himgs Hcs Hidle.
    rewrite chat_completions_valid by done. rewrite Hidle.
    cbn zeta. cbn [fst snd].
    match goal with
    | |- context [if negb (is_running (tm ?x)) && api then _ else _] =>
        destruct (maybe_start_tm api x) as (-> & -> & ->)
    end.
    done.
  - intros Hs Hp Himgs cid info Hidle Hsend.
    apply get_idle_client_in_Some in Hidle as Hin. destruct Hin as (Hin & _ & _).
    assert (clients (tm s) ≠ []) as Hcs.
    { intros E. rewrite E in Hin. by apply elem_of_nil in Hin. }
    rewrite chat_completions_valid by done. rewrite Hidle, Hsend.
    cbn zeta. cbn [fst snd].
    match goal with
    | |- context [if negb (is_running (tm ?x)) && api then _ else _] =>
        destruct (maybe_start_tm api x) as (-> & -> & ->)
    end.
    set (t := new_task w (strip p) (cfg_task_type cfg) (cfg_aspect_ratio cfg)
                (cfg_resolution cfg) (Some imgs) None None (tm s)).
    assert (odict.mem cid (clients (tm s)) = true) as Hmem.
    { apply odict_mem_true. by exists info. }
    pose proof (odict_get_NoDup _ _ _ (reachable_clients_keys s Hs) Hin) as Hget.
    cbn [tm with_tm trace emit].
    rewrite mark_client_busy_tasks, mark_client_busy_clients.
    cbn [clients tasks with_tasks]. rewrite Hmem.
    split_and!.
    + done.
    + rewrite bind_after_assign.
      * replace (length (tasks (tm s))) with (length (tasks (tm s)) + 0)%nat
          by lia.
        by rewrite insert_app_r.
      * rewrite fmap_app. cbn [fmap list_fmap].
        change (id t) with (task_id_of (length (tasks (tm s))) (w_now w)).
        rewrite <- (length_fmap id (tasks (tm s))).
        apply ids_wf_snoc. by apply reachable_ids_wf.
      * by rewrite list_lookup_middle.
    + rewrite odict_get_alter, decide_True by done. by rewrite Hget.
    + intros cid' Hne. by rewrite odict_get_alter, decide_False.
    + done.
  - apply chat_completions_never_500.
  - apply chat_completions_index.
Qed.

Lemma chat_completions_outcomes_witness :
  chat_completions world0 cfg_image [32]%N [] false registered_example
    = (inl E400, registered_example) ∧
  chat_completions world0 cfg_image [104; 105]%N [] false server_init
    = (inl E503, server_init) ∧
  tasks (tm (chat_completions world0 cfg_image [104; 105]%N [] false
               registered_example).2)
    = [set_client_id (Some "c0_0")
         (assign_task world0
            (new_task world0 (strip [104; 105]%N) "Create Image" "16:9" "1K"
               (Some []) None None (tm registered_example)))].
Proof.
  destruct (chat_completions_outcomes world0 cfg_image [32]%N [] false
              registered_example) as (H1 & _).
  destruct (chat_completions_outcomes world0 cfg_image [104; 105]%N [] false
              server_init) as (_ & H2 & _).
  destruct (chat_completions_outcomes world0 cfg_image [104; 105]%N [] false
              registered_example) as (_ & _ & _ & H3 & _).
  assert (¬ blank [104; 105]%N) as Hnb.
  { unfold blank. intros Hb. apply Forall_cons in Hb as [Hb _].
    vm_compute in Hb. discriminate. }
  split_and!.
  - apply H1. left. unfold blank. repeat constructor.
  - apply H2; [exact Hnb | vm_compute; discriminate | reflexivity].
  - assert (reachable registered_example) as Hr.
    { by exists [OpRegister world0 "A"]. }
    assert (Z.of_nat (length (@nil string)) ≤ cfg_max_images cfg_image) as Hle.
    { vm_compute. discriminate. }
    exact (proj1 (proj2 (H3 Hr Hnb Hle "c0_0" (mkClient "A" false None 1 None)
                           eq_refl eq_refl))).
Defined.

(** ** Retrying every failed task, and running one task at once *)

Lemma failed_indices_elem i (ts : list task) j :
  j ∈ failed_indices i ts ↔
  (i ≤ j)%nat ∧ ∃ t, ts !! (j - i)%nat = Some t ∧ retryable (t_status t) = true.
Proof.
  revert i. induction ts as [|u ts IH]; intros i; cbn [failed_indices].
  - rewrite elem_of_nil. split; [done|]. by intros (_ & t & ? & _).
  - assert (j ∈ failed_indices (S i) ts ↔
            (i < j)%nat ∧
            ∃ t, (u :: ts) !! (j - i)%nat = Some t ∧
                 retryable (t_status t) = true) as Hrec.
    { rewrite IH. split.
      - intros (Hj & t & Ht & Hr). split; [lia|]. exists t. split; [|done].
        by replace (j - i)%nat with (S (j - S i)) by lia.
      - intros (Hj & t & Ht & Hr). split; [lia|]. exists t. split; [|done].
        by replace (j - i)%nat with (S (j - S i)) in Ht by lia. }
    destruct (retryable (t_status u)) eqn:Eu.
    + rewrite elem_of_cons, Hrec. split.
      * intros [->|(Hj & Ht)]; [|split; [lia | done]].
        split; [lia|]. exists u. by rewrite Nat.sub_diag.
      * intros (Hj & t & Ht & Hr).
        destruct (decide (j = i)) as [->|]; [by left|].
        right. split; [lia|]. by exists t.
    + rewrite Hrec. split.
      * intros (Hj & Ht). split; [lia | done].
      * intros (Hj & t & Ht & Hr).
        destruct (decide (j = i)) as [->|].
        -- rewrite Nat.sub_diag in Ht. injection Ht as ->. congruence.
        -- split; [lia|]. by exists t.
Qed.

Lemma failed_indices_length i (ts : list task) :
  length (failed_indices i ts)
    = length (filter (λ t, retryable (t_status t) = true) ts).
Proof.
  revert i. induction ts as [|u ts IH]; intros i; [done|].
  cbn [failed_indices]. rewrite filter_cons.
  destruct (retryable (t_status u)) eqn:Eu.
  - rewrite decide_True by done. simpl. by rewrite IH.
  - rewrite decide_False by congruence. apply IH.
Qed.

Lemma foldr_min_le d (l : list nat) :
  (foldr Nat.min d l ≤ d)%nat ∧ Forall (λ j, (foldr Nat.min d l ≤ j)%nat) l ∧
  (foldr Nat.min d l = d ∨ foldr Nat.min d l ∈ l).
Proof.
  induction l as [|x l (IH1 & IH2 & IH3)]; simpl.
  - split_and!; [lia | done | by left].
  - split_and!.
    + lia.
    + constructor; [lia|]. eapply Forall_impl; [exact IH2|]. simpl. lia.
    + destruct (Nat.min_spec x (foldr Nat.min d l)) as [[_ ->]|[_ ->]].
      * right. left.
      * destruct IH3 as [?|?]; [by left | right; by right].
Qed.

Lemma reset_if_failed_not_retryable t :
  retryable (t_status (reset_if_failed t)) = false.
Proof. unfold reset_if_failed. by destruct (retryable (t_status t)) eqn:E. Qed.

(** X6.  [retry_all_failed] answers with an error, and changes nothing,
    exactly when no task is failed, timed out or save-failed.  Otherwise it
    answers with the number of such tasks; each of them is queued with its
    detail, times and client id cleared, every other task is untouched, no
    task with one of the three statuses is left, and the cursor is at or
    below the position of each of them: it is the old cursor, or the
    position of the first of them when that is lower.  The registry and the
    sockets are not touched. *)
Theorem retry_all_failed_spec :
  ∀ s,
    ((retry_all_failed s).1 = None ↔
     Forall (λ t, retryable (t_status t) = false) (tasks (tm s))) ∧
    ((retry_all_failed s).1 = None → (retry_all_failed s).2 = s) ∧
    (∀ n, (retry_all_failed s).1 = Some n →
       n = length (filter (λ t, retryable (t_status t) = true) (tasks (tm s))) ∧
       (0 < n)%nat ∧
       tasks (tm (retry_all_failed s).2) = reset_if_failed <$> tasks (tm s) ∧
       Forall (λ t, retryable (t_status t) = false)
         (tasks (tm (retry_all_failed s).2)) ∧
       (∀ j t, tasks (tm s) !! j = Some t → retryable (t_status t) = true →
          (current_index (tm (retry_all_failed s).2) ≤ j)%nat ∧
          tasks (tm (retry_all_failed s).2) !! j = Some (reset_task t)) ∧
       (∀ j t, tasks (tm s) !! j = Some t → retryable (t_status t) = false →
          tasks (tm (retry_all_failed s).2) !! j = Some t) ∧
       (current_index (tm (retry_all_failed s).2) = current_index (tm s) ∨
        (current_index (tm (retry_all_failed s).2) < current_index (tm s))%nat ∧
        ∃ t, tasks (tm s) !! current_index (tm (retry_all_failed s).2) = Some t ∧
             retryable (t_status t) = true) ∧
       clients (tm (retry_all_failed s).2) = clients (tm s) ∧
       trace (retry_all_failed s).2 = trace s ∧
       chunk_buffer (retry_all_failed s).2 = chunk_buffer s).
Proof.
  intros s. unfold retry_all_failed.
  pose proof (failed_indices_elem 0 (tasks (tm s))) as Hel.
  pose proof (failed_indices_length 0 (tasks (tm s))) as Hlen.
  destruct (failed_indices 0 (tasks (tm s))) as [|j0 idx] eqn:E.
  - cbn [fst snd]. split_and!; [|done..].
    split; [intros _|done].
    apply Forall_lookup. intros j t Hj.
    destruct (retryable (t_status t)) eqn:Er; [|done].
    exfalso. apply (elem_of_nil j). apply Hel. split; [lia|].
    exists t. by rewrite Nat.sub_0_r.
  - cbn [fst snd]. split_and!.
    + split; [done|]. intros Hall. exfalso.
      assert (j0 ∈ j0 :: idx) as Hj0 by left.
      apply Hel in Hj0 as (_ & t & Ht & Hr). rewrite Nat.sub_0_r in Ht.
      rewrite (proj1 (Forall_lookup _ _) Hall _ _ Ht) in Hr. done.
    + done.
    + intros n [= <-].
      destruct (start_if_stopped_tm
                  (with_tm (with_index
                     (if (foldr Nat.min (length (tasks (tm s))) (j0 :: idx)
                          <? current_index (tm s))%nat
                      then foldr Nat.min (length (tasks (tm s))) (j0 :: idx)
                      else current_index (tm s))
                     (with_tasks (reset_if_failed <$> tasks (tm s)) (tm s))) s))
        as (-> & -> & -> & _ & -> & ->).
      cbn [tm with_tm tasks current_index clients with_index with_tasks trace
           chunk_buffer].
      destruct (foldr_min_le (length (tasks (tm s))) (j0 :: idx))
        as (Hm1 & Hm2 & Hm3).
      set (mi := foldr Nat.min (length (tasks (tm s))) (j0 :: idx)) in *.
      split_and!.
      * done.
      * simpl. lia.
      * done.
      * apply Forall_fmap, Forall_true. intros t.
        apply reset_if_failed_not_retryable.
      * intros j t Hj Hr. split.
        -- assert (j ∈ j0 :: idx) as Hin.
           { apply Hel. split; [lia|]. exists t. by rewrite Nat.sub_0_r. }
           pose proof (proj1 (Forall_forall _ _) Hm2 j Hin) as Hle.
           simpl in Hle. destruct (mi <? current_index (tm s))%nat eqn:Elt.
           ++ done.
           ++ apply Nat.ltb_ge in Elt. lia.
        -- rewrite list_lookup_fmap, Hj. simpl. unfold reset_if_failed.
           by rewrite Hr.
      * intros j t Hj Hr. rewrite list_lookup_fmap, Hj. simpl.
        unfold reset_if_failed. by rewrite Hr.
      * destruct (mi <? current_index (tm s))%nat eqn:Elt; [|by left].
        right. apply Nat.ltb_lt in Elt. split; [done|].
        destruct Hm3 as [Hm3|Hm3].
        -- assert (j0 ∈ j0 :: idx) as Hj0 by left.
           pose proof (proj1 (Forall_forall _ _) Hm2 j0 Hj0) as Hle.
           apply Hel in Hj0 as (_ & t & Ht & Hr).
           rewrite Nat.sub_0_r in Ht. apply lookup_lt_Some in Ht.
           simpl in Hle. lia.
        -- apply Hel in Hm3 as (_ & t & Ht & Hr).
           rewrite Nat.sub_0_r in Ht. by exists t.
      * done.
      * done.
      * done.
Qed.

Lemma retry_all_failed_spec_witness :
  tasks (tm (retry_all_failed retry_example).2) = [reset_task failed_example] ∧
  current_index (tm (retry_all_failed retry_example).2) = 0%nat.
Proof.
  destruct (retry_all_failed_spec retry_example) as (_ & _ & H).
  destruct (H 1%nat eq_refl) as (_ & _ & H1 & _ & H2 & _).
  split; [exact H1|].
  destruct (H2 0%nat failed_example eq_refl eq_refl) as [Hle _].
  apply Nat.le_0_r. exact Hle.
Defined.

Lemma move_to_at_cursor i j t (ts : list task) :
  ts !! i = Some t → (j < length ts)%nat → move_to i j t ts !! j = Some t.
Proof.
  intros Hi Hj. apply lookup_lt_Some in Hi as Hlt. unfold move_to.
  rewrite lookup_app_r; rewrite length_take, length_app, length_take, length_drop.
  - by replace (j - _)%nat with 0%nat by lia.
  - lia.
Qed.

Lemma move_to_at_end i j t (ts : list task) :
  ts !! i = Some t → (length ts ≤ j)%nat →
  move_to i j t ts !! (length ts - 1)%nat = Some t.
Proof.
  intros Hi Hj. apply lookup_lt_Some in Hi as Hlt. unfold move_to.
  rewrite lookup_app_r; rewrite length_take, length_app, length_take, length_drop.
  - by replace (length ts - 1 - _)%nat with 0%nat by lia.
  - lia.
Qed.

Lemma move_to_below_cursor i j t (ts : list task) :
  (i < j < length ts)%nat →
  move_to i j t ts !! (j - 1)%nat = ts !! j.
Proof.
  intros Hij. unfold move_to.
  rewrite lookup_app_l
    by (rewrite length_take, length_app, length_take, length_drop; lia).
  rewrite lookup_take_lt by lia.
  rewrite lookup_app_r by (rewrite length_take; lia).
  rewrite length_take, lookup_drop. f_equal. lia.
Qed.

Lemma get_next_task_at m t :
  tasks m !! current_index m = Some t → t_status t = Queued →
  (get_next_task m).1 = Some t.
Proof.
  intros Ht Hq. unfold get_next_task.
  rewrite (drop_S _ _ _ Ht). cbn [scan_queued]. by rewrite decide_True.
Qed.

Lemma get_next_task_at_end m :
  (length (tasks m) ≤ current_index m)%nat → (get_next_task m).1 = None.
Proof. intros H. unfold get_next_task. by rewrite drop_ge. Qed.

Lemma run_single_task_in_range (i : Z) (s : server) (t : task) :
  0 ≤ i → tasks (tm s) !! Z.to_nat i = Some t →
  run_single_task i s =
    if negb (bool_decide (t_status t = Queued)) then (false, s)
    else if ((get_client_count (tm s)).1 =? 0)%nat then (false, s)
    else (true,
          start_if_stopped
            (with_tm (with_tasks
                        (if decide (Z.to_nat i = current_index (tm s))
                         then tasks (tm s)
                         else move_to (Z.to_nat i) (current_index (tm s)) t
                                (tasks (tm s)))
                        (tm s)) s)).
Proof.
  intros Hi Ht. unfold run_single_task.
  apply lookup_lt_Some in Ht as Hlt.
  replace (i <? 0) with false by lia.
  replace (Z.of_nat (length (tasks (tm s))) <=? i) with false by lia.
  simpl. by rewrite Ht.
Qed.

Lemma get_client_count_zero m :
  ((get_client_count m).1 =? 0)%nat = true ↔ clients m = [].
Proof. rewrite Nat.eqb_eq. simpl. apply length_zero_iff_nil. Qed.

(** X7.  [run_single_task] succeeds exactly when the index is in range, the
    task there is queued and a worker is registered; otherwise it changes
    nothing.  On success the tasks are the same tasks in a new order, and the
    cursor and the registry are unchanged.  When the cursor is inside the
    list the task is at the cursor and is what [get_next_task] returns next;
    the task that was at the cursor is then just below the cursor if the
    chosen task came from below it.  When the cursor is at or beyond the end
    of the list, the task becomes the last of the list and [get_next_task]
    still returns nothing. *)
Theorem run_single_task_spec :
  ∀ (i : Z) (s : server),
    ((run_single_task i s).1 = true ↔
       0 ≤ i ∧ clients (tm s) ≠ [] ∧
       ∃ t, tasks (tm s) !! Z.to_nat i = Some t ∧ t_status t = Queued) ∧
    ((run_single_task i s).1 = false → (run_single_task i s).2 = s) ∧
    (∀ t, (run_single_task i s).1 = true →
       tasks (tm s) !! Z.to_nat i = Some t →
       tasks (tm (run_single_task i s).2) ≡ₚ tasks (tm s) ∧
       current_index (tm (run_single_task i s).2) = current_index (tm s) ∧
       clients (tm (run_single_task i s).2) = clients (tm s) ∧
       trace (run_single_task i s).2 = trace s ∧
       ((current_index (tm s) < length (tasks (tm s)))%nat →
          tasks (tm (run_single_task i s).2) !! current_index (tm s) = Some t ∧
          (get_next_task (tm (run_single_task i s).2)).1 = Some t) ∧
       ((Z.to_nat i < current_index (tm s) < length (tasks (tm s)))%nat →
          tasks (tm (run_single_task i s).2) !! (current_index (tm s) - 1)%nat
            = tasks (tm s) !! current_index (tm s)) ∧
       ((length (tasks (tm s)) ≤ current_index (tm s))%nat →
          tasks (tm (run_single_task i s).2) !! (length (tasks (tm s)) - 1)%nat
            = Some t ∧
          (get_next_task (tm (run_single_task i s).2)).1 = None)).
Proof.
  intros i s. split_and!.
  - split.
    + unfold run_single_task.
      destruct ((i <? 0) || (Z.of_nat (length (tasks (tm s))) <=? i)) eqn:Er;
        [done|].
      apply orb_false_iff in Er as [E1 E2].
      destruct (tasks (tm s) !! Z.to_nat i) as [t|] eqn:Ht; [|done].
      destruct (bool_decide (t_status t = Queued)) eqn:Eq; [|done].
      apply bool_decide_eq_true in Eq. cbn [negb].
      destruct ((get_client_count (tm s)).1 =? 0)%nat eqn:Ec; [done|].
      intros _. split_and!; [lia | | by exists t].
      intros Hc. apply get_client_count_zero in Hc. congruence.
    + intros (Hi & Hc & t & Ht & Hq).
      rewrite (run_single_task_in_range i s t) by done.
      rewrite bool_decide_eq_true_2 by done. cbn [negb].
      destruct ((get_client_count (tm s)).1 =? 0)%nat eqn:Ec; [|done].
      by apply get_client_count_zero in Ec.
  - unfold run_single_task.
    destruct ((i <? 0) || (Z.of_nat (length (tasks (tm s))) <=? i)); [done|].
    destruct (tasks (tm s) !! Z.to_nat i) as [t|]; [|done].
    destruct (negb (bool_decide (t_status t = Queued))); [done|].
    by destruct ((get_client_count (tm s)).1 =? 0)%nat.
  - intros t Hok Ht.
    assert (0 ≤ i) as Hi.
    { unfold run_single_task in Hok.
      destruct (i <? 0) eqn:E; [done | lia]. }
    rewrite (run_single_task_in_range i s t) in Hok |- * by done.
    destruct (bool_decide (t_status t = Queued)) eqn:Eq; [|done].
    apply bool_decide_eq_true in Eq. cbn [negb] in Hok |- *.
    destruct ((get_client_count (tm s)).1 =? 0)%nat; [done|].
    cbn [snd].
    set (ts' := if decide (Z.to_nat i = current_index (tm s)) then tasks (tm s)
                else move_to (Z.to_nat i) (current_index (tm s)) t
                       (tasks (tm s))).
    set (x := with_tm (with_tasks ts' (tm s)) s).
    assert (tasks (tm (start_if_stopped x)) = ts' ∧
            current_index (tm (start_if_stopped x)) = current_index (tm s))
      as [Hts Hci].
    { by destruct (start_if_stopped_tm x) as (-> & -> & _). }
    assert (∀ u, tasks (tm (start_if_stopped x)) !! current_index (tm s) = Some u →
                 t_status u = Queued →
                 (get_next_task (tm (start_if_stopped x))).1 = Some u) as Hnext.
    { intros u Hu Hq. apply get_next_task_at; [|done]. by rewrite Hci. }
    destruct (start_if_stopped_tm x) as (_ & _ & -> & _ & _ & ->).
    rewrite Hci. rewrite Hts in Hnext |- *.
    apply lookup_lt_Some in Ht as Hlt.
    split_and!.
    + unfold ts'. destruct (decide _); [done|]. by apply move_to_perm.
    + done.
    + done.
    + done.
    + intros Hc.
      assert (ts' !! current_index (tm s) = Some t) as Hat.
      { unfold ts'. destruct (decide _) as [<-|]; [done|].
        by apply move_to_at_cursor. }
      split; [done|]. by apply Hnext.
    + intros Hc. unfold ts'. rewrite decide_False by lia.
      by apply move_to_below_cursor.
    + intros Hc. split.
      * unfold ts'. rewrite decide_False by lia. by apply move_to_at_end.
      * apply get_next_task_at_end. rewrite Hci, Hts.
        unfold ts'. rewrite decide_False by lia.
        rewrite (Permutation_length (move_to_perm _ _ _ _ Ht)). done.
Qed.

Lemma run_single_task_spec_witness :
  tasks (tm (run_single_task 0 queued_example).2) !! 0%nat
    = Some queued_task_example ∧
  (get_next_task (tm (run_single_task 0 queued_example).2)).1
    = Some queued_task_example.
Proof.
  destruct (run_single_task_spec 0 queued_example) as (_ & _ & H).
  destruct (H queued_task_example eq_refl eq_refl) as (_ & _ & _ & _ & H1 & _).
  apply H1. vm_compute. lia.
Defined.

(** ** Messages of a worker *)

Lemma mark_client_idle_idled w cid m :
  idled w cid (clients m) (clients (mark_client_idle w cid m)).
Proof.
  unfold idled. rewrite mark_client_idle_clients. unfold odict.mem.
  destruct (odict.get cid (clients m)) as [c|] eqn:E.
  - rewrite bool_decide_eq_true_2 by done. split_and!.
    + intros c' [= <-]. rewrite odict_get_alter, decide_True by done.
      by rewrite E.
    + done.
    + intros cid' Hne. by rewrite odict_get_alter, decide_False.
    + apply odict_alter_keys.
  - rewrite bool_decide_eq_false_2 by by intros [? ?]. done.
Qed.

Lemma set_detail_first_at tid d (ts : list task) :
  match find_task tid ts with
  | Some (i, t) => set_detail_first tid d ts = <[i := set_status_detail d t]> ts
  | None => set_detail_first tid d ts = ts
  end.
Proof.
  induction ts as [|u ts IH]; [done|]. cbn [find_task set_detail_first].
  destruct (decide (id u = tid)); [done|].
  destruct (find_task tid ts) as [[j v]|]; simpl; by f_equal.
Qed.

Lemma set_detail_first_status tid d (ts : list task) :
  t_status <$> set_detail_first tid d ts = t_status <$> ts.
Proof.
  induction ts as [|u ts IH]; [done|]. cbn [set_detail_first].
  destruct (decide (id u = tid)); simpl; by f_equal.
Qed.

(** X8.  A result message with an error and a task id marks the first task
    with that id failed, with the error as detail and the current time as
    end time, whatever the task's status was and whoever holds it; no other
    task and no other field of the task changes.  The sender, and only the
    sender, becomes idle.  When no task has the id, no task changes.  The
    cursor, the running flag, the chunk buffer and the trace stay. *)
Theorem result_with_error_fails_task :
  ∀ w cid tid err s,
    tid ≠ "" → err ≠ "" →
    match find_task tid (tasks (tm s)) with
    | Some (i, t) =>
        tasks (tm (ws_message w cid (MsgResult (Some tid) (Some err)) s))
          = <[i := failed_task w err t]> (tasks (tm s)) ∧
        failed_task w err t
          = mkTask (id t) (prompt t) Failed err (file_ext t) (output_dir t)
              (client_id t) (task_type t) (aspect_ratio t) (resolution t)
              (reference_images t) (start_time t) (Some (w_now w))
              (import_row_number t) (saved_path t) (output_dir_path t)
              (preview_base64 t)
    | None =>
        tasks (tm (ws_message w cid (MsgResult (Some tid) (Some err)) s))
          = tasks (tm s)
    end ∧
    idled w cid (clients (tm s))
      (clients (tm (ws_message w cid (MsgResult (Some tid) (Some err)) s))) ∧
    current_index (tm (ws_message w cid (MsgResult (Some tid) (Some err)) s))
      = current_index (tm s) ∧
    is_running (tm (ws_message w cid (MsgResult (Some tid) (Some err)) s))
      = is_running (tm s) ∧
    chunk_buffer (ws_message w cid (MsgResult (Some tid) (Some err)) s)
      = chunk_buffer s ∧
    trace (ws_message w cid (MsgResult (Some tid) (Some err)) s) = trace s.
Proof.
  intros w cid tid err s Htid Herr.
  unfold ws_message, ws_handle.
  rewrite !truthy_Some_ne by done. cbn [andb default from_option Datatypes.id].
  destruct (find_task tid (tasks (tm s))) as [[i t]|] eqn:E.
  - cbn [tm with_tm chunk_buffer trace].
    destruct (mark_client_idle_frame w cid
                (with_tasks (<[i := failed_task w err t]> (tasks (tm s))) (tm s)))
      as (-> & -> & -> & _).
    split_and!; try done.
    apply (mark_client_idle_idled w cid
             (with_tasks (<[i := failed_task w err t]> (tasks (tm s))) (tm s))).
  - cbn [tm with_tm chunk_buffer trace].
    destruct (mark_client_idle_frame w cid (tm s)) as (-> & -> & -> & _).
    split_and!; try done. apply mark_client_idle_idled.
Qed.

Lemma result_with_error_fails_task_witness :
  tasks (tm (ws_message world0 "c0_0"
               (MsgResult (Some "task_0_000000000000") (Some "boom"))
               assigned_example))
    = [failed_task world0 "boom" assigned_task_example].
Proof.
  assert ("task_0_000000000000" ≠ "") as H1 by discriminate.
  assert ("boom" ≠ "") as H2 by discriminate.
  exact (proj1 (proj1 (result_with_error_fails_task world0 "c0_0"
                         "task_0_000000000000" "boom" assigned_example H1 H2))).
Defined.

(** X9.  A status message changes nothing but the detail text of one task:
    the first task whose id is the task id of the sender's entry.  Statuses,
    the registry, the cursor, the running flag, the chunk buffer and the
    trace stay; when the sender is not registered, has no task id, or no
    task has that id, no task changes at all. *)
Theorem status_message_sets_detail :
  ∀ w cid message s,
    match odict.get cid (clients (tm s)) with
    | Some c =>
        if truthy (task_id c) then
          match find_task (default "" (task_id c)) (tasks (tm s)) with
          | Some (i, t) =>
              tasks (tm (ws_message w cid (MsgStatus message) s))
                = <[i := set_status_detail message t]> (tasks (tm s))
          | None => ws_message w cid (MsgStatus message) s = s
          end
        else ws_message w cid (MsgStatus message) s = s
    | None => ws_message w cid (MsgStatus message) s = s
    end ∧
    t_status <$> tasks (tm (ws_message w cid (MsgStatus message) s))
      = t_status <$> tasks (tm s) ∧
    clients (tm (ws_message w cid (MsgStatus message) s)) = clients (tm s) ∧
    current_index (tm (ws_message w cid (MsgStatus message) s))
      = current_index (tm s) ∧
    is_running (tm (ws_message w cid (MsgStatus message) s))
      = is_running (tm s) ∧
    chunk_buffer (ws_message w cid (MsgStatus message) s) = chunk_buffer s ∧
    trace (ws_message w cid (MsgStatus message) s) = trace s.
Proof.
  intros w cid message s. unfold ws_message, ws_handle.
  destruct (odict.get cid (clients (tm s))) as [c|]; [|done].
  destruct (truthy (task_id c)); [|done].
  unfold update_task_status_detail. cbn [tm with_tm tasks with_tasks].
  rewrite set_detail_first_status.
  pose proof (set_detail_first_at (default "" (task_id c)) message
                (tasks (tm s))) as H.
  destruct (find_task _ _) as [[i t]|].
  - rewrite H. done.
  - rewrite H. split_and!; try done. by destruct s as [[] ? ? ?].
Qed.

Lemma free_name_Some w fuel dir ext c f :
  free_name w fuel dir ext c = Some f →
  ∃ k, (c ≤ k)%nat ∧ f = w_stamp w +:+ "_" +:+ pretty k +:+ ext ∧
       path_exists w (path_join dir f) = false ∧
       ∀ j, (c ≤ j < k)%nat →
         path_exists w
           (path_join dir (w_stamp w +:+ "_" +:+ pretty j +:+ ext)) = true.
Proof.
  revert c. induction fuel as [|fuel IH]; intros c; [done|].
  cbn [free_name].
  destruct (path_exists w (path_join dir
              (w_stamp w +:+ "_" +:+ pretty c +:+ ext))) eqn:E.
  - intros (k & Hk & -> & Hf & Hall)%IH. exists k. split_and!; [lia | done..|].
    intros j Hj. destruct (decide (j = c)) as [->|]; [done|].
    apply Hall. lia.
  - intros [= <-]. exists c. split_and!; [lia | done..|]. intros j Hj. lia.
Qed.

(** X10.  The file name chosen for a result.  There always is one.  For a
    task with an import row number it is the row number followed by the
    extension, whether or not such a file is there.  For any other task it
    names no file that is there: it is the time stamp followed by the
    extension, or, when that is taken, the stamp with the least counter
    from 1 on whose name is free. *)
Theorem result_filename_spec :
  ∀ w dir t,
    ∃ f,
      result_filename w dir t = Some f ∧
      (truthy (import_row_number t) = true →
         f = default "" (import_row_number t) +:+ file_ext t) ∧
      (truthy (import_row_number t) = false →
         path_exists w (path_join dir f) = false ∧
         (f = w_stamp w +:+ file_ext t ∨
          path_exists w (path_join dir (w_stamp w +:+ file_ext t)) = true ∧
          ∃ k, (1 ≤ k)%nat ∧
               f = w_stamp w +:+ "_" +:+ pretty k +:+ file_ext t ∧
               ∀ j, (1 ≤ j < k)%nat →
                 path_exists w
                   (path_join dir
                      (w_stamp w +:+ "_" +:+ pretty j +:+ file_ext t))
                 = true)).
Proof.
  intros w dir t.
  destruct (result_filename_total w dir t) as [f Hf]. exists f.
  split; [done|]. unfold result_filename in Hf.
  destruct (truthy (import_row_number t)).
  - injection Hf as <-. split; [done|]. done.
  - split; [done|]. intros _.
    destruct (path_exists w (path_join dir (w_stamp w +:+ file_ext t))) eqn:E.
    + apply free_name_Some in Hf as (k & Hk & -> & Hfree & Hall).
      split; [done|]. right. split; [done|]. by exists k.
    + injection Hf as <-. split; [done|]. by left.
Qed.

Lemma handle_image_result_found w cid tid data s i t :
  find_task tid (tasks (tm s)) = Some (i, t) →
  w_mkdir_ok w = true →
  ∃ f, result_filename w (resolve_output_dir w t) t = Some f ∧
       handle_image_result w cid tid data s =
         let p := resolve_output_dir w t in
         let s1 := emit (EvSave p f data) s in
         let t' := if w_save_ok w
                   then saved_task w p (absolute w (path_join p f)) t
                   else save_failed_task w t in
         Returned
           (with_tm (mark_client_idle w cid
                       (with_tasks (<[i := t']> (tasks (tm s1))) (tm s1))) s1).
Proof.
  intros Hfind Hok.
  destruct (result_filename_total w (resolve_output_dir w t) t) as [f Hf].
  exists f. split; [done|].
  unfold handle_image_result. rewrite Hfind, Hok, Hf. cbn [negb].
  unfold save_base64_file. by destruct (w_save_ok w).
Qed.



(** ** Task ids, the sweep, idle turns of the loop *)

(** X12.  In every reachable state the ids of the tasks are pairwise
    distinct, so the lookups by id of the handlers (first task with the id)
    find the one task with that id; each id has the form [add_task] gives
    it, with a counter below the length of the list. *)
Theorem task_ids_distinct :
  ∀ s,
    reachable s →
    NoDup (id <$> tasks (tm s)) ∧
    (∀ i t, tasks (tm s) !! i = Some t →
            find_task (id t) (tasks (tm s)) = Some (i, t)) ∧
    (∀ t, t ∈ tasks (tm s) →
          ∃ k now, (k < length (tasks (tm s)))%nat ∧ id t = task_id_of k now).
Proof.
  intros s Hs. destruct (reachable_ids_wf s Hs) as [Hnd Hform].
  split_and!.
  - done.
  - intros i t Hi. by apply find_task_NoDup.
  - intros t Ht.
    destruct (Hform (id t)) as (k & now & Hk & E).
    + apply list_elem_of_fmap. by exists t.
    + exists k, now. rewrite length_fmap in Hk. done.
Qed.

Lemma task_ids_distinct_witness :
  find_task (id assigned_task_example) (tasks (tm assigned_example))
    = Some (0%nat, assigned_task_example).
Proof.
  assert (reachable assigned_example) as Hr by by eexists.
  exact (proj1 (proj2 (task_ids_distinct assigned_example Hr)) 0%nat
           assigned_task_example eq_refl).
Defined.

Lemma timed_out_sweep_task now t : timed_out now (sweep_task now t) = false.
Proof.
  unfold sweep_task. destruct (timed_out now t) eqn:E; [|done].
  unfold timed_out, expire. done.
Qed.

Lemma sweep_clients_none now (ts : list task) cs :
  Forall (λ t, timed_out now t = false) ts → sweep_clients now ts cs = cs.
Proof.
  unfold sweep_clients. revert cs.
  induction ts as [|t ts IH]; intros cs Hall; [done|].
  apply Forall_cons in Hall as [Ht Hall]. simpl. rewrite Ht. by apply IH.
Qed.

Lemma filter_none {A} (P : A → Prop) `{!∀ x, Decision (P x)} (l : list A) :
  Forall (λ x, ¬ P x) l → filter P l = [].
Proof.
  induction l as [|x l IH]; [done|]. intros [Hx Hl]%Forall_cons.
  rewrite filter_cons, decide_False by done. by apply IH.
Qed.

Lemma timed_out_false_iff now t :
  timed_out now t = false ↔
  t_status t ≠ Assigned ∨ start_time t = None ∨
  ∃ st, start_time t = Some st ∧ now - st ≤ TASK_TIMEOUT_SECONDS * MICRO.
Proof.
  unfold timed_out. destruct (t_status t) eqn:Es;
    try (split; [intros _; by left | done]).
  destruct (start_time t) as [st|] eqn:Est.
  - rewrite Z.ltb_ge. split.
    + intros H. right. right. by exists st.
    + intros [?|[?|(st' & [= <-] & H)]]; done.
  - split; [intros _; right; by left | done].
Qed.

(** X13.  The timeout sweep beyond the tasks it expires.  A task that is
    not assigned, has no start time, or started at most 600 seconds ago is
    left exactly as it is (600 seconds sharp is not a timeout).  The sweep
    returns the expired tasks, as many as there were tasks to expire; the
    number and the ids of the tasks, the cursor, the running flag and the
    ids of the workers stay; every worker is as before or released (not
    busy, no task id, cooldown stamp unchanged).  A second sweep at the same
    clock returns nothing and changes nothing. *)
Theorem timeout_sweep_frame :
  ∀ w m,
    (∀ i t, tasks m !! i = Some t →
       (t_status t ≠ Assigned ∨ start_time t = None ∨
        ∃ st, start_time t = Some st ∧
              w_now w - st ≤ TASK_TIMEOUT_SECONDS * MICRO) →
       tasks (check_timeout_tasks w m).2 !! i = Some t) ∧
    (check_timeout_tasks w m).1
      = expire (w_now w)
          <$> filter (λ t, timed_out (w_now w) t = true) (tasks m) ∧
    id <$> tasks (check_timeout_tasks w m).2 = id <$> tasks m ∧
    current_index (check_timeout_tasks w m).2 = current_index m ∧
    is_running (check_timeout_tasks w m).2 = is_running m ∧
    (clients (check_timeout_tasks w m).2).*1 = (clients m).*1 ∧
    (∀ cid c', (cid, c') ∈ clients (check_timeout_tasks w m).2 →
       ∃ c, (cid, c) ∈ clients m ∧ (c' = c ∨ c' = release c)) ∧
    check_timeout_tasks w (check_timeout_tasks w m).2
      = ([], (check_timeout_tasks w m).2).
Proof.
  intros w m. rewrite ids_check_timeout_tasks.
  rewrite !check_timeout_tasks_spec.
  cbn [fst snd tasks clients current_index is_running with_clients with_tasks].
  split_and!; try done.
  - intros i t Hi Hno. apply timed_out_false_iff in Hno.
    rewrite list_lookup_fmap, Hi. simpl. unfold sweep_task. by rewrite Hno.
  - apply sweep_clients_keys.
  - intros cid c'. apply sweep_clients_elem.
  - assert (Forall (λ t, timed_out (w_now w) t = false)
              (sweep_task (w_now w) <$> tasks m)) as Hnone.
    { apply Forall_fmap, Forall_true. intros t. apply timed_out_sweep_task. }
    f_equal.
    + rewrite filter_none; [done|].
      eapply Forall_impl; [exact Hnone|]. simpl. intros t Ht. congruence.
    + rewrite sweep_clients_none by done.
      assert (sweep_task (w_now w) <$> (sweep_task (w_now w) <$> tasks m)
              = sweep_task (w_now w) <$> tasks m) as ->; [|done].
      rewrite <- list_fmap_compose.
      apply list_fmap_ext. intros i t _. simpl.
      unfold sweep_task at 1. by rewrite timed_out_sweep_task.
Qed.

Lemma timeout_sweep_frame_witness :
  tasks (check_timeout_tasks (at_time 600 world0) (tm assigned_example)).2
    !! 0%nat = Some assigned_task_example.
Proof.
  apply (proj1 (timeout_sweep_frame (at_time 600 world0) (tm assigned_example))
           0%nat assigned_task_example eq_refl).
  right. right. exists 0. split; [reflexivity | vm_compute; discriminate].
Defined.

Lemma existsb_busy_false (cs : list (string * client)) :
  existsb (λ e, busy e.2) cs = false ↔ Forall (λ e, busy e.2 = false) cs.
Proof.
  induction cs as [|e cs IH]; simpl; [done|].
  rewrite orb_false_iff, IH, Forall_cons. done.
Qed.

Lemma get_idle_client_None_nil w m :
  clients m = [] → get_idle_client w m = None.
Proof. unfold get_idle_client. by intros ->. Qed.

(** X14.  The turns of the loop that dispatch nothing.  With the running
    flag lowered a turn changes nothing.  When [get_next_task] finds no
    queued task at or after the cursor, the loop stops (lowers the flag)
    exactly when no worker is busy after the sweep.  When it finds one but
    no worker can take it (none idle and off cooldown, in particular none
    registered), the turn ends with the state after the sweep and the
    cursor on that task, the flag stays raised, and nothing is sent: the
    loop waits.  In every case a turn hands at most one message to a
    socket. *)
Theorem loop_idle_turns :
  ∀ w s,
    (is_running (tm s) = false → execute_tasks_iter w s = s) ∧
    (is_running (tm s) = true →
     (get_next_task (check_timeout_tasks w (tm s)).2).1 = None →
     (is_running (tm (execute_tasks_iter w s)) = false ↔
      Forall (λ e, busy e.2 = false)
        (clients (check_timeout_tasks w (tm s)).2)) ∧
     tasks (tm (execute_tasks_iter w s))
       = tasks (check_timeout_tasks w (tm s)).2 ∧
     clients (tm (execute_tasks_iter w s))
       = clients (check_timeout_tasks w (tm s)).2 ∧
     trace (execute_tasks_iter w s) = trace s) ∧
    (is_running (tm s) = true →
     ∀ t tm2,
       get_next_task (check_timeout_tasks w (tm s)).2 = (Some t, tm2) →
       get_idle_client w tm2 = None →
       execute_tasks_iter w s = with_tm tm2 s ∧
       is_running tm2 = true ∧
       tasks tm2 !! current_index tm2 = Some t ∧ t_status t = Queued) ∧
    (trace (execute_tasks_iter w s) = trace s ∨
     ∃ cid m, trace (execute_tasks_iter w s) = EvSend cid m :: trace s).
Proof.
  intros w s. split_and!.
  - intros Hr. unfold execute_tasks_iter. by rewrite Hr.
  - intros Hr Hnone. unfold execute_tasks_iter. rewrite Hr. cbn [negb].
    destruct (get_next_task (check_timeout_tasks w (tm s)).2) as [nxt tm2] eqn:E.
    simpl in Hnone. subst nxt.
    assert (tasks tm2 = tasks (check_timeout_tasks w (tm s)).2 ∧
            clients tm2 = clients (check_timeout_tasks w (tm s)).2 ∧
            is_running tm2 = true) as (Ht & Hc & Hr2).
    { assert (tm2 = (get_next_task (check_timeout_tasks w (tm s)).2).2) as ->
        by by rewrite E.
      unfold get_next_task. cbn [snd tasks clients is_running with_index].
      by rewrite check_timeout_tasks_spec. }
    rewrite <- Hc, <- Ht.
    destruct (existsb (λ e, busy e.2) (clients tm2)) eqn:Eb;
      cbn [tm with_tm trace tasks clients is_running with_running].
    + split_and!; try done. rewrite Hr2. split; [done|].
      intros Hall%existsb_busy_false. congruence.
    + split_and!; try done. split; [intros _|done].
      by apply existsb_busy_false.
  - intros Hr t tm2 Hnext Hidle. unfold execute_tasks_iter.
    rewrite Hr, Hnext. cbn [negb]. rewrite Hidle.
    assert (is_running tm2 = true) as Hr2.
    { assert (tm2 = (get_next_task (check_timeout_tasks w (tm s)).2).2) as ->
        by by rewrite Hnext.
      unfold get_next_task. cbn [snd is_running with_index].
      by rewrite check_timeout_tasks_spec. }
    apply get_next_task_Some in Hnext as (_ & Hi & Hq).
    split_and!; try done. by destruct (_ =? _)%nat.
  - unfold execute_tasks_iter.
    destruct (negb (is_running (tm s))); [by left|].
    destruct (get_next_task _) as [[t|] tm2].
    + destruct (_ =? _)%nat; [by left|].
      destruct (get_idle_client w tm2) as [[cid info]|]; [|by left].
      destruct (_ && _); [by left|].
      destruct (w_send_ok w); right; by eexists _, _.
    + destruct (existsb _ _); by left.
Qed.

Lemma loop_idle_turns_witness :
  execute_tasks_iter world0 registered_example = registered_example.
Proof.
  exact (proj1 (loop_idle_turns world0 registered_example) eq_refl).
Defined.

(** X15.  The counts of [/health]: busy and available are between 0 and
    the total and add up to it; available counts the workers that are not
    busy, whether or not their cooldown has elapsed, so a worker that
    [get_idle_client] returns is always counted, and the registry is empty
    exactly when the total is 0. *)
Theorem health_counts :
  ∀ m,
    0 ≤ (health m).1.2 ≤ (health m).1.1 ∧
    (health m).2 = (health m).1.1 - (health m).1.2 ∧
    (health m).2
      = Z.of_nat (length (filter (λ e, busy e.2 = false) (clients m))) ∧
    ((health m).1.1 = 0 ↔ clients m = []) ∧
    (∀ w, get_idle_client w m ≠ None → 0 < (health m).2).
Proof.
  intros m. unfold health, get_client_count. cbn [fst snd].
  assert (∀ cs : list (string * client),
            length cs = (length (filter (λ e, busy e.2 = true) cs)
                         + length (filter (λ e, busy e.2 = false) cs))%nat)
    as Hsplit.
  { induction cs as [|e cs IH]; [done|]. rewrite !filter_cons.
    destruct (busy e.2) eqn:E.
    - rewrite decide_True, decide_False by done. simpl. lia.
    - rewrite decide_False, decide_True by done. simpl. lia. }
  pose proof (Hsplit (clients m)) as H.
  split_and!; try lia.
  - split.
    + intros E. apply length_zero_iff_nil. lia.
    + by intros ->.
  - intros w Hidle. destruct (get_idle_client w m) as [[cid info]|] eqn:E;
      [|done].
    apply get_idle_client_in_Some in E as (Hin & Hb & _).
    assert ((cid, info) ∈ filter (λ e, busy e.2 = false) (clients m)) as Hf.
    { by apply list_elem_of_filter. }
    destruct (filter (λ e, busy e.2 = false) (clients m)) as [|x l] eqn:Ef.
    + by apply elem_of_nil in Hf.
    + simpl in H. lia.
Qed.

(** ** The registry *)

(** X16.  [register_client] gives the new worker the next page number and
    raises the counter by one; it touches no task, not even the task of a
    worker it evicts, nor the cursor or the running flag.  Afterwards the new
    id is registered with the page url, not busy, without task id and
    without cooldown stamp; every other entry is an entry of before with
    another page url, and every such entry of before under another id is
    still there; so the new entry is the only one with its page url, and the
    only one under its id, also when a worker of another page had that id
    before. *)
Theorem register_client_spec :
  ∀ w u m,
    (register_client w u m).1.2 = next_page_number m ∧
    next_page_number (register_client w u m).2 = next_page_number m + 1 ∧
    tasks (register_client w u m).2 = tasks m ∧
    current_index (register_client w u m).2 = current_index m ∧
    is_running (register_client w u m).2 = is_running m ∧
    odict.get (register_client w u m).1.1 (clients (register_client w u m).2)
      = Some (mkClient u false None (next_page_number m) None) ∧
    (∀ k c, (k, c) ∈ clients (register_client w u m).2 →
       k = (register_client w u m).1.1 ∧
         c = mkClient u false None (next_page_number m) None ∨
       k ≠ (register_client w u m).1.1 ∧ (k, c) ∈ clients m ∧ url c ≠ u) ∧
    (∀ k c, (k, c) ∈ clients m → url c ≠ u →
       k ≠ (register_client w u m).1.1 →
       (k, c) ∈ clients (register_client w u m).2).
Proof.
  intros w u m. unfold register_client. cbn [fst snd tasks current_index
    is_running next_page_number clients].
  set (cs := filter (λ e, url e.2 ≠ u) (clients m)).
  set (cid := "c" +:+ pretty (length cs) +:+ "_" +:+ pretty (w_time w `mod` 10000)).
  set (info := mkClient u false None (next_page_number m) None).
  assert (∀ k c, (k, c) ∈ odict.set cid info cs →
            k = cid ∧ c = info ∨ k ≠ cid ∧ (k, c) ∈ clients m ∧ url c ≠ u)
    as Hel.
  { intros k c [[-> ->]|[Hne Hin]]%odict_elem_of_set; [by left|].
    right. apply list_elem_of_filter in Hin as [Hu Hin]. done. }
  split_and!; try done.
  - assert ((cid, info) ∈ odict.set cid info cs) as Hin.
    { apply odict_elem_of_set. by left. }
    destruct (odict_elem_of_get _ _ _ Hin) as [c Hc]. rewrite Hc. f_equal.
    apply odict_get_elem_of in Hc.
    destruct (Hel _ _ Hc) as [[_ ->]|[Hne _]]; done.
  - intros k c Hin Hu Hne. apply odict_elem_of_set. right. split; [done|].
    by apply list_elem_of_filter.
Qed.

Lemma register_client_spec_witness :
  (register_client world0 "A" (tm collision_example)).1.2 = 3 ∧
  (register_client world0 "A" (tm collision_example)).1.1 = "c1_0" ∧
  odict.get "c1_0" (clients (tm collision_example))
    = Some (mkClient "B" false None 2 None) ∧
  odict.get "c1_0" (clients (register_client world0 "A" (tm collision_example)).2)
    = Some (mkClient "A" false None 3 None).
Proof.
  destruct (register_client_spec world0 "A" (tm collision_example))
    as (H1 & _ & _ & _ & _ & H2 & _).
  split_and!; [exact H1 | reflexivity | reflexivity | exact H2].
Defined.

Lemma remove_client_unregistered cid m :
  odict.get cid (clients m) = None → remove_client cid m = m.
Proof. intros H. unfold remove_client. by rewrite H. Qed.

Lemma mark_client_idle_unregistered w cid m :
  odict.get cid (clients m) = None → mark_client_idle w cid m = m.
Proof.
  intros H. unfold mark_client_idle, odict.mem.
  by rewrite bool_decide_eq_false_2 by (rewrite H; by intros [? ?]).
Qed.

Lemma mark_client_busy_unregistered cid tid m :
  odict.get cid (clients m) = None → mark_client_busy cid tid m = m.
Proof.
  intros H. unfold mark_client_busy, odict.mem.
  by rewrite bool_decide_eq_false_2 by (rewrite H; by intros [? ?]).
Qed.

(** X17.  An id that is not registered (never given out, disconnected, or
    evicted by a registration of the same page) is ignored: removing it,
    marking it busy or idle, its disconnect, its status messages and its
    result messages without error change nothing; in particular marking it
    busy binds no task to it. *)
Theorem unregistered_worker_is_ignored :
  ∀ w cid s,
    odict.get cid (clients (tm s)) = None →
    remove_client cid (tm s) = tm s ∧
    (∀ tid, mark_client_busy cid tid (tm s) = tm s) ∧
    mark_client_idle w cid (tm s) = tm s ∧
    ws_close cid s = s ∧
    (∀ message, ws_message w cid (MsgStatus message) s = s) ∧
    (∀ tid, ws_message w cid (MsgResult tid None) s = s).
Proof.
  intros w cid s H. split_and!.
  - by apply remove_client_unregistered.
  - intros tid. by apply mark_client_busy_unregistered.
  - by apply mark_client_idle_unregistered.
  - unfold ws_close. rewrite remove_client_unregistered by done.
    by destruct s.
  - intros message. unfold ws_message, ws_handle. by rewrite H.
  - intros tid. unfold ws_message, ws_handle. cbn [truthy andb].
    rewrite mark_client_idle_unregistered by done. by destruct s.
Qed.

Lemma unregistered_worker_is_ignored_witness :
  ws_close "c9_9" assigned_example = assigned_example.
Proof.
  exact (proj1 (proj2 (proj2 (proj2
           (unregistered_worker_is_ignored world0 "c9_9" assigned_example
              eq_refl))))).
Defined.

(** *** Page urls and page numbers *)

Lemma pages_alter (f : client → client) k cs :
  (∀ c, url (f c) = url c ∧ page_number (f c) = page_number c) →
  pages (odict.alter f k cs) = pages cs.
Proof.
  intros Hf. unfold pages. induction cs as [|[k' c] cs IH]; [done|].
  cbn [odict.alter]. destruct (decide (k' = k)); rewrite !fmap_cons, IH;
    [|done].
  cbn [snd]. by destruct (Hf c) as [-> ->].
Qed.

Lemma pages_del k cs : pages (odict.del k cs) `sublist_of` pages cs.
Proof.
  unfold pages. induction cs as [|[k' c] cs IH]; [done|].
  cbn [odict.del]. destruct (decide (k' = k)).
  - by apply sublist_cons.
  - by apply sublist_skip.
Qed.

Lemma pages_le_refl m : pages_le m m.
Proof. by split. Qed.

Lemma pages_le_trans m1 m2 m3 : pages_le m1 m2 → pages_le m2 m3 → pages_le m1 m3.
Proof.
  intros [H1 E1] [H2 E2]. split; [by etrans | congruence].
Qed.

Lemma pages_le_same m' m :
  clients m' = clients m → next_page_number m' = next_page_number m →
  pages_le m' m.
Proof. intros H1 H2. split; [by rewrite H1 | done]. Qed.

Lemma pages_le_mark_client_idle w cid m : pages_le (mark_client_idle w cid m) m.
Proof.
  split; [|apply mark_client_idle_frame].
  rewrite mark_client_idle_clients. destruct (odict.mem _ _); [|done].
  by rewrite pages_alter.
Qed.

Lemma pages_le_mark_client_busy cid tid m : pages_le (mark_client_busy cid tid m) m.
Proof.
  split.
  - rewrite mark_client_busy_clients. destruct (odict.mem _ _); [|done].
    by rewrite pages_alter.
  - unfold mark_client_busy. by destruct (odict.mem _ _).
Qed.

Lemma pages_le_remove_client cid m : pages_le (remove_client cid m) m.
Proof.
  unfold remove_client. destruct (odict.get cid (clients m)); [|apply pages_le_refl].
  split; [|done]. cbn [clients with_clients]. apply pages_del.
Qed.

Lemma pages_sweep_clients now ts cs : pages (sweep_clients now ts cs) = pages cs.
Proof.
  unfold sweep_clients. revert cs.
  induction ts as [|t ts IH]; intros cs; [done|]. simpl. rewrite IH.
  destruct (timed_out now t); [|done]. unfold release_of.
  destruct (client_id t); [|done]. destruct (_ && _); [|done].
  by apply pages_alter.
Qed.

Lemma pages_le_check_timeout_tasks w m : pages_le (check_timeout_tasks w m).2 m.
Proof.
  rewrite check_timeout_tasks_spec. split; [|done].
  cbn [snd clients with_clients]. by rewrite pages_sweep_clients.
Qed.

Lemma pages_le_handle_image_result w cid tid data s :
  pages_le (tm (match handle_image_result w cid tid data s with
                | Returned s' => s'
                | Raised s' => ws_close cid s'
                end)) (tm s).
Proof.
  unfold handle_image_result.
  destruct (find_task tid (tasks (tm s))) as [[i t]|].
  - destruct (negb (w_mkdir_ok w)); [apply pages_le_remove_client|].
    destruct (result_filename w (resolve_output_dir w t) t);
      [|apply pages_le_remove_client].
    cbn [tm with_tm].
    eapply pages_le_trans; [apply pages_le_mark_client_idle|].
    by apply pages_le_same.
  - cbn [tm with_tm]. apply pages_le_mark_client_idle.
Qed.

Lemma pages_le_ws_message w cid msg s :
  pages_le (tm (ws_message w cid msg s)) (tm s).
Proof.
  unfold ws_message, ws_handle. destruct msg as [tid ci n data|tid data|tid e|m|].
  - destruct (negb (truthy tid)); [apply pages_le_refl|].
    destruct (_ && _); [|apply pages_le_refl].
    destruct (join_chunks _ _); [|apply (pages_le_remove_client cid (tm s))].
    apply (pages_le_handle_image_result w cid (default "" tid) s0
             (with_chunk_buffer _ (with_chunk_buffer _ s))).
  - destruct (negb (truthy tid)); [apply pages_le_refl|].
    apply pages_le_handle_image_result.
  - cbn [tm with_tm]. eapply pages_le_trans; [apply pages_le_mark_client_idle|].
    destruct (_ && _); [|apply pages_le_refl].
    destruct (find_task _ _) as [[i t]|]; by apply pages_le_same.
  - destruct (odict.get cid (clients (tm s))); [|apply pages_le_refl].
    destruct (truthy _); by apply pages_le_same.
  - apply pages_le_refl.
Qed.

Lemma pages_le_execute_tasks_iter w s :
  pages_le (tm (execute_tasks_iter w s)) (tm s).
Proof.
  unfold execute_tasks_iter.
  destruct (negb (is_running (tm s))); [apply pages_le_refl|].
  destruct (get_next_task (check_timeout_tasks w (tm s)).2) as [nxt tm2] eqn:E.
  assert (pages_le tm2 (tm s)) as H2.
  { pose proof (f_equal snd E) as E'. simpl in E'. rewrite <- E'.
    eapply pages_le_trans; [|apply pages_le_check_timeout_tasks].
    by apply pages_le_same. }
  destruct nxt as [t|].
  2:{ destruct (existsb _ _); [done|].
      eapply pages_le_trans; [|exact H2]. by apply pages_le_same. }
  destruct ((get_client_count tm2).1 =? 0)%nat; [done|].
  destruct (get_idle_client w tm2) as [[cid info]|]; [|done].
  destruct (_ && _).
  - eapply pages_le_trans; [|exact H2]. by apply pages_le_same.
  - assert (pages_le
              (with_index (S (current_index tm2))
                 (mark_client_busy cid (id t)
                    (with_tasks
                       (<[current_index tm2 := assign_task w t]> (tasks tm2))
                       tm2))) (tm s)) as H5.
    { eapply pages_le_trans; [|exact H2].
      eapply pages_le_trans; [|eapply pages_le_trans;
        [apply pages_le_mark_client_busy|]]; by apply pages_le_same. }
    destruct (w_send_ok w); cbn [tm with_tm emit]; [done|].
    eapply pages_le_trans; [apply pages_le_mark_client_idle|].
    eapply pages_le_trans; [|exact H5]. by apply pages_le_same.
Qed.

Lemma pages_le_start_execution s : pages_le (tm (start_execution s)) (tm s).
Proof.
  destruct (start_execution_tm s) as (_ & _ & Hc & Hn & _).
  by apply pages_le_same.
Qed.

Lemma pages_le_start_if_stopped s : pages_le (tm (start_if_stopped s)) (tm s).
Proof.
  unfold start_if_stopped. destruct (is_running (tm s)); [apply pages_le_refl|].
  apply pages_le_start_execution.
Qed.

Lemma pages_le_chat_completions w cfg p imgs api s :
  pages_le (tm (chat_completions w cfg p imgs api s).2) (tm s).
Proof.
  unfold chat_completions.
  destruct (decide (strip p = [])) as [|Hp]; [apply pages_le_refl|].
  destruct (_ && _); [apply pages_le_refl|].
  destruct (_ <? _); [apply pages_le_refl|].
  destruct ((get_client_count (tm s)).1 =? 0)%nat; [apply pages_le_refl|].
  rewrite add_task_not_blank by by rewrite strip_blank_iff, <- strip_nil.
  set (t := new_task w (strip p) (cfg_task_type cfg) (cfg_aspect_ratio cfg)
              (cfg_resolution cfg) (Some imgs) None None (tm s)).
  cbn [snd].
  match goal with
  | |- pages_le (tm (if negb (is_running (tm ?x)) && api then _ else _)) _ =>
      assert (pages_le (tm x) (tm s)) as Hx;
      [|destruct (negb (is_running (tm x)) && api); [|done];
        eapply pages_le_trans; [apply pages_le_start_execution | done]]
  end.
  destruct (get_idle_client w _) as [[cid info]|]; [|by apply pages_le_same].
  set (m2 := with_tasks
               (<[length (tasks (tm s)) := assign_task w t]> (tasks (tm s) ++ [t]))
               (with_tasks (tasks (tm s) ++ [t]) (tm s))).
  assert (pages_le (mark_client_busy cid (id t) m2) (tm s)) as H3.
  { eapply pages_le_trans; [apply pages_le_mark_client_busy|].
    by apply pages_le_same. }
  destruct (w_send_ok w); cbn [tm with_tm emit]; [done|].
  eapply pages_le_trans; [apply pages_le_mark_client_idle|].
  eapply pages_le_trans; [|exact H3]. by apply pages_le_same.
Qed.

Lemma pages_le_add_task w p ty ar res refs od row m :
  pages_le (add_task w p ty ar res refs od row m).2 m.
Proof. unfold add_task. by destruct (decide (strip p = [])). Qed.

Lemma pages_le_step o s :
  match o with
  | OpRegister _ _ => True
  | _ => pages_le (tm (step o s)) (tm s)
  end.
Proof.
  destruct o; cbn [step].
  - done.
  - done.
  - apply pages_le_ws_message.
  - apply (pages_le_remove_client cid (tm s)).
  - apply pages_le_execute_tasks_iter.
  - apply pages_le_chat_completions.
  - apply pages_le_add_task.
  - apply pages_le_add_task.
  - unfold retry_task. destruct (_ || _); [done|].
    destruct (tasks (tm s) !! Z.to_nat task_index); [|done].
    destruct (negb _); [done|]. cbn [snd].
    eapply pages_le_trans; [apply pages_le_start_if_stopped|]. done.
  - unfold retry_all_failed.
    destruct (failed_indices 0 (tasks (tm s))); [done|]. cbn [snd].
    eapply pages_le_trans; [apply pages_le_start_if_stopped|]. done.
  - unfold run_single_task. destruct (_ || _); [done|].
    destruct (tasks (tm s) !! Z.to_nat task_index); [|done].
    destruct (negb _); [done|].
    destruct ((get_client_count (tm s)).1 =? 0)%nat; [done|]. cbn [snd].
    eapply pages_le_trans; [apply pages_le_start_if_stopped|]. done.
  - done.
  - apply pages_le_start_execution.
  - done.
Qed.

Lemma Forall_sublist {A} (P : A → Prop) (l1 l2 : list A) :
  l1 `sublist_of` l2 → Forall P l2 → Forall P l1.
Proof.
  intros Hsub H. apply Forall_forall. intros x Hx.
  apply (proj1 (Forall_forall _ _) H). by eapply elem_of_sublist.
Qed.

Lemma pages_wf_le m' m : pages_le m' m → pages_wf m → pages_wf m'.
Proof.
  intros [Hsub Hn] (H1 & H2 & H3 & H4). unfold pages_wf. rewrite Hn.
  split_and!.
  - eapply sublist_NoDup; [exact H1|]. by apply fmap_sublist.
  - eapply sublist_NoDup; [exact H2|]. by apply fmap_sublist.
  - by eapply Forall_sublist.
  - done.
Qed.

Lemma odict_alter_split {V} (f : V → V) k (d : list (string * V)) :
  NoDup d.*1 → odict.mem k d = true →
  ∃ pre v0 post, d = pre ++ (k, v0) :: post ∧
                 odict.alter f k d = pre ++ (k, f v0) :: post.
Proof.
  induction d as [|[k' v] d IH]; intros Hnd Hmem.
  - done.
  - apply NoDup_cons in Hnd as [Hk Hnd]. cbn [odict.alter].
    destruct (decide (k' = k)) as [->|Hne].
    + exists [], v, d. split; [done|]. simpl. f_equal.
      clear IH Hmem Hnd. induction d as [|[k2 v2] d IH]; [done|].
      simpl in Hk. apply not_elem_of_cons in Hk as [Hk1 Hk2].
      cbn [odict.alter]. rewrite decide_False by done. f_equal. by apply IH.
    + destruct IH as (pre & v0 & post & -> & ->); [done| |].
      * unfold odict.mem in *. cbn [odict.get] in Hmem.
        by rewrite decide_False in Hmem by done.
      * by exists ((k', v) :: pre), v0, post.
Qed.

Lemma NoDup_replace_middle {A} (pre post : list A) (x y : A) :
  NoDup (pre ++ x :: post) → y ∉ pre ++ x :: post → NoDup (pre ++ y :: post).
Proof.
  intros (Ga & Gb & Gc)%NoDup_app Hy. apply NoDup_cons in Gc as [_ Gc].
  apply NoDup_app. split_and!; [done | |].
  - intros z Hz [->|Hz']%elem_of_cons.
    + apply Hy. apply elem_of_app. by left.
    + apply (Gb z Hz). by right.
  - apply NoDup_cons. split; [|done]. intros Hx. apply Hy.
    apply elem_of_app. right. by right.
Qed.

Lemma NoDup_snoc_fresh {A} (l : list A) (y : A) :
  NoDup l → y ∉ l → NoDup (l ++ [y]).
Proof.
  intros Hl Hy. apply NoDup_app. split_and!; [done | | apply NoDup_singleton].
  intros x Hx ->%list_elem_of_singleton. done.
Qed.

Lemma pages_wf_register_client w u m :
  NoDup (clients m).*1 → pages_wf m → pages_wf (register_client w u m).2.
Proof.
  intros Hk (H1 & H2 & H3 & Hpos). unfold register_client.
  cbn [snd]. unfold pages_wf. cbn [clients next_page_number].
  set (cs := filter (λ e, url e.2 ≠ u) (clients m)).
  set (cid := "c" +:+ pretty (length cs) +:+ "_" +:+ pretty (w_time w `mod` 10000)).
  set (info := mkClient u false None (next_page_number m) None).
  assert (pages cs `sublist_of` pages (clients m)) as Hsub.
  { apply fmap_sublist, sublist_filter. }
  assert (NoDup cs.*1) as Hkcs.
  { eapply sublist_NoDup; [exact Hk|]. apply fmap_sublist, sublist_filter. }
  assert (NoDup (pages cs).*1) as G1.
  { eapply sublist_NoDup; [exact H1|]. by apply fmap_sublist. }
  assert (NoDup (pages cs).*2) as G2.
  { eapply sublist_NoDup; [exact H2|]. by apply fmap_sublist. }
  assert (Forall (λ p, 1 ≤ p.2 < next_page_number m) (pages cs)) as G3.
  { by eapply Forall_sublist. }
  assert (u ∉ (pages cs).*1) as Hu.
  { unfold pages. rewrite <- list_fmap_compose.
    intros ([k c] & -> & Hin)%list_elem_of_fmap.
    apply list_elem_of_filter in Hin as [Hne _]. by apply Hne. }
  assert (next_page_number m ∉ (pages cs).*2) as Hn.
  { intros (p & E & Hin)%list_elem_of_fmap.
    pose proof (proj1 (Forall_forall _ _) G3 p Hin) as Hp. simpl in Hp. lia. }
  unfold odict.set. destruct (odict.mem cid cs) eqn:Em.
  - destruct (odict_alter_split (λ _, info) cid cs Hkcs Em)
      as (pre & v0 & post & Ecs & ->).
    rewrite Ecs in G1, G2, G3, Hu, Hn. unfold pages in *.
    rewrite !fmap_app, !fmap_cons in *. cbn [fst snd url page_number info] in *.
    split_and!.
    + by eapply NoDup_replace_middle.
    + by eapply NoDup_replace_middle.
    + apply Forall_app in G3 as [Ga Gb]. apply Forall_cons in Gb as [_ Gb].
      apply Forall_app. split.
      * eapply Forall_impl; [exact Ga|]. simpl. lia.
      * constructor; [simpl; lia|]. eapply Forall_impl; [exact Gb|]. simpl. lia.
    + lia.
  - unfold pages in *. rewrite !fmap_app. cbn [fmap list_fmap fst snd url
      page_number info]. split_and!.
    + by apply NoDup_snoc_fresh.
    + by apply NoDup_snoc_fresh.
    + apply Forall_app. split.
      * eapply Forall_impl; [exact G3|]. simpl. lia.
      * constructor; [simpl; lia | done].
    + lia.
Qed.

Lemma reachable_pages_wf s : reachable s → pages_wf (tm s).
Proof.
  intros [ops ->]. induction ops as [|o ops IH] using rev_ind.
  - unfold pages_wf. simpl. split_and!; [constructor.. | lia].
  - rewrite run_snoc. pose proof (pages_le_step o (run ops server_init)) as Hle.
    destruct o; try by apply (pages_wf_le _ _ Hle).
    cbn [step ws_register snd tm with_tm].
    apply pages_wf_register_client; [|done].
    apply reachable_clients_keys. by exists ops.
Qed.

(** X18.  In every reachable state no two registered workers have the same
    page url, the same page number or the same id; every page number is at
    least 1 and below the counter, so a page number is never given twice,
    and a number given later is greater than every number in use. *)
Theorem registry_pages_distinct :
  ∀ s,
    reachable s →
    NoDup (clients (tm s)).*1 ∧
    (∀ k1 c1 k2 c2,
       (k1, c1) ∈ clients (tm s) → (k2, c2) ∈ clients (tm s) →
       url c1 = url c2 ∨ page_number c1 = page_number c2 →
       k1 = k2 ∧ c1 = c2) ∧
    (∀ k c, (k, c) ∈ clients (tm s) →
       1 ≤ page_number c < next_page_number (tm s)) ∧
    (∀ w u k c, (k, c) ∈ clients (tm s) →
       page_number c < (register_client w u (tm s)).1.2).
Proof.
  intros s Hs.
  destruct (reachable_pages_wf s Hs) as (H1 & H2 & H3 & H4).
  pose proof (reachable_clients_keys s Hs) as Hk.
  assert (∀ k c, (k, c) ∈ clients (tm s) →
            1 ≤ page_number c < next_page_number (tm s)) as Hb.
  { intros k c Hin.
    apply (proj1 (Forall_forall _ _) H3 (url c, page_number c)).
    apply list_elem_of_fmap. by exists (k, c). }
  split_and!; [done | | done |].
  - intros k1 c1 k2 c2 Hin1 Hin2 Heq.
    apply list_elem_of_lookup in Hin1 as [i1 Hi1].
    apply list_elem_of_lookup in Hin2 as [i2 Hi2].
    assert (i1 = i2) as ->.
    { destruct Heq as [Hu|Hp].
      - apply (NoDup_lookup _ i1 i2 (url c1) H1).
        + unfold pages. by rewrite !list_lookup_fmap, Hi1.
        + unfold pages. rewrite !list_lookup_fmap, Hi2. simpl. by rewrite Hu.
      - apply (NoDup_lookup _ i1 i2 (page_number c1) H2).
        + unfold pages. by rewrite !list_lookup_fmap, Hi1.
        + unfold pages. rewrite !list_lookup_fmap, Hi2. simpl. by rewrite Hp. }
    rewrite Hi1 in Hi2. by injection Hi2 as -> ->.
  - intros w u k c Hin. cbn. apply (Hb k c Hin).
Qed.

Lemma registry_pages_distinct_witness :
  NoDup (clients (tm collision_example)).*1.
Proof.
  assert (reachable collision_example) as Hr by by eexists.
  exact (proj1 (registry_pages_distinct collision_example Hr)).
Defined.

(** ** Reading the request *)

Lemma lstrip_idemp (s : list N) : lstrip (lstrip s) = lstrip s.
Proof.
  induction s as [|c s IH]; [done|]. simpl.
  destruct (py_isspace c) eqn:E; [done|]. simpl. by rewrite E.
Qed.

Lemma lstrip_snoc (s : list N) c :
  py_isspace c = false → lstrip (s ++ [c]) = lstrip s ++ [c].
Proof.
  intros Hc. induction s as [|a s IH]; simpl.
  - by rewrite Hc.
  - by destruct (py_isspace a).
Qed.

Lemma rstrip_cons (s : list N) c :
  py_isspace c = false → rstrip (c :: s) = c :: rstrip s.
Proof.
  intros Hc. unfold rstrip. rewrite reverse_cons, lstrip_snoc by done.
  by rewrite reverse_app.
Qed.

Lemma rstrip_idemp (s : list N) : rstrip (rstrip s) = rstrip s.
Proof. unfold rstrip. by rewrite reverse_involutive, lstrip_idemp. Qed.

Lemma lstrip_rstrip_lstrip (s : list N) : lstrip (rstrip (lstrip s)) = rstrip (lstrip s).
Proof.
  induction s as [|c s IH]; [done|]. simpl.
  destruct (py_isspace c) eqn:E; [done|].
  rewrite rstrip_cons by done. simpl. by rewrite E.
Qed.

Lemma strip_idemp (s : list N) : strip (strip s) = strip s.
Proof. unfold strip. by rewrite lstrip_rstrip_lstrip, rstrip_idemp. Qed.

Lemma lstrip_split (s : list N) :
  ∃ pre, s = pre ++ lstrip s ∧ blank pre.
Proof.
  induction s as [|c s (pre & E & Hb)];
    [exists []; split; [done | constructor]|]. simpl.
  destruct (py_isspace c) eqn:Ec.
  - exists (c :: pre). split; [simpl; by f_equal | by constructor].
  - exists []. split; [done | constructor].
Qed.

Lemma rstrip_split (s : list N) :
  ∃ post, s = rstrip s ++ post ∧ blank post.
Proof.
  destruct (lstrip_split (reverse s)) as (pre & E & Hb).
  exists (reverse pre). split.
  - unfold rstrip. rewrite <- reverse_app, <- E. by rewrite reverse_involutive.
  - unfold blank. by apply Forall_reverse.
Qed.

Lemma strip_ends (s : list N) :
  (∀ c, head (strip s) = Some c → py_isspace c = false) ∧
  (∀ c, last (strip s) = Some c → py_isspace c = false).
Proof.
  assert (∀ x c, head (lstrip x) = Some c → py_isspace c = false) as Hhead.
  { induction x as [|a x IH]; intros c; simpl; [done|].
    destruct (py_isspace a) eqn:E; [apply IH|]. simpl. by intros [= <-]. }
  split.
  - intros c. unfold strip. rewrite <- lstrip_rstrip_lstrip. apply Hhead.
  - intros c. unfold strip, rstrip. rewrite last_reverse. apply Hhead.
Qed.

(** X19.  The prompt of a task [add_task] creates is the given prompt
    without a blank prefix and a blank suffix: it is not empty and neither
    starts nor ends with white space.  Stripping it again changes nothing,
    so adding the stored prompt again would store the same prompt, and the
    prompt [_extract_prompt_and_images] returns goes into the task of an
    HTTP request as it is. *)
Theorem stored_prompt_is_stripped :
  ∀ w p ty ar res refs od row m t m',
    add_task w p ty ar res refs od row m = (Some t, m') →
    (∃ pre post, p = pre ++ prompt t ++ post ∧ blank pre ∧ blank post) ∧
    prompt t ≠ [] ∧
    (∀ c, head (prompt t) = Some c → py_isspace c = false) ∧
    (∀ c, last (prompt t) = Some c → py_isspace c = false) ∧
    add_task w (prompt t) ty ar res refs od row m = (Some t, m') ∧
    (∀ msgs, strip (extract_prompt_and_images msgs).1
             = (extract_prompt_and_images msgs).1).
Proof.
  intros w p ty ar res refs od row m t m' H.
  assert (¬ blank p) as Hnb.
  { intros Hb. by rewrite add_task_blank in H. }
  rewrite add_task_not_blank in H by done. injection H as <- <-.
  assert (prompt (new_task w p ty ar res refs od row m) = strip p) as -> by done.
  split_and!.
  - destruct (lstrip_split p) as (pre & E1 & H1).
    destruct (rstrip_split (lstrip p)) as (post & E2 & H2).
    exists pre, post. split_and!; [|done..].
    unfold strip. by rewrite <- E2.
  - by rewrite strip_nil.
  - apply strip_ends.
  - apply strip_ends.
  - rewrite add_task_not_blank by by rewrite strip_blank_iff.
    unfold new_task. by rewrite strip_idemp.
  - intros msgs. unfold extract_prompt_and_images. cbn [fst]. apply strip_idemp.
Qed.

Lemma stored_prompt_is_stripped_witness :
  prompt (new_task world0 [32; 104; 105; 10]%N "Create Image" "16:9" "1K"
            (Some []) None None TaskManager_init) ≠ [].
Proof.
  exact (proj1 (proj2
    (stored_prompt_is_stripped world0 [32; 104; 105; 10]%N "Create Image"
       "16:9" "1K" (Some []) None None TaskManager_init _ _ eq_refl))).
Defined.

Lemma string_app_cons a (s r : string) : String a s +:+ r = String a (s +:+ r).
Proof. reflexivity. Qed.

Lemma string_app_empty_r (s : string) : s +:+ "" = s.
Proof. induction s as [|a s IH]; [done|]. by rewrite string_app_cons, IH. Qed.

Lemma strip_prefix_app (p r : string) : strip_prefix p (p +:+ r) = Some r.
Proof.
  induction p as [|a p IH]; [done|]. rewrite string_app_cons.
  cbn [strip_prefix]. by rewrite Ascii.eqb_refl.
Qed.

Lemma strip_prefix_Some (p s r : string) :
  strip_prefix p s = Some r → s = p +:+ r.
Proof.
  revert s. induction p as [|a p IH]; intros s; simpl.
  - by intros [= ->].
  - destruct s as [|b s]; [done|].
    destruct (Ascii.eqb a b) eqn:E; [|done].
    apply Ascii.eqb_eq in E as ->. intros H%IH.
    by rewrite string_app_cons, H.
Qed.

Lemma occurs_cons c a s : occurs c (String a s) ↔ c = a ∨ occurs c s.
Proof. unfold occurs. simpl. apply elem_of_cons. Qed.

Lemma occurs_empty c : ¬ occurs c "".
Proof. unfold occurs. simpl. apply not_elem_of_nil. Qed.

Lemma span_not_app c (a b : string) :
  ¬ occurs c a →
  span_not c (a +:+ b) = (a +:+ (span_not c b).1, (span_not c b).2).
Proof.
  induction a as [|x a IH]; intros Hc.
  - change ("" +:+ b) with b. by destruct (span_not c b).
  - rewrite occurs_cons in Hc. rewrite !string_app_cons. cbn [span_not].
    destruct (Ascii.eqb x c) eqn:E.
    + apply Ascii.eqb_eq in E as ->. destruct Hc. by left.
    + rewrite IH; [done|]. intros H. apply Hc. by right.
Qed.

Lemma span_not_none c (s : string) : ¬ occurs c s → span_not c s = (s, "").
Proof.
  intros H. rewrite <- (string_app_empty_r s) at 1.
  rewrite span_not_app by done. cbn [span_not fst snd].
  by rewrite string_app_empty_r.
Qed.

Lemma span_not_spec c (s : string) :
  s = (span_not c s).1 +:+ (span_not c s).2 ∧
  ¬ occurs c (span_not c s).1 ∧
  ((span_not c s).2 = "" ∨ ∃ r, (span_not c s).2 = String c r).
Proof.
  induction s as [|a s (IH1 & IH2 & IH3)]; cbn [span_not].
  - split_and!; [done | apply occurs_empty | by left].
  - destruct (Ascii.eqb a c) eqn:E; cbn [fst snd].
    + apply Ascii.eqb_eq in E as ->.
      split_and!; [done | apply occurs_empty | right; by eexists].
    + split_and!; [by rewrite string_app_cons, <- IH1 | | done].
      rewrite occurs_cons. intros [->|H]; [|done].
      by rewrite Ascii.eqb_refl in E.
Qed.

Lemma string_eqb_empty (s : string) : String.eqb s "" = false ↔ s ≠ "".
Proof. by destruct s. Qed.

Lemma match_data_url_Some (url b : string) :
  match_data_url url = Some b →
  b ≠ "" ∧ ¬ occurs newline b ∧
  String.prefix "data:" url = true ∧
  ∃ mime rest,
    url = "data:image/" +:+ mime +:+ ";base64," +:+ b +:+ rest ∧
    mime ≠ "" ∧ ¬ occurs semicolon mime ∧
    (rest = "" ∨ ∃ r, rest = String newline r).
Proof.
  unfold match_data_url.
  destruct (strip_prefix "data:image/" url) as [rest|] eqn:E1; [|done].
  cbn [mbind option_bind].
  destruct (span_not_spec semicolon rest) as (S1 & S2 & S3).
  destruct (span_not semicolon rest) as [mime rest1]. cbn [fst snd] in *.
  destruct (String.eqb mime "") eqn:Em; [done|].
  apply string_eqb_empty in Em.
  destruct (strip_prefix ";base64," rest1) as [rest2|] eqn:E2; [|done].
  cbn [mbind option_bind].
  destruct (span_not_spec newline rest2) as (T1 & T2 & T3).
  destruct (String.eqb (span_not newline rest2).1 "") eqn:Eb; [done|].
  apply string_eqb_empty in Eb. intros [= <-].
  apply strip_prefix_Some in E1, E2.
  split_and!; [done | done | by rewrite E1 |].
  exists mime, (span_not newline rest2).2.
  split_and!; [|done..].
  by rewrite E1, S1, E2, T1 at 1.
Qed.

(** X20.  Image items of a request.  A data URL
    [data:image/<mime>;base64,<payload>] with a non-empty mime type without
    semicolon and a non-empty payload without newline yields exactly its
    payload.  Conversely, whatever is extracted from a URL is not empty and
    has no newline, and the URL is [data:image/], a non-empty mime type
    without semicolon, [;base64,], the extracted payload, and then nothing
    or a newline and more: a payload is cut at its first newline. *)
Theorem data_url_round_trip :
  (∀ mime payload,
     mime ≠ "" → ¬ occurs semicolon mime →
     payload ≠ "" → ¬ occurs newline payload →
     match_data_url ("data:image/" +:+ mime +:+ ";base64," +:+ payload)
       = Some payload) ∧
  (∀ url b,
     match_data_url url = Some b →
     b ≠ "" ∧ ¬ occurs newline b ∧
     String.prefix "data:" url = true ∧
     ∃ mime rest,
       url = "data:image/" +:+ mime +:+ ";base64," +:+ b +:+ rest ∧
       mime ≠ "" ∧ ¬ occurs semicolon mime ∧
       (rest = "" ∨ ∃ r, rest = String newline r)).
Proof.
  split.
  - intros mime payload Hm Hms Hp Hpn. unfold match_data_url.
    rewrite strip_prefix_app. cbn [mbind option_bind].
    rewrite span_not_app by done.
    change (span_not semicolon (";base64," +:+ payload))
      with ("", ";base64," +:+ payload).
    cbn [fst snd]. rewrite string_app_empty_r.
    rewrite (proj2 (string_eqb_empty mime)) by done.
    rewrite strip_prefix_app. cbn [mbind option_bind].
    rewrite span_not_none by done. cbn [fst].
    by rewrite (proj2 (string_eqb_empty payload)).
  - apply match_data_url_Some.
Qed.

Lemma data_url_round_trip_witness :
  match_data_url "data:image/png;base64,QUJD" = Some "QUJD".
Proof.
  apply (proj1 data_url_round_trip "png" "QUJD"); try discriminate.
  - unfold occurs. simpl. rewrite !elem_of_cons. intros [H|[H|[H|H]]];
      try discriminate. by apply elem_of_nil in H.
  - unfold occurs. simpl. rewrite !elem_of_cons. intros [H|[H|[H|[H|H]]]];
      try discriminate. by apply elem_of_nil in H.
Defined.

Lemma foldl_extract_item (items : list content_item) (acc : list N * list string) :
  foldl extract_item acc items
    = (default acc.1 (last (omap item_text items)),
       acc.2 ++ omap item_image items).
Proof.
  revert acc. induction items as [|it items IH]; intros [p imgs].
  - simpl. by rewrite app_nil_r.
  - cbn [foldl]. rewrite IH. destruct it as [text|url].
    + cbn [extract_item item_text item_image omap list_omap fst snd].
      destruct (decide (text = [])) as [->|Hne].
      * done.
      * f_equal. fold (omap item_text items).
        destruct (omap item_text items) as [|x l] eqn:E; [done|].
        rewrite (last_cons text).
        destruct (last (x :: l)) eqn:El; [done|].
        by apply last_None in El.
    + cbn [extract_item item_text item_image omap list_omap fst snd].
      fold (omap item_text items). fold (omap item_image items).
      destruct (match_data_url url) as [b|] eqn:Eb.
      * assert (String.prefix "data:" url = true) as ->.
        { by destruct (match_data_url_Some url b Eb) as (_ & _ & ? & _). }
        cbn [fst snd]. by rewrite <- app_assoc.
      * destruct (String.prefix "data:" url); done.
Qed.

Lemma extract_from_snoc_user (l : list chat_message) m :
  msg_role m = User → extract_from (m :: l) = extract_from [m].
Proof. intros H. cbn [extract_from]. by rewrite H. Qed.

Lemma extract_from_images (l : list chat_message) :
  (extract_from l).2 = [] ∨
  ∃ items, (extract_from l).2 = omap item_image items.
Proof.
  induction l as [|m l IH]; [by left|]. cbn [extract_from].
  destruct (msg_role m); [|done..].
  destruct (msg_content m) as [s|items]; [by left|].
  right. exists items. by rewrite foldl_extract_item.
Qed.

Lemma extract_no_user (msgs : list chat_message) :
  Forall (λ m, msg_role m ≠ User) msgs →
  extract_prompt_and_images msgs = ([], []).
Proof.
  unfold extract_prompt_and_images. intros Hall.
  apply Forall_reverse in Hall.
  induction Hall as [|m l Hm Hl IH]; [done|]. cbn [extract_from].
  by destruct (msg_role m).
Qed.

(** X21.  [_extract_prompt_and_images] reads the last message of role user
    and nothing else: messages before it, and messages of other roles after
    it, make no difference.  Without a user message the prompt is empty and
    there are no images.  A string content is the prompt, stripped, without
    images.  Of a list content the prompt is the last non-empty text item,
    stripped, and the images are the payloads of the image items that are
    data URLs of the accepted form, in order; other image items are dropped
    silently.  No extracted image is empty or contains a newline. *)
Theorem extract_prompt_and_images_spec :
  (∀ msgs m, msg_role m = User →
     extract_prompt_and_images (msgs ++ [m]) = extract_prompt_and_images [m]) ∧
  (∀ msgs m, msg_role m ≠ User →
     extract_prompt_and_images (msgs ++ [m]) = extract_prompt_and_images msgs) ∧
  (∀ msgs, Forall (λ m, msg_role m ≠ User) msgs →
     extract_prompt_and_images msgs = ([], [])) ∧
  (∀ s, extract_prompt_and_images [mkMessage User (ContentStr s)]
        = (strip s, [])) ∧
  (∀ items,
     extract_prompt_and_images [mkMessage User (ContentList items)]
       = (strip (default [] (last (omap item_text items))),
          omap item_image items)) ∧
  (∀ msgs, Forall (λ b, b ≠ "" ∧ ¬ occurs newline b)
             (extract_prompt_and_images msgs).2).
Proof.
  unfold extract_prompt_and_images. split_and!.
  - intros msgs m Hm. rewrite reverse_snoc.
    by rewrite (extract_from_snoc_user _ m Hm).
  - intros msgs m Hm. rewrite reverse_snoc. cbn [extract_from].
    by destruct (msg_role m).
  - apply extract_no_user.
  - done.
  - intros items. cbn [reverse rev_append extract_from msg_role msg_content].
    change (reverse [mkMessage User (ContentList items)])
      with [mkMessage User (ContentList items)].
    cbn [extract_from msg_role msg_content]. by rewrite foldl_extract_item.
  - intros msgs. cbn [snd].
    destruct (extract_from_images (reverse msgs)) as [->|[items ->]];
      [constructor|].
    apply Forall_forall. intros b (it & Hit & Hb)%list_elem_of_omap.
    destruct it as [text|url]; [done|].
    by destruct (match_data_url_Some url b Hb) as (? & ? & _).
Qed.

Lemma extract_prompt_and_images_spec_witness :
  extract_prompt_and_images
    [mkMessage User (ContentStr [120]%N);
     mkMessage User (ContentStr [32; 104; 105]%N);
     mkMessage Assistant (ContentStr [121]%N)]
  = extract_prompt_and_images
      [mkMessage User (ContentStr [120]%N);
       mkMessage User (ContentStr [32; 104; 105]%N)].
Proof.
  apply (proj1 (proj2 extract_prompt_and_images_spec)
           [mkMessage User (ContentStr [120]%N);
            mkMessage User (ContentStr [32; 104; 105]%N)]
           (mkMessage Assistant (ContentStr [121]%N))).
  discriminate.
Defined.

(** *** The model table *)

Lemma chat_completions_rejects w cfg p imgs api s :
  blank p ∨ cfg_max_images cfg < Z.of_nat (length imgs) →
  chat_completions w cfg p imgs api s = (inl E400, s).
Proof.
  intros [Hp|Hn]; unfold chat_completions.
  - by rewrite decide_True by by apply strip_nil.
  - destruct (decide (strip p = [])); [done|].
    destruct (_ && _); [done|].
    by replace (cfg_max_images cfg <? Z.of_nat (length imgs)) with true by lia.
Qed.

Lemma MODEL_MAPPING_entries :
  Forall (λ e,
    (cfg_max_images e.2 = 0 ↔ cfg_task_type e.2 = "Text to Video") ∧
    0 ≤ cfg_max_images e.2 ≤ 8 ∧
    contains "Video" (cfg_task_type e.2)
      = negb (String.eqb (cfg_task_type e.2) "Create Image") ∧
    (cfg_resolution e.2 = "1K" ↔ cfg_task_type e.2 = "Create Image") ∧
    (cfg_aspect_ratio e.2 = "16:9" ∨ cfg_aspect_ratio e.2 = "9:16"))
    MODEL_MAPPING.
Proof.
  unfold MODEL_MAPPING.
  repeat (apply Forall_cons; split;
          [cbn [snd cfg_max_images cfg_task_type cfg_resolution
                cfg_aspect_ratio];
           repeat split;
           first [ done | lia | reflexivity | by left | by right
                 | intros; done | intros; lia ]|]).
  constructor.
Qed.

(** X22.  The request as a whole.  A model name that is not in the table is
    answered with 400 and changes nothing; an empty model name stands for
    [gemini-2.5-flash-image-landscape].  Without a user message, or with a
    blank prompt, any model answers 400.  Every model of the table takes
    between 0 and 8 images; it takes none exactly when it is a text-to-video
    model, so a text-to-video request with an image of the accepted form is
    answered with 400 and creates no task; and a model makes a video (file
    extension [.mp4]) exactly when it is not an image model. *)
Theorem chat_completions_request_spec :
  (∀ w model msgs api s,
     model ≠ "" → odict.get model MODEL_MAPPING = None →
     chat_completions_request w model msgs api s = (inl E400, s)) ∧
  (∀ w msgs api s,
     chat_completions_request w "" msgs api s
       = chat_completions_request w "gemini-2.5-flash-image-landscape" msgs
           api s) ∧
  (∀ w model msgs api s,
     blank (extract_prompt_and_images msgs).1 →
     chat_completions_request w model msgs api s = (inl E400, s)) ∧
  (∀ w model msgs api s,
     Forall (λ m, msg_role m ≠ User) msgs →
     chat_completions_request w model msgs api s = (inl E400, s)) ∧
  (∀ model cfg,
     odict.get model MODEL_MAPPING = Some cfg →
     (cfg_max_images cfg = 0 ↔ cfg_task_type cfg = "Text to Video") ∧
     0 ≤ cfg_max_images cfg ≤ 8 ∧
     contains "Video" (cfg_task_type cfg)
       = negb (String.eqb (cfg_task_type cfg) "Create Image")) ∧
  (∀ w model cfg msgs api s,
     odict.get model MODEL_MAPPING = Some cfg →
     cfg_task_type cfg = "Text to Video" →
     (extract_prompt_and_images msgs).2 ≠ [] →
     chat_completions_request w model msgs api s = (inl E400, s)).
Proof.
  assert (∀ model cfg, odict.get model MODEL_MAPPING = Some cfg →
            (cfg_max_images cfg = 0 ↔ cfg_task_type cfg = "Text to Video") ∧
            0 ≤ cfg_max_images cfg ≤ 8 ∧
            contains "Video" (cfg_task_type cfg)
              = negb (String.eqb (cfg_task_type cfg) "Create Image")) as Htab.
  { intros model cfg Hget. apply odict_get_elem_of in Hget.
    pose proof (proj1 (Forall_forall _ _) MODEL_MAPPING_entries _ Hget) as H.
    cbn [snd] in H. destruct H as (H1 & H2 & H3 & _). done. }
  assert (∀ w model msgs api s,
            blank (extract_prompt_and_images msgs).1 →
            chat_completions_request w model msgs api s = (inl E400, s)) as Hblank.
  { intros w model msgs api s Hb. unfold chat_completions_request.
    destruct (odict.get _ MODEL_MAPPING); [|done].
    apply chat_completions_rejects. by left. }
  split_and!.
  - intros w model msgs api s Hne Hget. unfold chat_completions_request.
    rewrite (proj2 (string_eqb_empty model)) by done. by rewrite Hget.
  - done.
  - done.
  - intros w model msgs api s Hall. apply Hblank.
    rewrite extract_no_user by done. constructor.
  - done.
  - intros w model cfg msgs api s Hget Ht Himgs.
    unfold chat_completions_request.
    destruct (String.eqb model "") eqn:Em.
    + apply String.eqb_eq in Em as ->. done.
    + rewrite Hget. apply chat_completions_rejects. right.
      destruct (Htab model cfg Hget) as (H0 & _). rewrite (proj2 H0 Ht).
      destruct (extract_prompt_and_images msgs).2; [done|]. simpl. lia.
Qed.

Lemma chat_completions_request_spec_witness :
  chat_completions_request world0 "veo_2_0_t2v_portrait"
    [mkMessage User
       (ContentList [ItemText [104]%N; ItemImage "data:image/png;base64,QUJD"])]
    false registered_example
  = (inl E400, registered_example).
Proof.
  apply (proj2 (proj2 (proj2 (proj2 (proj2 chat_completions_request_spec))))
           world0 "veo_2_0_t2v_portrait" (mkCfg "Text to Video" "9:16" "720p" 0));
    [reflexivity | reflexivity | vm_compute; discriminate].
Defined.

(** ** Answering the request *)

Lemma get_task_by_id_Some tid m t :
  get_task_by_id tid m = Some t → id t = tid ∧ t ∈ tasks m.
Proof.
  unfold get_task_by_id.
  destruct (find_task tid (tasks m)) as [[i u]|] eqn:E; [|done].
  intros [= <-]. apply find_task_Some in E as [Hi Hid].
  split; [done|]. by eapply list_elem_of_lookup_2.
Qed.

Lemma adjacent_distinct_cons a b (l : list string) :
  a ≠ b → adjacent_distinct (b :: l) → adjacent_distinct (a :: b :: l).
Proof.
  intros Hab Hl [|i] x y Hx Hy.
  - simpl in Hx, Hy. by injection Hx as <-; injection Hy as <-.
  - by apply (Hl i).
Qed.

Lemma adjacent_distinct_singleton a : adjacent_distinct [a].
Proof. intros [|i] x y Hx Hy; done. Qed.

Lemma stream_loop_shape r last polls :
  ∃ (pcs : list (Z * string)) tail,
    (stream_loop r last polls).1
      = ((λ pc, stream_progress r pc.1 pc.2) <$> pcs) ++ tail ∧
    adjacent_distinct (last :: pcs.*2) ∧
    Forall (λ c, c ≠ "") pcs.*2 ∧
    if (stream_loop r last polls).2
    then ∃ created,
           tail = stream_timeout r created ∨
           ∃ t, tail = stream_final r created t ∧ id t = req_task_id r ∧
                is_done (t_status t) = true
    else tail = [].
Proof.
  revert last. induction polls as [|p polls IH]; intros last.
  - exists [], []. split_and!; [done | apply adjacent_distinct_singleton
                               | constructor | done].
  - cbn [stream_loop].
    destruct (p_clock p - req_start r <? req_timeout r * MICRO).
    2:{ exists [], (stream_timeout r (p_created p)).
        split_and!; [done | apply adjacent_distinct_singleton | constructor|].
        exists (p_created p). by left. }
    destruct (get_task_by_id (req_task_id r) (p_tm p)) as [t|] eqn:Et.
    2:{ exists [], (stream_timeout r (p_created p)).
        split_and!; [done | apply adjacent_distinct_singleton | constructor|].
        exists (p_created p). by left. }
    apply get_task_by_id_Some in Et as [Hid _].
    destruct (is_done (t_status t)) eqn:Ed.
    { exists [], (stream_final r (p_created p) t).
      split_and!; [done | apply adjacent_distinct_singleton | constructor|].
      exists (p_created p). right. by exists t. }
    destruct (negb (String.eqb (current_progress t) "")
              && negb (String.eqb (current_progress t) last)) eqn:Ec.
    + apply andb_true_iff in Ec as [E1 E2].
      apply negb_true_iff in E1, E2. apply String.eqb_neq in E1, E2.
      destruct (IH (current_progress t)) as (pcs & tail & H1 & H2 & H3 & H4).
      exists ((p_created p, current_progress t) :: pcs), tail.
      cbn [fst snd]. split_and!.
      * rewrite H1. done.
      * rewrite fmap_cons. cbn [snd]. apply adjacent_distinct_cons; [|done].
        congruence.
      * rewrite fmap_cons. by constructor.
      * done.
    + apply IH.
Qed.

(** X23.  The event stream of a streaming request.  It opens with the role
    chunk; then come progress chunks, each with a non-empty text that
    differs from the text of the progress chunk before it; and when the
    generator finishes, the stream ends with exactly one chunk with finish
    reason [stop] followed by the end marker.  That last chunk is the
    rendered result of a task with the request's id and a final status, or
    the timeout text; the timeout text is also what a client gets when the
    task is no longer in the list.  A task found finished at the first look
    gives the role chunk, the result and the end marker, and nothing else. *)
Theorem stream_shape :
  ∀ r created polls,
    (∃ (pcs : list (Z * string)) tail,
       (stream r created polls).1
         = mk_chunk r created (Some "assistant") (Some "") None
             :: ((λ pc, stream_progress r pc.1 pc.2) <$> pcs) ++ tail ∧
       adjacent_distinct ("" :: pcs.*2) ∧
       Forall (λ c, c ≠ "") pcs.*2 ∧
       if (stream r created polls).2
       then ∃ created',
              tail = stream_timeout r created' ∨
              ∃ t, tail = stream_final r created' t ∧ id t = req_task_id r ∧
                   is_done (t_status t) = true
       else tail = []) ∧
    (∀ p rest,
       polls = p :: rest →
       p_clock p - req_start r < req_timeout r * MICRO →
       (get_task_by_id (req_task_id r) (p_tm p) = None →
        stream r created polls
          = (mk_chunk r created (Some "assistant") (Some "") None
               :: stream_timeout r (p_created p), true)) ∧
       (∀ t, get_task_by_id (req_task_id r) (p_tm p) = Some t →
             is_done (t_status t) = true →
             stream r created polls
               = (mk_chunk r created (Some "assistant") (Some "") None
                    :: stream_final r (p_created p) t, true))).
Proof.
  intros r created polls. split.
  - destruct (stream_loop_shape r "" polls) as (pcs & tail & H1 & H2 & H3 & H4).
    exists pcs, tail. unfold stream. cbn [fst snd]. by rewrite H1.
  - intros p rest -> Hin. unfold stream. cbn [stream_loop].
    replace (p_clock p - req_start r <? req_timeout r * MICRO) with true by lia.
    split.
    + by intros ->.
    + intros t -> Hd. by rewrite Hd.
Qed.

Lemma stream_shape_witness :
  stream request_example 0 [poll_example]
  = (mk_chunk request_example 0 (Some "assistant") (Some "") None
       :: stream_final request_example 0 failed_example, true).
Proof.
  assert (p_clock poll_example - req_start request_example
          < req_timeout request_example * MICRO) as Hin.
  { vm_compute. reflexivity. }
  exact (proj2 (proj2 (stream_shape request_example 0 [poll_example])
                  poll_example [] eq_refl Hin) failed_example eq_refl eq_refl).
Defined.

Lemma find_done_Some tid (ts : list task) t :
  find_done tid ts = Some t → id t = tid ∧ is_done (t_status t) = true ∧ t ∈ ts.
Proof.
  induction ts as [|u ts IH]; [done|]. cbn [find_done].
  destruct (bool_decide (id u = tid) && is_done (t_status u)) eqn:E.
  - intros [= <-]. apply andb_true_iff in E as [E1%bool_decide_eq_true E2].
    split_and!; [done.. | left].
  - intros (? & ? & ?)%IH. split_and!; [done.. | by right].
Qed.

Lemma find_done_None tid (ts : list task) :
  find_done tid ts = None →
  ∀ t, t ∈ ts → id t = tid → is_done (t_status t) = false.
Proof.
  induction ts as [|u ts IH]; intros H t Ht Hid.
  - by apply elem_of_nil in Ht.
  - cbn [find_done] in H.
    destruct (bool_decide (id u = tid) && is_done (t_status u)) eqn:E; [done|].
    apply elem_of_cons in Ht as [->|Ht]; [|by apply IH].
    rewrite bool_decide_eq_true_2 in E by done. done.
Qed.

(** X24.  The wait of a non-streaming request.  It returns a task only if
    the task has the id asked for and a final status, and was in the list at
    a look made before the time budget was used up, no earlier look having
    found one; it gives up (the 504) only at a look at which the budget is
    used up; and while it is still waiting every look was within the budget
    and found every task with the id unfinished.  The answer to a returned
    task is its rendered result. *)
Theorem wait_for_task_done_spec :
  ∀ start timeout tid polls,
    let waiting p :=
      p_clock p - start < timeout * MICRO ∧
      ∀ t, t ∈ tasks (p_tm p) → id t = tid → is_done (t_status t) = false in
    match wait_for_task_done start timeout tid polls with
    | Some (Some t) =>
        id t = tid ∧ is_done (t_status t) = true ∧
        (∀ base, blocking_response base (Some t)
                 = Some (build_markdown_result base t)) ∧
        ∃ pre p post,
          polls = pre ++ p :: post ∧ Forall waiting pre ∧
          p_clock p - start < timeout * MICRO ∧ t ∈ tasks (p_tm p)
    | Some None =>
        ∃ pre p post,
          polls = pre ++ p :: post ∧ Forall waiting pre ∧
          timeout * MICRO ≤ p_clock p - start
    | None => Forall waiting polls
    end.
Proof.
  intros start timeout tid polls waiting.
  induction polls as [|p polls IH]; [constructor|].
  cbn [wait_for_task_done].
  destruct (p_clock p - start <? timeout * MICRO) eqn:Et.
  2:{ exists [], p, polls. split_and!; [done | constructor | lia]. }
  apply Z.ltb_lt in Et.
  destruct (find_done tid (tasks (p_tm p))) as [t|] eqn:Ef.
  { apply find_done_Some in Ef as (H1 & H2 & H3).
    split_and!; [done..|]. exists [], p, polls.
    split_and!; [done | constructor | done..]. }
  assert (waiting p) as Hp.
  { split; [done|]. by apply find_done_None. }
  destruct (wait_for_task_done start timeout tid polls) as [[t|]|].
  - destruct IH as (H1 & H2 & H3 & pre & q & post & -> & Hpre & Hq & Ht).
    split_and!; [done..|]. exists (p :: pre), q, post.
    split_and!; [done | by constructor | done..].
  - destruct IH as (pre & q & post & -> & Hpre & Hq).
    exists (p :: pre), q, post. split_and!; [done | by constructor | done].
  - by constructor.
Qed.

Lemma rstrip_slash_snoc (s : string) : rstrip_slash (s +:+ "/") = rstrip_slash s.
Proof.
  induction s as [|a s IH]; [done|].
  rewrite string_app_cons. cbn [rstrip_slash]. by rewrite IH.
Qed.

Lemma rstrip_slash_idemp (s : string) :
  rstrip_slash (rstrip_slash s) = rstrip_slash s.
Proof.
  induction s as [|a s IH]; [done|]. cbn [rstrip_slash].
  destruct (rstrip_slash s) as [|b r] eqn:E.
  - destruct (Ascii.eqb a (Ascii.ascii_of_nat 47)) eqn:Ea; [done|].
    cbn [rstrip_slash]. by rewrite Ea.
  - cbn [rstrip_slash] in IH |- *. by rewrite IH.
Qed.

Lemma status_str_nonempty st : String.eqb (status_str st) "" = false.
Proof. by destruct st. Qed.

(** X25.  The rendered result.  For a task that is not succeeded it is the
    failure text followed by the task's detail, or by its status when the
    detail is empty.  For a succeeded task it is a video tag when the file
    extension is [.mp4] or [.webm] in any case, and a markdown image
    otherwise, so for a task made by [add_task] it is a video tag exactly
    when the task type contains [Video].  The link is the base url without
    trailing slashes, [/files/] and the task id: a base url with and without
    a trailing slash give the same link. *)
Theorem build_markdown_result_spec :
  (∀ base t,
     t_status t ≠ Succeeded →
     build_markdown_result base t
       = "生成失败: " +:+
           (if String.eqb (status_detail t) "" then status_str (t_status t)
            else status_detail t)) ∧
  (∀ base t,
     t_status t = Succeeded →
     build_markdown_result base t
       = if String.eqb (lower (or_str (file_ext t) ".png")) ".mp4"
            || String.eqb (lower (or_str (file_ext t) ".png")) ".webm"
         then "<video src='" +:+ make_file_url base (id t)
                +:+ "' controls></video>"
         else "![Generated Image](" +:+ make_file_url base (id t) +:+ ")") ∧
  (∀ base w p ty ar res refs od row m t,
     t_status t = Succeeded →
     file_ext t = file_ext (new_task w p ty ar res refs od row m) →
     build_markdown_result base t
       = if contains "Video" ty
         then "<video src='" +:+ make_file_url base (id t)
                +:+ "' controls></video>"
         else "![Generated Image](" +:+ make_file_url base (id t) +:+ ")") ∧
  (∀ base tid,
     make_file_url (base +:+ "/") tid = make_file_url base tid ∧
     make_file_url (rstrip_slash base) tid = make_file_url base tid).
Proof.
  split_and!.
  - intros base t Hs. unfold build_markdown_result.
    rewrite bool_decide_eq_false_2 by done. cbn [negb]. unfold or_str.
    by rewrite status_str_nonempty.
  - intros base t Hs. unfold build_markdown_result.
    by rewrite bool_decide_eq_true_2 by done.
  - intros base w p ty ar res refs od row m t Hs Hext.
    unfold build_markdown_result.
    rewrite bool_decide_eq_true_2 by done. cbn [negb]. rewrite Hext.
    unfold new_task. cbn [file_ext]. by destruct (contains "Video" ty).
  - intros base tid. unfold make_file_url.
    by rewrite rstrip_slash_snoc, rstrip_slash_idemp.
Qed.

Lemma build_markdown_result_spec_witness :
  build_markdown_result "http://h/" failed_example = "生成失败: boom".
Proof.
  apply (proj1 build_markdown_result_spec "http://h/" failed_example).
  discriminate.
Defined.

Lemma find_task_insert tid (ts : list task) i t t' :
  find_task tid ts = Some (i, t) → id t' = id t →
  find_task tid (<[i := t']> ts) = Some (i, t').
Proof.
  revert i. induction ts as [|u ts IH]; intros i; [done|]. cbn [find_task].
  destruct (decide (id u = tid)) as [E|E].
  - intros [= <- <-] Hid.
    change (<[0%nat := t']> (u :: ts)) with (t' :: ts).
    cbn [find_task]. rewrite decide_True by congruence. done.
  - destruct (find_task tid ts) as [[j v]|] eqn:Ef; [|done].
    cbn [fmap option_fmap option_map prod_map fst snd].
    intros [= <- <-] Hid.
    change (<[S j := t']> (u :: ts)) with (u :: <[j := t']> ts).
    cbn [find_task]. rewrite decide_False by done.
    by rewrite (IH j eq_refl Hid).
Qed.

Lemma absolute_nonempty w p : absolute w p ≠ "".
Proof.
  unfold absolute, is_absolute. destruct (String.prefix "/" p) eqn:E.
  - by destruct p.
  - intros H. apply (f_equal String.length) in H.
    rewrite !string_length_app in H. simpl in H. lia.
Qed.

(** X26.  [/files/{task_id}] serves the saved path of the first task with
    the id, and only if that path is not empty and the file exists; in every
    other case it answers 404.  After an image result was saved for a task,
    the file it serves for the task's id is the file that was written, as
    long as that file exists. *)
Theorem get_file_spec :
  (∀ w tid m p,
     get_file w tid m = Some p ↔
     ∃ i t, find_task tid (tasks m) = Some (i, t) ∧ saved_path t = Some p ∧
            p ≠ "" ∧ p ∈ w_files w) ∧
  (∀ w cid tid data s i t w',
     tid ≠ "" →
     find_task tid (tasks (tm s)) = Some (i, t) →
     w_mkdir_ok w = true → w_save_ok w = true →
     ∃ f,
       result_filename w (resolve_output_dir w t) t = Some f ∧
       (absolute w (path_join (resolve_output_dir w t) f) ∈ w_files w' →
        get_file w' tid (tm (ws_message w cid (MsgImageData (Some tid) data) s))
          = Some (absolute w (path_join (resolve_output_dir w t) f)))).
Proof.
  assert (∀ w tid m p,
     get_file w tid m = Some p ↔
     ∃ i t, find_task tid (tasks m) = Some (i, t) ∧ saved_path t = Some p ∧
            p ≠ "" ∧ p ∈ w_files w) as Hget.
  { intros w tid m p. unfold get_file, get_task_by_id.
    destruct (find_task tid (tasks m)) as [[i t]|]; cbn.
    2:{ split; [done|]. by intros (? & ? & ? & _). }
    split.
    - destruct (saved_path t) as [q|] eqn:Esp; cbn.
      + destruct (String.eqb q "") eqn:Eq; cbn; [done|].
        apply String.eqb_neq in Eq. unfold path_exists.
        destruct (bool_decide (q ∈ w_files w)) eqn:Ee; cbn; [|done].
        apply bool_decide_eq_true in Ee. intros [= <-]. by exists i, t.
      + done.
    - intros (i0 & t0 & [= <- <-] & Hsp & Hne & Hin). rewrite Hsp. cbn.
      rewrite (proj2 (string_eqb_empty p)) by done. unfold path_exists.
      by rewrite bool_decide_eq_true_2 by done. }
  split; [exact Hget|].
  intros w cid tid data s i t w' Htid Hfind Hmk Hsv.
  destruct (handle_image_result_found w cid tid data s i t Hfind Hmk)
    as (f & Hf & Heq).
  exists f. split; [done|]. intros Hex.
  apply Hget. unfold ws_message, ws_handle.
  rewrite truthy_Some_ne by done. cbn [negb default from_option Datatypes.id].
  rewrite Heq, Hsv. cbn zeta. cbn [tm with_tm].
  rewrite mark_client_idle_tasks. cbn [tasks with_tasks emit tm].
  set (p := absolute w (path_join (resolve_output_dir w t) f)) in *.
  exists i, (saved_task w (resolve_output_dir w t) p t).
  assert (id (saved_task w (resolve_output_dir w t) p t) = id t ∧
          saved_path (saved_task w (resolve_output_dir w t) p t) = Some p)
    as [Hid Hsp].
  { unfold saved_task. by destruct (is_image_ext _). }
  split_and!.
  - by apply (find_task_insert tid (tasks (tm s)) i t).
  - done.
  - apply absolute_nonempty.
  - done.
Qed.

Lemma get_file_spec_witness :
  ∃ f,
    result_filename world0
      (resolve_output_dir world0 assigned_task_example) assigned_task_example
      = Some f.
Proof.
  assert ("task_0_000000000000" ≠ "") as H1 by discriminate.
  destruct (proj2 get_file_spec world0 "c0_0" "task_0_000000000000" "QUJD"
              assigned_example 0%nat assigned_task_example world0 H1 eq_refl
              eq_refl eq_refl) as (f & Hf & _).
  by exists f.
Defined.

(** ** What holds of every task of a reachable state *)

Section task_invariant.
Variable P : task → Prop.
Hypothesis P_new : ∀ w p ty ar res refs od row m,
  P (new_task w p ty ar res refs od row m).
Hypothesis P_requeue : ∀ tid t, P t → P (requeue_assigned tid t).
Hypothesis P_sweep : ∀ now t, P t → P (sweep_task now t).
Hypothesis P_skip : ∀ w t, P t → P (skip_task w t).
Hypothesis P_assign : ∀ w t, P t → P (assign_task w t).
Hypothesis P_client : ∀ c t, P t → P (set_client_id c t).
Hypothesis P_queue : ∀ t, P t → P (set_status Queued t).
Hypothesis P_saved : ∀ w d sv t, P t → P (saved_task w d sv t).
Hypothesis P_save_failed : ∀ w t, P t → P (save_failed_task w t).
Hypothesis P_failed : ∀ w e t, P t → P (failed_task w e t).
Hypothesis P_detail : ∀ d t, P t → P (set_status_detail d t).
Hypothesis P_reset : ∀ t, P t → P (reset_task t).

Lemma inv_bind_first tid cid ts : Forall P ts → Forall P (bind_first tid cid ts).
Proof.
  induction 1 as [|t ts Ht Hts IH]; simpl; [done|].
  destruct (decide (id t = tid)); constructor; auto.
Qed.

Lemma inv_set_detail_first tid d ts :
  Forall P ts → Forall P (set_detail_first tid d ts).
Proof.
  induction 1 as [|t ts Ht Hts IH]; simpl; [done|].
  destruct (decide (id t = tid)); constructor; auto.
Qed.

Lemma inv_fmap (f : task → task) ts :
  (∀ t, P t → P (f t)) → Forall P ts → Forall P (f <$> ts).
Proof. intros Hf H. apply Forall_fmap. eapply Forall_impl; [done|]. done. Qed.

Lemma inv_insert (f : task → task) i t ts :
  (∀ t, P t → P (f t)) → ts !! i = Some t →
  Forall P ts → Forall P (<[i := f t]> ts).
Proof.
  intros Hf Hi H. apply Forall_insert; [done|].
  apply Hf. by eapply (Forall_lookup_1 _ _ _ _ H).
Qed.

Lemma inv_alter (f : task → task) i ts :
  (∀ t, P t → P (f t)) → Forall P ts → Forall P (alter f i ts).
Proof. intros Hf H. apply Forall_alter; [done|]. intros t _ Ht. by apply Hf. Qed.

Lemma inv_add_task w p ty ar res refs od row m :
  Forall P (tasks m) → Forall P (tasks (add_task w p ty ar res refs od row m).2).
Proof.
  intros H. destruct (decide (strip p = [])) as [Hp|Hp].
  - rewrite add_task_blank by by apply strip_nil. done.
  - rewrite add_task_not_blank by by rewrite <- strip_nil.
    cbn [snd tasks with_tasks]. apply Forall_app. split; [done|].
    constructor; [apply P_new | done].
Qed.

Lemma inv_mark_client_busy cid tid m :
  Forall P (tasks m) → Forall P (tasks (mark_client_busy cid tid m)).
Proof.
  rewrite mark_client_busy_tasks. destruct (odict.mem _ _); [|done].
  apply inv_bind_first.
Qed.

Lemma inv_start_if_stopped s :
  Forall P (tasks (tm s)) → Forall P (tasks (tm (start_if_stopped s))).
Proof. by destruct (start_if_stopped_tm s) as (-> & _). Qed.

Lemma inv_ws_close cid s :
  Forall P (tasks (tm s)) → Forall P (tasks (tm (ws_close cid s))).
Proof.
  intros H. unfold ws_close, remove_client. cbn [tm with_tm].
  destruct (odict.get cid _); [|done]. cbn [tasks with_clients with_tasks].
  destruct (truthy _); [|done]. apply inv_fmap; [|done].
  intros t. apply P_requeue.
Qed.

Lemma inv_handle_image_result w cid tid data s :
  Forall P (tasks (tm s)) →
  Forall P
    (tasks (tm (match handle_image_result w cid tid data s with
                | Returned s' => s'
                | Raised s' => ws_close cid s'
                end))).
Proof.
  intros H.
  pose proof (inv_ws_close cid s H) as Hclose.
  unfold handle_image_result.
  destruct (find_task tid (tasks (tm s))) as [[i t]|] eqn:E.
  - apply find_task_Some in E as [Hi _].
    destruct (negb (w_mkdir_ok w)); [done|].
    destruct (result_filename w (resolve_output_dir w t) t); [|done].
    cbn [tm with_tm]. rewrite mark_client_idle_tasks.
    cbn [tasks with_tasks emit tm].
    destruct (save_base64_file w s0 (resolve_output_dir w t)).
    + apply (inv_insert (saved_task w _ _)); [|done..]. apply P_saved.
    + apply (inv_insert (save_failed_task w)); [|done..]. apply P_save_failed.
  - cbn [tm with_tm]. by rewrite mark_client_idle_tasks.
Qed.

Lemma inv_step o s :
  Forall P (tasks (tm s)) → Forall P (tasks (tm (step o s))).
Proof.
  intros H. destruct o; cbn [step].
  - done.
  - done.
  - unfold ws_message, ws_handle.
    destruct msg as [tid ci n data|tid data|tid e|m|].
    + destruct (negb (truthy tid)); [done|].
      destruct (_ && _); [|done].
      destruct (join_chunks _ _).
      * by apply inv_handle_image_result.
      * by apply inv_ws_close.
    + destruct (negb (truthy tid)); [done|].
      by apply inv_handle_image_result.
    + cbn [tm with_tm]. rewrite mark_client_idle_tasks.
      destruct (_ && _); [|done].
      destruct (find_task _ _) as [[i t]|] eqn:E; [|done].
      apply find_task_Some in E as [Hi _]. cbn [tm with_tm tasks with_tasks].
      apply (inv_insert (failed_task w _)); [|done..]. apply P_failed.
    + destruct (odict.get cid _); [|done].
      destruct (truthy _); [|done]. cbn [tm with_tm].
      by apply inv_set_detail_first.
    + done.
  - by apply inv_ws_close.
  - unfold execute_tasks_iter.
    destruct (negb (is_running (tm s))); [done|].
    destruct (get_next_task (check_timeout_tasks w (tm s)).2) as [nxt tm2] eqn:E.
    assert (Forall P (tasks tm2)) as H2.
    { pose proof (f_equal snd E) as E'. simpl in E'. rewrite <- E'.
      rewrite check_timeout_tasks_spec. cbn [snd tasks with_tasks with_clients
                                              with_index].
      apply inv_fmap; [|done]. apply P_sweep. }
    destruct nxt as [t|].
    2:{ by destruct (existsb _ _). }
    apply get_next_task_Some in E as (_ & Hi & _).
    destruct ((get_client_count tm2).1 =? 0)%nat; [done|].
    destruct (get_idle_client w tm2) as [[cid info]|]; [|done].
    destruct (_ && _).
    + cbn [tm with_tm tasks with_tasks with_index].
      apply (inv_insert (skip_task w)); [|done..]. apply P_skip.
    + assert (Forall P
                (tasks (mark_client_busy cid (id t)
                          (with_tasks
                             (<[current_index tm2 := assign_task w t]> (tasks tm2))
                             tm2)))) as H4.
      { apply inv_mark_client_busy. cbn [tasks with_tasks].
        apply (inv_insert (assign_task w)); [|done..]. apply P_assign. }
      destruct (w_send_ok w); cbn [tm with_tm emit tasks with_index]; [done|].
      rewrite mark_client_idle_tasks. cbn [tasks with_tasks].
      by apply inv_alter.
  - unfold chat_completions.
    destruct (decide (strip prompt0 = [])) as [|Hp]; [done|].
    destruct (_ && _); [done|].
    destruct (_ <? _); [done|].
    destruct ((get_client_count (tm s)).1 =? 0)%nat; [done|].
    rewrite add_task_not_blank by by rewrite strip_blank_iff, <- strip_nil.
    set (t := new_task w (strip prompt0) (cfg_task_type cfg)
                (cfg_aspect_ratio cfg) (cfg_resolution cfg) (Some images)
                None None (tm s)).
    cbn [snd].
    match goal with
    | |- context [if negb (is_running (tm ?x)) && api_instance then _ else _] =>
        destruct (maybe_start_tm api_instance x) as (-> & _)
    end.
    assert (Forall P (tasks (tm s) ++ [t])) as H1.
    { apply Forall_app. split; [done|]. constructor; [|done]. apply P_new. }
    destruct (get_idle_client w _) as [[cid info]|]; [|done].
    assert (Forall P
              (tasks (mark_client_busy cid (id t)
                        (with_tasks
                           (<[length (tasks (tm s)) := assign_task w t]>
                              (tasks (tm s) ++ [t]))
                           (with_tasks (tasks (tm s) ++ [t]) (tm s)))))) as H3.
    { apply inv_mark_client_busy. cbn [tasks with_tasks].
      apply (inv_insert (assign_task w)); [apply P_assign| |done].
      by rewrite list_lookup_middle. }
    destruct (w_send_ok w); cbn [tm with_tm emit]; [done|].
    rewrite mark_client_idle_tasks. cbn [tasks with_tasks].
    by apply inv_alter.
  - by apply inv_add_task.
  - by apply inv_add_task.
  - unfold retry_task. destruct (_ || _); [done|].
    destruct (tasks (tm s) !! Z.to_nat task_index) eqn:E; [|done].
    destruct (negb _); [done|]. cbn [snd].
    apply inv_start_if_stopped. cbn [tm with_tm tasks with_tasks with_index].
    by apply (inv_insert reset_task).
  - unfold retry_all_failed.
    destruct (failed_indices 0 (tasks (tm s))); [done|]. cbn [snd].
    apply inv_start_if_stopped. cbn [tm with_tm tasks with_tasks with_index].
    apply inv_fmap; [|done]. intros t Ht. unfold reset_if_failed.
    destruct (retryable _); auto.
  - unfold run_single_task. destruct (_ || _); [done|].
    destruct (tasks (tm s) !! Z.to_nat task_index) eqn:E; [|done].
    destruct (negb _); [done|].
    destruct ((get_client_count (tm s)).1 =? 0)%nat; [done|]. cbn [snd].
    apply inv_start_if_stopped. cbn [tm with_tm tasks with_tasks].
    destruct (decide _); [done|].
    by rewrite (move_to_perm _ _ _ _ E).
  - done.
  - by destruct (start_execution_tm s) as (-> & _).
  - done.
Qed.

Lemma inv_reachable s : reachable s → Forall P (tasks (tm s)).
Proof.
  intros [ops ->]. induction ops as [|o ops IH] using rev_ind; [done|].
  rewrite run_snoc. by apply inv_step.
Qed.
End task_invariant.

Lemma reachable_task_fields s : reachable s → Forall task_fields_ok (tasks (tm s)).
Proof.
  apply inv_reachable; unfold task_fields_ok.
  - intros. unfold new_task. cbn. done.
  - intros tid t H. unfold requeue_assigned. case_decide; [|done]. cbn. done.
  - intros now t H. unfold sweep_task. destruct (timed_out now t); [|done].
    cbn. split_and!; done.
  - intros w t H. unfold skip_task.
    destruct (is_image_ext (file_ext t)); cbn; split_and!; done.
  - intros w t H. unfold assign_task. cbn. split_and!; done.
  - intros c t H. by destruct t.
  - intros t H. cbn. done.
  - intros w d sv t H. unfold saved_task.
    destruct (is_image_ext _); cbn; split_and!; done.
  - intros w t H. cbn. split_and!; done.
  - intros w e t H. cbn. split_and!; done.
  - intros d t H. by destruct t.
  - intros t H. cbn. done.
Qed.

(** X27.  In every reachable state the fields of a task go with its
    status: an assigned task has a start time, so the timeout sweep expires
    it at every clock more than 600 seconds later; a succeeded, failed,
    timed out or save-failed task has an end time; a succeeded task has a
    saved path and an output directory path. *)
Theorem task_fields_discipline :
  ∀ s t,
    reachable s → t ∈ tasks (tm s) →
    (t_status t = Assigned →
     ∃ st, start_time t = Some st ∧
           ∀ now, TASK_TIMEOUT_SECONDS * MICRO < now - st →
                  timed_out now t = true) ∧
    (is_done (t_status t) = true → is_Some (end_time t)) ∧
    (t_status t = Succeeded →
     is_Some (saved_path t) ∧ is_Some (output_dir_path t)).
Proof.
  intros s t Hs Ht.
  pose proof (proj1 (Forall_forall _ _) (reachable_task_fields s Hs) t Ht)
    as (H1 & H2 & H3).
  split_and!; [|done..].
  intros Ha. destruct (H1 Ha) as [st Hst]. exists st. split; [done|].
  intros now Hnow. unfold timed_out. rewrite Ha, Hst. by apply Z.ltb_lt.
Qed.

Lemma task_fields_discipline_witness :
  ∃ st, start_time assigned_task_example = Some st.
Proof.
  assert (reachable assigned_example) as Hr by by eexists.
  assert (assigned_task_example ∈ tasks (tm assigned_example)) as Hin by left.
  destruct (proj1 (task_fields_discipline assigned_example
                     assigned_task_example Hr Hin) eq_refl) as (st & Hst & _).
  by exists st.
Defined.

(** ** Chunks that do not complete a payload *)

Lemma join_chunks_None (chunks : gmap Z string) (n : Z) :
  join_chunks chunks n = None ↔ ∃ i, 0 ≤ i < n ∧ chunks !! i = None.
Proof.
  unfold join_chunks. rewrite fmap_None, mapM_None, Exists_exists.
  split.
  - intros (i & Hi & Hc). apply elem_of_seqZ in Hi. exists i. split; [lia|done].
  - intros (i & Hi & Hc). exists i. split; [|done]. apply elem_of_seqZ. lia.
Qed.

(** X28.  A chunk message with a task id is always stored under its index,
    replacing a chunk stored under that index before.  Unless the buffer of
    the task then holds exactly as many chunks as the message announces,
    and that number is positive, nothing else happens: no task, no worker
    and no file is touched.  When the count is reached but an index from 0
    to the announced number is missing (the chunks carry other indices),
    the handler raises: the connection is closed like any disconnect, and
    the chunks stay in the buffer.  A chunk message without a task id is
    dropped. *)
Theorem image_chunk_edges :
  ∀ w cid tid idx n data s,
    tid ≠ "" →
    buffer_chunk tid idx data (chunk_buffer s) !! tid
      = Some (<[idx := data]> (default ∅ (chunk_buffer s !! tid))) ∧
    (n ≤ 0 ∨
     Z.of_nat (size (<[idx := data]> (default ∅ (chunk_buffer s !! tid)))) ≠ n →
     ws_message w cid (MsgImageChunk (Some tid) idx n data) s
       = with_chunk_buffer (buffer_chunk tid idx data (chunk_buffer s)) s) ∧
    (0 < n →
     Z.of_nat (size (<[idx := data]> (default ∅ (chunk_buffer s !! tid)))) = n →
     (∃ i, 0 ≤ i < n ∧
           <[idx := data]> (default ∅ (chunk_buffer s !! tid)) !! i = None) →
     ws_message w cid (MsgImageChunk (Some tid) idx n data) s
       = ws_close cid
           (with_chunk_buffer (buffer_chunk tid idx data (chunk_buffer s)) s)) ∧
    ws_message w cid (MsgImageChunk None idx n data) s = s ∧
    ws_message w cid (MsgImageChunk (Some "") idx n data) s = s.
Proof.
  intros w cid tid idx n data s Htid.
  assert (buffer_chunk tid idx data (chunk_buffer s) !! tid
          = Some (<[idx := data]> (default ∅ (chunk_buffer s !! tid)))) as Hb.
  { unfold buffer_chunk. by rewrite lookup_insert_eq. }
  split_and!; [done | | | done | done].
  - intros Hn. unfold ws_message, ws_handle.
    rewrite truthy_Some_ne by done. cbn [negb default from_option Datatypes.id].
    rewrite Hb. cbn [default from_option Datatypes.id].
    destruct Hn as [Hn|Hn].
    + by replace (0 <? n) with false by lia.
    + replace (Z.of_nat (size (<[idx:=data]> (default ∅ (chunk_buffer s !! tid))))
               =? n) with false by lia.
      by rewrite andb_false_r.
  - intros Hpos Hn Hmiss. unfold ws_message, ws_handle.
    rewrite truthy_Some_ne by done. cbn [negb default from_option Datatypes.id].
    rewrite Hb. cbn [default from_option Datatypes.id].
    replace (0 <? n) with true by lia.
    replace (Z.of_nat (size (<[idx:=data]> (default ∅ (chunk_buffer s !! tid))))
             =? n) with true by lia.
    cbn [andb]. by rewrite (proj2 (join_chunks_None _ _) Hmiss).
Qed.

Lemma image_chunk_edges_witness :
  ws_message world0 "c0_0"
    (MsgImageChunk (Some "task_0_000000000000") 1 2 "QQ==") assigned_example
  = with_chunk_buffer
      (buffer_chunk "task_0_000000000000" 1 "QQ=="
         (chunk_buffer assigned_example)) assigned_example.
Proof.
  assert ("task_0_000000000000" ≠ "") as H1 by discriminate.
  apply (proj1 (proj2 (image_chunk_edges world0 "c0_0" "task_0_000000000000"
                         1 2 "QQ==" assigned_example H1))).
  right. vm_compute. discriminate.
Defined.

(** ** The reference images of a task message *)




(** ** Starting, stopping and clearing *)

(** X30.  [start_execution] raises the running flag exactly when the event
    loop is known, a worker is registered and the task list is not empty,
    and never changes anything else; [stop_execution] only lowers the flag.
    [clear_tasks] empties the list, resets the cursor and lowers the flag,
    but leaves the registry as it is: a worker that was busy stays busy with
    its task id, and since the list is empty no sweep releases it. *)
Theorem start_stop_clear_spec :
  ∀ s,
    (is_running (tm (start_execution s)) = true ↔
     is_running (tm s) = true ∨
     loop_ready s = true ∧ clients (tm s) ≠ [] ∧ tasks (tm s) ≠ []) ∧
    start_execution s
      = with_tm (with_running (is_running (tm (start_execution s))) (tm s)) s ∧
    stop_execution s = with_tm (with_running false (tm s)) s ∧
    tasks (tm (Api_clear_tasks s)) = [] ∧
    current_index (tm (Api_clear_tasks s)) = 0%nat ∧
    is_running (tm (Api_clear_tasks s)) = false ∧
    clients (tm (Api_clear_tasks s)) = clients (tm s) ∧
    (∀ w, check_timeout_tasks w (tm (Api_clear_tasks s))
          = ([], tm (Api_clear_tasks s))) ∧
    (∀ w, execute_tasks_iter w (Api_clear_tasks s) = Api_clear_tasks s).
Proof.
  intros s. split_and!; try done.
  - unfold start_execution.
    destruct (loop_ready s); cbn [negb].
    2:{ split; [by left|]. intros [?|(? & _)]; done. }
    destruct ((get_client_count (tm s)).1 =? 0)%nat eqn:Ec.
    { apply get_client_count_zero in Ec. split; [by left|].
      intros [?|(_ & ? & _)]; done. }
    assert (clients (tm s) ≠ []) as Hc.
    { intros Hc%get_client_count_zero. congruence. }
    destruct (bool_decide (tasks (tm s) = [])) eqn:Et.
    { apply bool_decide_eq_true in Et. split; [by left|].
      intros [?|(_ & _ & ?)]; done. }
    apply bool_decide_eq_false in Et. cbn. split; [|done].
    intros _. by right.
  - unfold start_execution.
    destruct (negb (loop_ready s)); [by destruct s as [[] ? ? ?]|].
    destruct ((get_client_count (tm s)).1 =? 0)%nat;
      [by destruct s as [[] ? ? ?]|].
    destruct (bool_decide (tasks (tm s) = [])); [by destruct s as [[] ? ? ?]|].
    done.
Qed.
